(** * The Backfeed protocol's base contract: reward accounting

    A shallow embedding of [backfeed_protocol/contracts/base.py] (class
    [BaseContract]) and the properties of its accounting rules.

    Modelling conventions.
    - Python floats are idealised as real numbers ([R]); integer
      configuration values (fee 1, factors 5 and 50) are the same reals.
      Division by zero and a negative base under a fractional exponent raise,
      as they do in Python 2.
    - The SQLAlchemy session is an explicit store [DBSession] of three tables
      kept in insertion order.  ORM objects are references: a [User],
      [Contribution] passed to a method is its primary key, and attribute
      reads and writes go through the store, so two references to one row
      alias as they do in the identity map of the session.
    - A method is a computation [M A] that returns a value or raises, and
      always leaves a store behind: what was written before a [raise] stays
      written, exactly as it stays in the session. *)

From Stdlib Require Import Reals Lra Lia ZArith List String Bool.
From Stdlib Require Import Permutation Sorted.
Import ListNotations.

Set Implicit Arguments.

Local Open Scope Z_scope.
Local Open Scope R_scope.

(** ** Exceptions and results *)

(** The texts of the messages raised by the contract, with the value that is
    formatted into each. *)
Inductive message : Type :=
| msg_user_not_found (referrer_id : Z)
    (* A user with id {referrer_id} could not be found *)
| msg_contribution_type_not_valid (contribution_type : string)
    (* contribution_type {contribution_type} is not valid *)
| msg_not_enough_tokens
    (* User does not have enough tokens to pay the contribution fee. *)
| msg_evaluation_value_not_valid (value : Z)
    (* Evaluation value {value} is not valid *)
| msg_unknown_order_by (order_by : string)
    (* Unknown order_by value: {order_by} *)
| msg_negative_fractional_power
    (* negative number cannot be raised to a fractional power *)
| msg_id_is_None.
    (* evaluation_id / contribution_id cannot be None *)

Inductive exn : Type :=
| ValueError (m : message)
| KeyError (m : message)
| Exception_ (m : message)
| ZeroDivisionError
| TypeError
| AttributeError
| IndexError.

Inductive result (A : Type) : Type :=
| Ok (a : A)
| Raise (e : exn).

Arguments Ok {A} a.
Arguments Raise {A} e.

(** ** Entities *)

Module User.
Record t : Type := mk
  { id : Z;
    tokens : R;
    reputation : R;
    referrer : option Z }.
End User.

Module Contribution.
Record t : Type := mk
  { id : Z;
    user : Z;
    contribution_type : string;
    token_fund : R;
    max_score : R;
    time : Z (* seconds *) }.
End Contribution.

Module Evaluation.
Record t : Type := mk
  { id : Z;
    user_id : Z;
    contribution_id : Z;
    value : Z }.
End Evaluation.

(** ** Configuration *)

Record ContributionType : Type :=
  { fee : R;
    distribution_stake : R;
    reputation_reward_factor : R;
    reward_threshold : R;
    stake : R;
    token_reward_factor : R;
    evaluation_set : list Z }.

Record Contract : Type :=
  { USER_INITIAL_TOKENS : R;
    USER_INITIAL_REPUTATION : R;
    ALPHA : R;
    BETA : R;
    REFERRAL_REWARD_FRACTION : R;
    REFERRAL_TIMEFRAME : Z;
    REWARD_TOKENS_TO_EVALUATORS : bool;
    CONTRIBUTION_TYPE : list (string * ContributionType) }.

Definition base_type : ContributionType :=
  {| fee := 1;
     distribution_stake := 0.08;
     reputation_reward_factor := 5;
     reward_threshold := 0.5;
     stake := 0.02;
     token_reward_factor := 50;
     evaluation_set := [0%Z; 1%Z] |}.

Definition BaseContract : Contract :=
  {| USER_INITIAL_TOKENS := 50;
     USER_INITIAL_REPUTATION := 20;
     ALPHA := 0.7;
     BETA := 0.5;
     REFERRAL_REWARD_FRACTION := 0.2;
     REFERRAL_TIMEFRAME := 30;
     REWARD_TOKENS_TO_EVALUATORS := false;
     CONTRIBUTION_TYPE := [("base"%string, base_type)] |}.

(** [self.CONTRIBUTION_TYPE[contribution_type]] *)
Fixpoint lookup_type (table : list (string * ContributionType)) (k : string)
  : option ContributionType :=
  match table with
  | [] => None
  | (k', v) :: rest => if String.eqb k k' then Some v else lookup_type rest k
  end.

Definition getitem_type (self : Contract) (contribution_type : string)
  : result ContributionType :=
  match lookup_type (CONTRIBUTION_TYPE self) contribution_type with
  | Some ct => Ok ct
  | None => Raise (KeyError (msg_contribution_type_not_valid contribution_type))
  end.

(** ** The session *)

Record DBSession : Type :=
  { users : list User.t;
    contributions : list Contribution.t;
    evaluations : list Evaluation.t;
    now : Z (* the wall clock read by datetime.now(), in seconds *) }.

Definition M (A : Type) : Type := DBSession -> result A * DBSession.

Definition ret {A} (a : A) : M A := fun s => (Ok a, s).

Definition raise {A} (e : exn) : M A := fun s => (Raise e, s).

Definition bind {A B} (m : M A) (k : A -> M B) : M B :=
  fun s =>
    match m s with
    | (Ok a, s') => k a s'
    | (Raise e, s') => (Raise e, s')
    end.

Definition lift {A} (r : result A) : M A := fun s => (r, s).

Definition gets {A} (f : DBSession -> A) : M A := fun s => (Ok (f s), s).

Definition modify (f : DBSession -> DBSession) : M unit := fun s => (Ok tt, f s).

Declare Scope monad_scope.
Delimit Scope monad_scope with monad.
Notation "x <- m ;; k" := (bind m (fun x => k))
  (at level 61, m at next level, right associativity) : monad_scope.
Notation "m ;; k" := (bind m (fun _ => k))
  (at level 61, right associativity) : monad_scope.
Local Open Scope monad_scope.

(** [for x in l: body x] *)
Fixpoint for_each {A} (l : list A) (body : A -> M unit) : M unit :=
  match l with
  | [] => ret tt
  | x :: rest => body x ;; for_each rest body
  end.

(** ** Arithmetic that can raise *)

(** Comparisons of floats, as booleans. *)
Definition Rltb (x y : R) : bool := if Rlt_dec x y then true else false.

Definition Rleb (x y : R) : bool := if Rle_dec x y then true else false.

Definition Reqb (x y : R) : bool := if Req_dec_T x y then true else false.

(** [x / y] under [from __future__ import division]. *)
Definition truediv (x y : R) : result R :=
  if Reqb y 0 then Raise ZeroDivisionError else Ok (x / y).

(** [x ** y] on floats (Python 2). *)
Definition float_pow (x y : R) : result R :=
  if Reqb y 0 then Ok 1
  else if Rltb 0 x then Ok (Rpower x y)
  else if Reqb x 0 then
    if Rltb 0 y then Ok 0 else Raise ZeroDivisionError
  else if Reqb (IZR (Int_part y)) y then
    if Z.even (Int_part y) then Ok (Rpower (- x) y) else Ok (- Rpower (- x) y)
  else Raise (ValueError msg_negative_fractional_power).

(** An SQL aggregate is NULL (None) over no rows; arithmetic on None raises. *)
Definition not_None (x : option R) : result R :=
  match x with
  | Some r => Ok r
  | None => Raise TypeError
  end.

Fixpoint Rsum (l : list R) : R :=
  match l with
  | [] => 0
  | x :: rest => x + Rsum rest
  end.

Definition sql_sum (rows : list R) : option R :=
  match rows with
  | [] => None
  | _ => Some (Rsum rows)
  end.

(** ** The repository

    Modelled from the spec: the Repository and the entity classes
    ([models/]) are outside the contract's source.  Per the spec a lookup
    returns the row or None, a query returns rows in insertion order, an
    aggregate sums a column, and insert and delete take effect at once for
    later reads of the same unit of work.  Primary keys are assigned by the
    store, one past the largest key in the table. *)

Definition next_id (ids : list Z) : Z := (1 + fold_right Z.max 0 ids)%Z.

Definition with_users (us : list User.t) (s : DBSession) : DBSession :=
  {| users := us; contributions := contributions s;
     evaluations := evaluations s; now := now s |}.

Definition with_contributions (cs : list Contribution.t) (s : DBSession)
  : DBSession :=
  {| users := users s; contributions := cs;
     evaluations := evaluations s; now := now s |}.

Definition with_evaluations (es : list Evaluation.t) (s : DBSession)
  : DBSession :=
  {| users := users s; contributions := contributions s;
     evaluations := es; now := now s |}.

(** [DBSession.query(User).get(user_id)] *)
Definition query_User_get (user_id : Z) (s : DBSession) : option User.t :=
  find (fun u => Z.eqb (User.id u) user_id) (users s).

(** [DBSession.query(Contribution).get(contribution_id)] *)
Definition query_Contribution_get (contribution_id : Z) (s : DBSession)
  : option Contribution.t :=
  find (fun c => Z.eqb (Contribution.id c) contribution_id) (contributions s).

(** Reading an attribute through a reference; a reference to no row is None,
    and an attribute of None raises. *)
Definition user_attr {A} (user : Z) (f : User.t -> A) : M A :=
  fun s =>
    match query_User_get user s with
    | Some u => (Ok (f u), s)
    | None => (Raise AttributeError, s)
    end.

Definition contribution_attr {A} (contribution : Z) (f : Contribution.t -> A)
  : M A :=
  fun s =>
    match query_Contribution_get contribution s with
    | Some c => (Ok (f c), s)
    | None => (Raise AttributeError, s)
    end.

(** Writing an attribute through a reference. *)
Definition user_update (user : Z) (f : User.t -> User.t) : M unit :=
  modify (fun s =>
    with_users
      (map (fun u => if Z.eqb (User.id u) user then f u else u) (users s)) s).

Definition contribution_update (contribution : Z)
  (f : Contribution.t -> Contribution.t) : M unit :=
  modify (fun s =>
    with_contributions
      (map (fun c => if Z.eqb (Contribution.id c) contribution then f c else c)
         (contributions s)) s).

Definition set_tokens (x : R) (u : User.t) : User.t :=
  User.mk (User.id u) x (User.reputation u) (User.referrer u).

Definition set_reputation (x : R) (u : User.t) : User.t :=
  User.mk (User.id u) (User.tokens u) x (User.referrer u).

Definition set_token_fund (x : R) (c : Contribution.t) : Contribution.t :=
  Contribution.mk (Contribution.id c) (Contribution.user c)
    (Contribution.contribution_type c) x (Contribution.max_score c)
    (Contribution.time c).

Definition set_max_score (x : R) (c : Contribution.t) : Contribution.t :=
  Contribution.mk (Contribution.id c) (Contribution.user c)
    (Contribution.contribution_type c) (Contribution.token_fund c) x
    (Contribution.time c).

(** [User(contract=self, reputation=..., tokens=..., referrer=...)] *)
Definition new_User (reputation tokens : R) (referrer : option Z) : M User.t :=
  fun s =>
    let u := User.mk (next_id (map User.id (users s))) tokens reputation
               referrer in
    (Ok u, with_users (users s ++ [u]) s).

(** [Contribution(contract=self, user=..., contribution_type=...,
    token_fund=...)]; [max_score] starts at 0 and [time] at the present. *)
Definition new_Contribution (user : Z) (contribution_type : string)
  (token_fund : R) : M Contribution.t :=
  fun s =>
    let c := Contribution.mk (next_id (map Contribution.id (contributions s)))
               user contribution_type token_fund 0 (now s) in
    (Ok c, with_contributions (contributions s ++ [c]) s).

(** [Evaluation(contract=self, user=..., contribution=..., value=...)] *)
Definition new_Evaluation (user contribution : Z) (value : Z)
  : M Evaluation.t :=
  fun s =>
    let e := Evaluation.mk (next_id (map Evaluation.id (evaluations s)))
               user contribution value in
    (Ok e, with_evaluations (evaluations s ++ [e]) s).

(** [DBSession.delete(evaluation)] *)
Definition DBSession_delete (evaluation : Evaluation.t) : M unit :=
  modify (fun s =>
    with_evaluations
      (filter (fun e => negb (Z.eqb (Evaluation.id e) (Evaluation.id evaluation)))
         (evaluations s)) s).

(** [contribution.evaluations] *)
Definition contribution_evaluations (contribution : Z)
  : M (list Evaluation.t) :=
  _ <- contribution_attr contribution Contribution.id ;;
  gets (fun s =>
    filter (fun e => Z.eqb (Evaluation.contribution_id e) contribution)
      (evaluations s)).

(** [user.referrer]: the referring user, or None. *)
Definition user_referrer (user : Z) : M (option Z) :=
  r <- user_attr user User.referrer ;;
  match r with
  | None => ret None
  | Some f =>
      gets (fun s =>
        match query_User_get f s with
        | Some _ => Some f
        | None => None
        end)
  end.

(** [sum(e.user.reputation for e in es)] *)
Fixpoint sum_reputation (es : list Evaluation.t) : M R :=
  match es with
  | [] => ret 0
  | e :: rest =>
      r <- user_attr (Evaluation.user_id e) User.reputation ;;
      acc <- sum_reputation rest ;;
      ret (r + acc)
  end.

(** Modelled from the spec: [contribution.engaged_reputation()], the sum of
    the reputations of all users with an active evaluation on the
    contribution. *)
Definition engaged_reputation (contribution : Z) : M R :=
  es <- contribution_evaluations contribution ;;
  sum_reputation es.

(** Truth value of an optional integer argument: None and 0 are false. *)
Definition truthy (x : option Z) : bool :=
  match x with
  | Some z => negb (Z.eqb z 0)
  | None => false
  end.

(** [results[start:]] and [results[:limit]] *)
Definition slice_from {A} (start : Z) (l : list A) : list A :=
  if (0 <=? start)%Z then skipn (Z.to_nat start) l
  else skipn (List.length l - Z.to_nat (- start)) l.

Definition slice_to {A} (limit : Z) (l : list A) : list A :=
  if (0 <=? limit)%Z then firstn (Z.to_nat limit) l
  else firstn (List.length l - Z.to_nat (- limit)) l.

(** [list.sort(key=...)], a stable sort, run on the keys computed beforehand. *)
Fixpoint insert_by_key {A} (reverse : bool) (x : R * A) (l : list (R * A))
  : list (R * A) :=
  match l with
  | [] => [x]
  | y :: rest =>
      if (if reverse then Rltb (fst x) (fst y) else Rltb (fst y) (fst x))
      then y :: insert_by_key reverse x rest
      else x :: l
  end.

Definition sort_by_key {A} (reverse : bool) (l : list (R * A)) : list (R * A) :=
  fold_right (insert_by_key reverse) [] l.

Fixpoint insert_string (x : string) (l : list string) : list string :=
  match l with
  | [] => [x]
  | y :: rest => if String.ltb y x then y :: insert_string x rest else x :: l
  end.

Definition sort_strings (l : list string) : list string :=
  fold_right insert_string [] l.

Fixpoint insert_by_time (reverse : bool) (x : Contribution.t)
  (l : list Contribution.t) : list Contribution.t :=
  match l with
  | [] => [x]
  | y :: rest =>
      if (if reverse then Z.ltb (Contribution.time x) (Contribution.time y)
          else Z.ltb (Contribution.time y) (Contribution.time x))
      then y :: insert_by_time reverse x rest
      else x :: l
  end.

(** [query.order_by(Contribution.time)]; rows with equal times are kept in
    insertion order. *)
Definition order_by_time (reverse : bool) (l : list Contribution.t)
  : list Contribution.t :=
  fold_right (insert_by_time reverse) [] l.

(** [[f(x) for x in l]] *)
Fixpoint map_M {A B} (f : A -> M B) (l : list A) : M (list B) :=
  match l with
  | [] => ret []
  | x :: rest => y <- f x ;; ys <- map_M f rest ;; ret (y :: ys)
  end.

(** ** The contract: queries *)

(** [get_user(user_id)] *)
Definition get_user (user_id : Z) : M (option User.t) :=
  gets (query_User_get user_id).

(** [get_users()] *)
Definition get_users : M (list User.t) := gets users.

(** [get_contribution(contribution_id)] *)
Definition get_contribution (contribution_id : option Z)
  : M (option Contribution.t) :=
  match contribution_id with
  | None => raise (ValueError msg_id_is_None)
  | Some i => gets (query_Contribution_get i)
  end.

(** [get_evaluation(evaluation_id)] *)
Definition get_evaluation (evaluation_id : option Z)
  : M (option Evaluation.t) :=
  match evaluation_id with
  | None => raise (ValueError msg_id_is_None)
  | Some i =>
      gets (fun s => find (fun e => Z.eqb (Evaluation.id e) i) (evaluations s))
  end.

(** [get_evaluations(contribution_id=None, evaluator_id=None, value=None)] *)
Definition get_evaluations (contribution_id evaluator_id value : option Z)
  : M (list Evaluation.t) :=
  gets (fun s =>
    let qry := evaluations s in
    let qry :=
      match contribution_id with
      | Some i =>
          if truthy contribution_id
          then filter (fun e => Z.eqb (Evaluation.contribution_id e) i) qry
          else qry
      | None => qry
      end in
    let qry :=
      match evaluator_id with
      | Some i =>
          if truthy evaluator_id
          then filter (fun e => Z.eqb (Evaluation.user_id e) i) qry
          else qry
      | None => qry
      end in
    let qry :=
      match value with
      | Some v => filter (fun e => Z.eqb (Evaluation.value e) v) qry
      | None => qry
      end in
    qry).

(** [contributions_count()] *)
Definition contributions_count : M nat :=
  gets (fun s => List.length (contributions s)).

(** [total_reputation()] *)
Definition total_reputation : M (option R) :=
  gets (fun s => sql_sum (map User.reputation (users s))).

(** [contribution_upvotes(contribution)] *)
Definition contribution_upvotes (contribution : Z) : M R :=
  es <- contribution_evaluations contribution ;;
  upvotes <- sum_reputation
               (filter (fun e => Z.eqb (Evaluation.value e) 1) es) ;;
  total <- total_reputation ;;
  total <- lift (not_None total) ;;
  lift (truediv upvotes total).

(** [contribution_score(contribution)] *)
Definition contribution_score (contribution : Z) : M R :=
  total_reputation_ <- total_reputation ;;
  upvotes <- contribution_upvotes contribution ;;
  es <- contribution_evaluations contribution ;;
  downvotes <- sum_reputation
                 (filter (fun e => Z.eqb (Evaluation.value e) 0) es) ;;
  total_reputation_ <- lift (not_None total_reputation_) ;;
  downvotes <- lift (truediv downvotes total_reputation_) ;;
  time_added <- contribution_attr contribution Contribution.time ;;
  present <- gets now ;;
  let days := ((present - time_added) / 86400)%Z in
  recency <- lift (truediv 27 (IZR (30 + days))) ;;
  ret ((1 - downvotes) * upvotes * (0.1 + recency)).

(** [get_contributions(start=0, limit=None, contributor_id=None,
    order_by='-score')] *)
Definition get_contributions (start : Z) (limit : option Z)
  (contributor_id : option Z) (order_by : string)
  : M (list Contribution.t) :=
  results <-
    (if String.eqb order_by "score" then
       results <- gets contributions ;;
       keys <- map_M (fun x => contribution_score (Contribution.id x)) results ;;
       ret (map snd (sort_by_key false (combine keys results)))
     else if String.eqb order_by "-score" then
       results <- gets contributions ;;
       keys <- map_M (fun x => contribution_score (Contribution.id x)) results ;;
       ret (map snd (sort_by_key true (combine keys results)))
     else if String.eqb order_by "time" then
       gets (fun s => order_by_time false (contributions s))
     else if String.eqb order_by "-time" then
       gets (fun s => order_by_time true (contributions s))
     else raise (ValueError (msg_unknown_order_by order_by))) ;;
  let results := slice_from start results in
  let results := if truthy limit
                 then match limit with
                      | Some n => slice_to n results
                      | None => results
                      end
                 else results in
  ret results.

(** ** The contract: users and contributions *)

(** [create_user(tokens=None, reputation=None, referrer=None,
    referrer_id=None)] *)
Definition create_user (self : Contract) (tokens reputation : option R)
  (referrer referrer_id : option Z) : M User.t :=
  let tokens := match tokens with
                | None => USER_INITIAL_TOKENS self
                | Some t => t
                end in
  let reputation := match reputation with
                    | None => USER_INITIAL_REPUTATION self
                    | Some r => r
                    end in
  referrer <-
    match referrer, referrer_id with
    | None, Some i =>
        if truthy referrer_id then
          found <- get_user i ;;
          match found with
          | None => raise (ValueError (msg_user_not_found i))
          | Some u => ret (Some (User.id u))
          end
        else ret referrer
    | _, _ => ret referrer
    end ;;
  new_User reputation tokens referrer.

(** [create_contribution(user, contribution_type=None)]; an empty string
    is as false as None. *)
Definition create_contribution (self : Contract) (user : Z)
  (contribution_type : option string) : M Contribution.t :=
  contribution_type <-
    match contribution_type with
    | Some t =>
        if String.eqb t "" then
          match sort_strings (map fst (CONTRIBUTION_TYPE self)) with
          | [] => raise IndexError
          | first :: _ => ret first
          end
        else ret t
    | None =>
        match sort_strings (map fst (CONTRIBUTION_TYPE self)) with
        | [] => raise IndexError
        | first :: _ => ret first
        end
    end ;;
  match lookup_type (CONTRIBUTION_TYPE self) contribution_type with
  | None => raise (KeyError (msg_contribution_type_not_valid contribution_type))
  | Some _ =>
      tokens <- user_attr user User.tokens ;;
      ct <- lift (getitem_type self contribution_type) ;;
      if Rltb tokens (fee ct) then raise (Exception_ msg_not_enough_tokens)
      else
        tokens <- user_attr user User.tokens ;;
        ct <- lift (getitem_type self contribution_type) ;;
        user_update user (set_tokens (tokens - fee ct)) ;;
        ct <- lift (getitem_type self contribution_type) ;;
        new_Contribution user contribution_type (fee ct)
  end.

(** ** The contract: evaluations *)

(** [is_evaluation_value_allowed(value, contribution_type='base')] *)
Definition is_evaluation_value_allowed (self : Contract) (value : Z)
  (contribution_type : string) : result bool :=
  match getitem_type self contribution_type with
  | Ok ct => Ok (existsb (Z.eqb value) (evaluation_set ct))
  | Raise e => Raise e
  end.

(** [reward_evaluator_with_tokens(evaluation)] *)
Definition reward_evaluator_with_tokens (self : Contract)
  (evaluation : Evaluation.t) : M unit :=
  let contribution := Evaluation.contribution_id evaluation in
  let user := Evaluation.user_id evaluation in
  evaluator_rep <- user_attr user User.reputation ;;
  engaged <- engaged_reputation contribution ;;
  let engaged_rep := engaged - evaluator_rep in
  total_rep <- total_reputation ;;
  total_rep <- lift (not_None total_rep) ;;
  let unvoted_rep := total_rep - engaged_rep in
  if Rltb 0 unvoted_rep then
    token_fund <- contribution_attr contribution Contribution.token_fund ;;
    share <- lift (truediv evaluator_rep unvoted_rep) ;;
    let token_reward := token_fund * share in
    tokens <- user_attr user User.tokens ;;
    user_update user (set_tokens (tokens + token_reward)) ;;
    token_fund <- contribution_attr contribution Contribution.token_fund ;;
    contribution_update contribution (set_token_fund (token_fund - token_reward))
  else ret tt.

(** [pay_evaluation_fee(evaluation)] *)
Definition pay_evaluation_fee (self : Contract) (evaluation : Evaluation.t)
  : M unit :=
  let user := Evaluation.user_id evaluation in
  let contribution := Evaluation.contribution_id evaluation in
  reputation <- user_attr user User.reputation ;;
  engaged <- engaged_reputation contribution ;;
  let votedRep := reputation + engaged in
  votedRep <- engaged_reputation contribution ;;
  reputation <- user_attr user User.reputation ;;
  total <- total_reputation ;;
  total <- lift (not_None total) ;;
  ratio <- lift (truediv votedRep total) ;;
  power <- lift (float_pow ratio (BETA self)) ;;
  let stakeFee := reputation * (1 - power) in
  contribution_type <-
    contribution_attr contribution Contribution.contribution_type ;;
  ct <- lift (getitem_type self contribution_type) ;;
  let fee := stake ct * stakeFee in
  reputation <- user_attr user User.reputation ;;
  user_update user (set_reputation (reputation - fee)).

(** [sum_equally_voted_reputation(evaluation)]: the aggregate runs over the
    join of users and evaluations. *)
Definition sum_equally_voted_reputation (self : Contract)
  (evaluation : Evaluation.t) : M R :=
  contribution_id <-
    contribution_attr (Evaluation.contribution_id evaluation) Contribution.id ;;
  equallyVotedRep <-
    gets (fun s =>
      sql_sum
        (flat_map
           (fun e =>
              map User.reputation
                (filter (fun u => Z.eqb (User.id u) (Evaluation.user_id e))
                   (users s)))
           (filter
              (fun e =>
                 Z.eqb (Evaluation.contribution_id e) contribution_id
                 && Z.eqb (Evaluation.value e) (Evaluation.value evaluation))
              (evaluations s)))) ;;
  reputation <- user_attr (Evaluation.user_id evaluation) User.reputation ;;
  equallyVotedRep <- lift (not_None equallyVotedRep) ;;
  ret (equallyVotedRep - reputation).

(** The body of the loop of [reward_previous_evaluators], for one [e] of
    [contribution.evaluations]. *)
Definition reward_previous_evaluator (self : Contract)
  (evaluation : Evaluation.t) (stake_distribution burn_factor : R)
  (e : Evaluation.t) : M unit :=
  let contribution := Evaluation.contribution_id evaluation in
  qualifies <-
    (if Z.eqb (Evaluation.value e) (Evaluation.value evaluation) then
       e_user_id <- user_attr (Evaluation.user_id e) User.id ;;
       user_id <- user_attr (Evaluation.user_id evaluation) User.id ;;
       ret (negb (Z.eqb e_user_id user_id))
     else ret false) ;;
  if qualifies : bool then
    reputation <- user_attr (Evaluation.user_id e) User.reputation ;;
    contribution_type <-
      contribution_attr contribution Contribution.contribution_type ;;
    ct <- lift (getitem_type self contribution_type) ;;
    let new_reputation :=
      reputation
      * (1 + distribution_stake ct * stake_distribution * burn_factor) in
    reputation <- user_attr (Evaluation.user_id e) User.reputation ;;
    let reputation_delta := new_reputation - reputation in
    user_update (Evaluation.user_id e) (set_reputation new_reputation) ;;
    referrer <- user_referrer (Evaluation.user_id e) ;;
    match referrer with
    | Some referrer =>
        reputation <- user_attr referrer User.reputation ;;
        user_update referrer
          (set_reputation
             (reputation + reputation_delta * REFERRAL_REWARD_FRACTION self))
    | None => ret tt
    end
  else ret tt.

(** [reward_previous_evaluators(evaluation)] *)
Definition reward_previous_evaluators (self : Contract)
  (evaluation : Evaluation.t) : M unit :=
  let contribution := Evaluation.contribution_id evaluation in
  let user := Evaluation.user_id evaluation in
  equallyVotedRep <- sum_equally_voted_reputation self evaluation ;;
  if negb (Reqb equallyVotedRep 0) then
    reputation <- user_attr user User.reputation ;;
    let equallyVotedRep := equallyVotedRep + reputation in
    reputation <- user_attr user User.reputation ;;
    stake_distribution <- lift (truediv reputation equallyVotedRep) ;;
    total <- total_reputation ;;
    total <- lift (not_None total) ;;
    ratio <- lift (truediv equallyVotedRep total) ;;
    burn_factor <- lift (float_pow ratio (ALPHA self)) ;;
    es <- contribution_evaluations contribution ;;
    for_each es
      (reward_previous_evaluator self evaluation stake_distribution burn_factor)
  else ret tt.

(** [reward_contributor(evaluation)] *)
Definition reward_contributor (self : Contract) (evaluation : Evaluation.t)
  : M unit :=
  if Z.eqb (Evaluation.value evaluation) 0 then ret tt
  else
    let contribution := Evaluation.contribution_id evaluation in
    contributor <- contribution_attr contribution Contribution.user ;;
    let rewardBase := 0 in
    currentScore <- contribution_upvotes contribution ;;
    max_score <- contribution_attr contribution Contribution.max_score ;;
    rewardBase <-
      (if Rltb max_score currentScore then
         contribution_type <-
           contribution_attr contribution Contribution.contribution_type ;;
         ct <- lift (getitem_type self contribution_type) ;;
         rewardBase <-
           (if Rleb (reward_threshold ct) max_score
            then ret (currentScore - max_score)
            else
              contribution_type <-
                contribution_attr contribution Contribution.contribution_type ;;
              ct <- lift (getitem_type self contribution_type) ;;
              if Rltb (reward_threshold ct) currentScore
              then ret currentScore
              else ret rewardBase) ;;
         contribution_update contribution (set_max_score currentScore) ;;
         ret rewardBase
       else ret rewardBase) ;;
    if Rltb 0 rewardBase then
      contribution_type <-
        contribution_attr contribution Contribution.contribution_type ;;
      ct <- lift (getitem_type self contribution_type) ;;
      let token_reward := token_reward_factor ct * rewardBase in
      contribution_type <-
        contribution_attr contribution Contribution.contribution_type ;;
      ct <- lift (getitem_type self contribution_type) ;;
      let reputationReward := reputation_reward_factor ct * rewardBase in
      tokens <- user_attr contributor User.tokens ;;
      user_update contributor (set_tokens (tokens + token_reward)) ;;
      reputation <- user_attr contributor User.reputation ;;
      user_update contributor (set_reputation (reputation + reputationReward)) ;;
      referrer <- user_referrer contributor ;;
      match referrer with
      | Some referrer =>
          tokens <- user_attr referrer User.tokens ;;
          user_update referrer
            (set_tokens (tokens + token_reward * REFERRAL_REWARD_FRACTION self)) ;;
          reputation <- user_attr referrer User.reputation ;;
          user_update referrer
            (set_reputation
               (reputation + reputationReward * REFERRAL_REWARD_FRACTION self))
      | None => ret tt
      end
    else ret tt.

(** [create_evaluation(user, contribution, value)] *)
Definition create_evaluation (self : Contract) (user contribution : Z)
  (value : Z) : M Evaluation.t :=
  contribution_type <-
    contribution_attr contribution Contribution.contribution_type ;;
  allowed <- lift (is_evaluation_value_allowed self value contribution_type) ;;
  if negb allowed
  then raise (ValueError (msg_evaluation_value_not_valid value))
  else
    let previously_voted := false in
    found <- get_evaluations (Some contribution) (Some user) None ;;
    let previously_voted := match found with
                            | [] => previously_voted
                            | _ :: _ => true
                            end in
    previous <- get_evaluations (Some contribution) (Some user) None ;;
    for_each previous DBSession_delete ;;
    evaluation <- new_Evaluation user contribution value ;;
    (if REWARD_TOKENS_TO_EVALUATORS self then
       if negb previously_voted
       then reward_evaluator_with_tokens self evaluation
       else ret tt
     else ret tt) ;;
    pay_evaluation_fee self evaluation ;;
    reward_previous_evaluators self evaluation ;;
    reward_contributor self evaluation ;;
    ret evaluation.

(** ** Observations and histories *)

Definition reputation_of (s : DBSession) (user : Z) : option R :=
  option_map User.reputation (query_User_get user s).

Definition tokens_of (s : DBSession) (user : Z) : option R :=
  option_map User.tokens (query_User_get user s).

Definition max_score_of (s : DBSession) (contribution : Z) : option R :=
  option_map Contribution.max_score (query_Contribution_get contribution s).

(** The evaluations of one user on one contribution. *)
Definition evaluations_by (user contribution : Z) (s : DBSession)
  : list Evaluation.t :=
  filter
    (fun e =>
       Z.eqb (Evaluation.user_id e) user
       && Z.eqb (Evaluation.contribution_id e) contribution)
    (evaluations s).

Definition at_most_one_evaluation (s : DBSession) : Prop :=
  forall user contribution,
    (List.length (evaluations_by user contribution s) <= 1)%nat.

(** A call of one of the three state-changing methods of the contract. *)
Inductive call : Type :=
| Create_user (tokens reputation : option R) (referrer referrer_id : option Z)
| Create_contribution (user : Z) (contribution_type : option string)
| Create_evaluation (user contribution : Z) (value : Z).

Definition run_call (self : Contract) (c : call) (s : DBSession) : DBSession :=
  match c with
  | Create_user tokens reputation referrer referrer_id =>
      snd (create_user self tokens reputation referrer referrer_id s)
  | Create_contribution user contribution_type =>
      snd (create_contribution self user contribution_type s)
  | Create_evaluation user contribution value =>
      snd (create_evaluation self user contribution value s)
  end.

(** A history: the calls are made one after the other, each on the session
    the previous one left, whether it returned or raised. *)
Fixpoint run_calls (self : Contract) (cs : list call) (s : DBSession)
  : DBSession :=
  match cs with
  | [] => s
  | c :: rest => run_calls self rest (run_call self c s)
  end.

(** A computation that only reads. *)
Definition read_only {A} (m : M A) : Prop := forall s, snd (m s) = s.

(** A relation between the session before and after that a computation
    maintains, whether it returns or raises. *)
Definition maintains {A} (rel : DBSession -> DBSession -> Prop) (m : M A)
  : Prop :=
  forall s, rel s (snd (m s)).

(** A computation that never raises an exception outside [allowed]. *)
Definition raises_only {A} (allowed : exn -> Prop) (m : M A) : Prop :=
  forall s e, fst (m s) = Raise e -> allowed e.

(** ** Auxiliary notions *)

(** The exceptions of the arithmetic and of the lookups: what the steps of
    an evaluation after its validation can raise. *)
Definition step_error (e : exn) : Prop :=
  match e with
  | ZeroDivisionError | TypeError | AttributeError => True
  | ValueError msg_negative_fractional_power => True
  | KeyError (msg_contribution_type_not_valid _) => True
  | _ => False
  end.

(** The steps of [create_evaluation] that follow the validation of the
    value. *)
Definition after_validation (self : Contract) (user contribution : Z)
  (value : Z) : M Evaluation.t :=
  found <- get_evaluations (Some contribution) (Some user) None ;;
  let previously_voted := match found with
                          | [] => false
                          | _ :: _ => true
                          end in
  previous <- get_evaluations (Some contribution) (Some user) None ;;
  for_each previous DBSession_delete ;;
  evaluation <- new_Evaluation user contribution value ;;
  (if REWARD_TOKENS_TO_EVALUATORS self then
     if negb previously_voted
     then reward_evaluator_with_tokens self evaluation
     else ret tt
   else ret tt) ;;
  pay_evaluation_fee self evaluation ;;
  reward_previous_evaluators self evaluation ;;
  reward_contributor self evaluation ;;
  ret evaluation.

(** The steps of [create_evaluation] that follow the insertion of the new
    evaluation. *)
Definition after_insertion (self : Contract) (previously_voted : bool)
  (evaluation : Evaluation.t) : M Evaluation.t :=
  (if REWARD_TOKENS_TO_EVALUATORS self then
     if negb previously_voted
     then reward_evaluator_with_tokens self evaluation
     else ret tt
   else ret tt) ;;
  pay_evaluation_fee self evaluation ;;
  reward_previous_evaluators self evaluation ;;
  reward_contributor self evaluation ;;
  ret evaluation.

(** The evaluations [create_evaluation] finds for the pair, the ones it
    keeps, and the one it inserts. *)
Definition previous_evaluations (user contribution : Z) (s : DBSession)
  : list Evaluation.t :=
  match fst (get_evaluations (Some contribution) (Some user) None s) with
  | Ok l => l
  | Raise _ => []
  end.

Definition kept_evaluations (user contribution : Z) (s : DBSession)
  : list Evaluation.t :=
  filter
    (fun e =>
       negb (existsb (fun d => Z.eqb (Evaluation.id e) (Evaluation.id d))
               (previous_evaluations user contribution s)))
    (evaluations s).

Definition inserted_evaluation (user contribution value : Z) (s : DBSession)
  : Evaluation.t :=
  Evaluation.mk
    (next_id (map Evaluation.id (kept_evaluations user contribution s)))
    user contribution value.

Definition same_evaluations (s s' : DBSession) : Prop :=
  evaluations s' = evaluations s.

Definition same_contributions (s s' : DBSession) : Prop :=
  contributions s' = contributions s.

(** Every stored contribution is still stored, with a [max_score] that is
    not lower. *)
Definition max_score_grows (s s' : DBSession) : Prop :=
  forall contribution c,
    query_Contribution_get contribution s = Some c ->
    exists c',
      query_Contribution_get contribution s' = Some c'
      /\ Contribution.max_score c <= Contribution.max_score c'.

(** What one turn of the loop of [reward_previous_evaluators] does to the
    store, with the lookups written out. *)
Definition reward_previous_evaluator_result (self : Contract)
  (evaluation : Evaluation.t) (stake_distribution burn_factor : R)
  (e : Evaluation.t) (s : DBSession) : result unit * DBSession :=
  if Z.eqb (Evaluation.value e) (Evaluation.value evaluation) then
    match query_User_get (Evaluation.user_id e) s,
          query_User_get (Evaluation.user_id evaluation) s with
    | Some row, Some _ =>
        if Z.eqb (Evaluation.user_id e) (Evaluation.user_id evaluation)
        then (Ok tt, s)
        else
          match query_Contribution_get
                  (Evaluation.contribution_id evaluation) s with
          | None => (Raise AttributeError, s)
          | Some c =>
              match lookup_type (CONTRIBUTION_TYPE self)
                      (Contribution.contribution_type c) with
              | None =>
                  (Raise (KeyError (msg_contribution_type_not_valid
                                      (Contribution.contribution_type c))), s)
              | Some ct =>
                  let new_reputation :=
                    User.reputation row
                    * (1 + distribution_stake ct * stake_distribution
                           * burn_factor) in
                  let reputation_delta :=
                    new_reputation - User.reputation row in
                  let s1 :=
                    snd (user_update (Evaluation.user_id e)
                           (set_reputation new_reputation) s) in
                  match User.referrer row with
                  | Some referrer =>
                      match query_User_get referrer s1 with
                      | Some referrer_row =>
                          (Ok tt,
                           snd (user_update referrer
                                  (set_reputation
                                     (User.reputation referrer_row
                                      + reputation_delta
                                        * REFERRAL_REWARD_FRACTION self))
                                  s1))
                      | None => (Ok tt, s1)
                      end
                  | None => (Ok tt, s1)
                  end
              end
          end
    | _, _ => (Raise AttributeError, s)
    end
  else (Ok tt, s).

Definition same_referrers (s s' : DBSession) : Prop :=
  forall u,
    option_map User.referrer (query_User_get u s')
    = option_map User.referrer (query_User_get u s).

(** The tokens, or the reputation, of the user [w] are what they were. *)
Definition same_tokens_of (w : Z) (s s' : DBSession) : Prop :=
  tokens_of s' w = tokens_of s w.

Definition same_reputation_of (w : Z) (s s' : DBSession) : Prop :=
  reputation_of s' w = reputation_of s w.

(** [e], met in the loop of step 6 for [evaluation], leaves [w] alone: if it
    is rewarded, its user is not [w] and is not referred by [w]. *)
Definition rewards_pass_by (w : Z) (evaluation : Evaluation.t)
  (s : DBSession) (e : Evaluation.t) : Prop :=
  Evaluation.value e = Evaluation.value evaluation ->
  Evaluation.user_id e <> Evaluation.user_id evaluation ->
  Evaluation.user_id e <> w
  /\ forall row,
       query_User_get (Evaluation.user_id e) s = Some row ->
       User.referrer row <> Some w.

(** ** Step 6 as the spec words it

    The spec asks that every reward of step 6 be computed from the
    reputations as they are when the step starts.  [snapshot_reward] follows
    those words: it reads every reputation and every referrer in the store
    [s] the step starts from, and adds up what the user [w] is due, as a
    rewarded evaluator ([delta]) and as the referrer of rewarded evaluators
    ([delta * fraction]).  It is compared with the loop of the source
    below. *)

(** The evaluations step 6 rewards: those of the same value by another
    user. *)
Definition equally_voted (evaluation e : Evaluation.t) : bool :=
  Z.eqb (Evaluation.value e) (Evaluation.value evaluation)
  && negb (Z.eqb (Evaluation.user_id e) (Evaluation.user_id evaluation)).

(** The referrer of [user], when [user] has one that is stored. *)
Definition referrer_in (s : DBSession) (user : Z) : option Z :=
  match query_User_get user s with
  | Some row =>
      match User.referrer row with
      | Some f =>
          match query_User_get f s with
          | Some _ => Some f
          | None => None
          end
      | None => None
      end
  | None => None
  end.

Definition reputation_or_0 (s : DBSession) (user : Z) : R :=
  match reputation_of s user with
  | Some r => r
  | None => 0
  end.

Definition snapshot_step (fraction k : R) (s : DBSession)
  (evaluation e : Evaluation.t) (w : Z) : R :=
  if equally_voted evaluation e then
    let delta := reputation_or_0 s (Evaluation.user_id e) * k in
    (if Z.eqb (Evaluation.user_id e) w then delta else 0)
    + match referrer_in s (Evaluation.user_id e) with
      | Some f => if Z.eqb f w then delta * fraction else 0
      | None => 0
      end
  else 0.

Fixpoint snapshot_reward (fraction k : R) (s : DBSession)
  (evaluation : Evaluation.t) (es : list Evaluation.t) (w : Z) : R :=
  match es with
  | [] => 0
  | e :: rest =>
      snapshot_step fraction k s evaluation e w
      + snapshot_reward fraction k s evaluation rest w
  end.

(** No rewarded evaluator is the referrer of a rewarded evaluator. *)
Definition no_referrer_is_rewarded (s : DBSession)
  (evaluation : Evaluation.t) (es : list Evaluation.t) : Prop :=
  forall e e',
    In e es -> In e' es ->
    equally_voted evaluation e = true ->
    equally_voted evaluation e' = true ->
    referrer_in s (Evaluation.user_id e') <> Some (Evaluation.user_id e).

(** [contribution.evaluations] for the contribution of [evaluation], in the
    store [s]. *)
Definition evaluations_beside (evaluation : Evaluation.t) (s : DBSession)
  : list Evaluation.t :=
  filter
    (fun e =>
       Z.eqb (Evaluation.contribution_id e)
         (Evaluation.contribution_id evaluation))
    (evaluations s).

(** No stored user has a negative reputation. *)
Definition nonnegative_reputations (s : DBSession) : Prop :=
  Forall (fun u => 0 <= User.reputation u) (users s).

(** The reputation of the first row of [us] with the id [i], 0 without one. *)
Definition reputation_in (us : list User.t) (i : Z) : R :=
  match find (fun u => Z.eqb (User.id u) i) us with
  | Some u => User.reputation u
  | None => 0
  end.

(** Every stored contribution is still stored, and is what it was but for
    its [max_score]. *)
Definition only_max_score_changes (s s' : DBSession) : Prop :=
  forall contribution c,
    query_Contribution_get contribution s = Some c ->
    exists c',
      query_Contribution_get contribution s' = Some c'
      /\ Contribution.token_fund c' = Contribution.token_fund c
      /\ Contribution.user c' = Contribution.user c
      /\ Contribution.contribution_type c' = Contribution.contribution_type c
      /\ Contribution.time c' = Contribution.time c.

(** The last part of [reward_contributor]: what is paid for a given
    [rewardBase]. *)
Definition pay_contributor (self : Contract) (contribution contributor : Z)
  (rewardBase : R) : M unit :=
  if Rltb 0 rewardBase then
    contribution_type <-
      contribution_attr contribution Contribution.contribution_type ;;
    ct <- lift (getitem_type self contribution_type) ;;
    let token_reward := token_reward_factor ct * rewardBase in
    contribution_type <-
      contribution_attr contribution Contribution.contribution_type ;;
    ct <- lift (getitem_type self contribution_type) ;;
    let reputationReward := reputation_reward_factor ct * rewardBase in
    tokens <- user_attr contributor User.tokens ;;
    user_update contributor (set_tokens (tokens + token_reward)) ;;
    reputation <- user_attr contributor User.reputation ;;
    user_update contributor (set_reputation (reputation + reputationReward)) ;;
    referrer <- user_referrer contributor ;;
    match referrer with
    | Some referrer =>
        tokens <- user_attr referrer User.tokens ;;
        user_update referrer
          (set_tokens (tokens + token_reward * REFERRAL_REWARD_FRACTION self)) ;;
        reputation <- user_attr referrer User.reputation ;;
        user_update referrer
          (set_reputation
             (reputation + reputationReward * REFERRAL_REWARD_FRACTION self))
    | None => ret tt
    end
  else ret tt.

(** Reputations that were not negative are not negative afterwards. *)
Definition stays_nonnegative (s s' : DBSession) : Prop :=
  nonnegative_reputations s -> nonnegative_reputations s'.

(** The parameters of a contract under which reputation cannot turn
    negative: the fractions and factors that multiply a reputation are not
    negative, and [stake] is at most 1. *)
Definition nonnegative_parameters (self : Contract) : Prop :=
  0 <= USER_INITIAL_REPUTATION self
  /\ 0 <= REFERRAL_REWARD_FRACTION self
  /\ forall t ct,
       lookup_type (CONTRIBUTION_TYPE self) t = Some ct ->
       0 <= stake ct <= 1
       /\ 0 <= distribution_stake ct
       /\ 0 <= reputation_reward_factor ct.

(** A call that does not create a user with a negative reputation. *)
Definition nonnegative_call (c : call) : Prop :=
  match c with
  | Create_user _ (Some reputation) _ _ => 0 <= reputation
  | _ => True
  end.

(** ** Stores used as examples *)

(** Two users with the initial balances; the first has paid the fee of a
    contribution nobody has evaluated yet. *)
Definition fresh_contribution : DBSession :=
  {| users := [User.mk 1 49 20 None; User.mk 2 50 20 None];
     contributions := [Contribution.mk 1 1 "base" 1 0 0];
     evaluations := [];
     now := 0 |}.

(** Three users and two contributions of the first; the second
    contribution has one upvote, the first has none. *)
Definition two_contributions : DBSession :=
  {| users := [User.mk 1 48 20 None; User.mk 2 50 20 None;
               User.mk 3 50 20 None];
     contributions := [Contribution.mk 1 1 "base" 1 0 0;
                       Contribution.mk 2 1 "base" 1 0 0];
     evaluations := [Evaluation.mk 1 2 2 1];
     now := 0 |}.

(** Four users with the initial balances; the first has paid the fee of a
    contribution nobody has evaluated yet. *)
Definition four_users : DBSession :=
  {| users := [User.mk 1 49 20 None; User.mk 2 50 20 None;
               User.mk 3 50 20 None; User.mk 4 50 20 None];
     contributions := [Contribution.mk 1 1 "base" 1 0 0];
     evaluations := [];
     now := 0 |}.

(** [four_users] after the second user has upvoted the contribution. *)
Definition four_users_one_upvote : DBSession :=
  {| users := [User.mk 1 49 20 None; User.mk 2 50 19.8 None;
               User.mk 3 50 20 None; User.mk 4 50 20 None];
     contributions := [Contribution.mk 1 1 "base" 1 (19.8 / 79.8) 0];
     evaluations := [Evaluation.mk 1 2 1 1];
     now := 0 |}.

(** The store before anything has been created. *)
Definition empty_session : DBSession :=
  {| users := []; contributions := []; evaluations := []; now := 0 |}.

(** Four users sign up, the first contributes, the second upvotes. *)
Definition four_users_history : list call :=
  [Create_user None None None None; Create_user None None None None;
   Create_user None None None None; Create_user None None None None;
   Create_contribution 1 None; Create_evaluation 2 1 1].

(** A user signs up, contributes and downvotes the contribution; then a
    second user signs up. *)
Definition creator_downvotes_history : list call :=
  [Create_user None None None None; Create_contribution 1 None;
   Create_evaluation 1 1 0; Create_user None None None None].

Definition creator_downvoted : DBSession :=
  {| users := [User.mk 1 49 20 None; User.mk 2 50 20 None];
     contributions := [Contribution.mk 1 1 "base" 1 0 0];
     evaluations := [Evaluation.mk 1 1 1 0];
     now := 0 |}.

(** [creator_downvoted] after the second user has downvoted as well. *)
Definition creator_rewarded : DBSession :=
  {| users := [User.mk 1 49 20.8 None; User.mk 2 50 20 None];
     contributions := [Contribution.mk 1 1 "base" 1 0 0];
     evaluations := [Evaluation.mk 1 1 1 0; Evaluation.mk 2 2 1 0];
     now := 0 |}.

(** A user without reputation signs up and contributes; a second user,
    referred by the first, signs up and upvotes; the first user upvotes too;
    then a third user signs up. *)
Definition referral_history : list call :=
  [Create_user None (Some 0) None None; Create_contribution 1 None;
   Create_user None None None (Some 1%Z); Create_evaluation 2 1 1;
   Create_evaluation 1 1 1; Create_user None (Some 25.384) None None].

Definition referrer_upvoted : DBSession :=
  {| users := [User.mk 1 99 5.064 None; User.mk 2 50 20.32 (Some 1%Z);
               User.mk 3 50 25.384 None];
     contributions := [Contribution.mk 1 1 "base" 1 1 0];
     evaluations := [Evaluation.mk 1 2 1 1; Evaluation.mk 2 1 1 1];
     now := 0 |}.

(** [referrer_upvoted] when the third user has upvoted and paid the fee,
    which is zero: the store step 6 starts from. *)
Definition third_upvote_inserted : DBSession :=
  {| users := [User.mk 1 99 5.064 None; User.mk 2 50 20.32 (Some 1%Z);
               User.mk 3 50 25.384 None];
     contributions := [Contribution.mk 1 1 "base" 1 1 0];
     evaluations := [Evaluation.mk 1 2 1 1; Evaluation.mk 2 1 1 1;
                     Evaluation.mk 3 3 1 1];
     now := 0 |}.

(** The same store with the evaluation of the referrer listed before the
    evaluation of the user it referred. *)
Definition third_upvote_inserted_referrer_first : DBSession :=
  {| users := [User.mk 1 99 5.064 None; User.mk 2 50 20.32 (Some 1%Z);
               User.mk 3 50 25.384 None];
     contributions := [Contribution.mk 1 1 "base" 1 1 0];
     evaluations := [Evaluation.mk 2 1 1 1; Evaluation.mk 1 2 1 1;
                     Evaluation.mk 3 3 1 1];
     now := 0 |}.

(** What step 6 leaves of [third_upvote_inserted]. *)
Definition referrer_compounded : DBSession :=
  {| users := [User.mk 1 99 5.4356224 None; User.mk 2 50 21.1328 (Some 1%Z);
               User.mk 3 50 25.384 None];
     contributions := [Contribution.mk 1 1 "base" 1 1 0];
     evaluations := [Evaluation.mk 1 2 1 1; Evaluation.mk 2 1 1 1;
                     Evaluation.mk 3 3 1 1];
     now := 0 |}.

(** What step 6 leaves of [third_upvote_inserted_referrer_first]. *)
Definition referrer_rewarded_first : DBSession :=
  {| users := [User.mk 1 99 5.42912 None; User.mk 2 50 21.1328 (Some 1%Z);
               User.mk 3 50 25.384 None];
     contributions := [Contribution.mk 1 1 "base" 1 1 0];
     evaluations := [Evaluation.mk 2 1 1 1; Evaluation.mk 1 2 1 1;
                     Evaluation.mk 3 3 1 1];
     now := 0 |}.

(** [creator_downvoted] when the second user has downvoted and paid the
    fee, which is zero: the store step 6 starts from. *)
Definition second_downvote_inserted : DBSession :=
  {| users := [User.mk 1 49 20 None; User.mk 2 50 20 None];
     contributions := [Contribution.mk 1 1 "base" 1 0 0];
     evaluations := [Evaluation.mk 1 1 1 0; Evaluation.mk 2 2 1 0];
     now := 0 |}.

(** [four_users] when the second user has upvoted, before the fee is paid:
    the store step 5 starts from. *)
Definition first_upvote_inserted : DBSession :=
  {| users := [User.mk 1 49 20 None; User.mk 2 50 20 None;
               User.mk 3 50 20 None; User.mk 4 50 20 None];
     contributions := [Contribution.mk 1 1 "base" 1 0 0];
     evaluations := [Evaluation.mk 1 2 1 1];
     now := 0 |}.

(** [first_upvote_inserted] when the fee is paid. *)
Definition first_upvote_paid : DBSession :=
  {| users := [User.mk 1 49 20 None; User.mk 2 50 19.8 None;
               User.mk 3 50 20 None; User.mk 4 50 20 None];
     contributions := [Contribution.mk 1 1 "base" 1 0 0];
     evaluations := [Evaluation.mk 1 2 1 1];
     now := 0 |}.

(** [first_upvote_inserted] after the token reward of step 4. *)
Definition first_upvote_token_rewarded : DBSession :=
  {| users := [User.mk 1 49 20 None; User.mk 2 50.25 20 None;
               User.mk 3 50 20 None; User.mk 4 50 20 None];
     contributions := [Contribution.mk 1 1 "base" 0.75 0 0];
     evaluations := [Evaluation.mk 1 2 1 1];
     now := 0 |}.

(** A user without reputation has contributed, and a user it referred has
    upvoted and paid the fee, which is zero: the store step 7 starts from. *)
Definition referred_upvote_paid : DBSession :=
  {| users := [User.mk 1 49 0 None; User.mk 2 50 20 (Some 1%Z)];
     contributions := [Contribution.mk 1 1 "base" 1 0 0];
     evaluations := [Evaluation.mk 1 2 1 1];
     now := 0 |}.

(** [referred_upvote_paid] after step 7. *)
Definition contributor_rewarded : DBSession :=
  {| users := [User.mk 1 99 5 None; User.mk 2 50 20 (Some 1%Z)];
     contributions := [Contribution.mk 1 1 "base" 1 1 0];
     evaluations := [Evaluation.mk 1 2 1 1];
     now := 0 |}.

Unset Implicit Arguments.

(** * Reasoning about computations *)

(** ** Comparisons *)

Lemma Rltb_true x y : x < y -> Rltb x y = true.
Proof. unfold Rltb; destruct (Rlt_dec x y); intros; [reflexivity | lra]. Qed.

Lemma Rltb_false x y : y <= x -> Rltb x y = false.
Proof. unfold Rltb; destruct (Rlt_dec x y); intros; [lra | reflexivity]. Qed.

Lemma Rleb_true x y : x <= y -> Rleb x y = true.
Proof. unfold Rleb; destruct (Rle_dec x y); intros; [reflexivity | lra]. Qed.

Lemma Rleb_false x y : y < x -> Rleb x y = false.
Proof. unfold Rleb; destruct (Rle_dec x y); intros; [lra | reflexivity]. Qed.

Lemma Reqb_true x y : x = y -> Reqb x y = true.
Proof. unfold Reqb; destruct (Req_dec_T x y); intros; [reflexivity | lra]. Qed.

Lemma Reqb_false x y : x <> y -> Reqb x y = false.
Proof. unfold Reqb; destruct (Req_dec_T x y); intros; [tauto | reflexivity]. Qed.

Lemma Rltb_spec x y : Rltb x y = true <-> x < y.
Proof. unfold Rltb; destruct (Rlt_dec x y); split; intros; try easy; lra. Qed.

Lemma Rleb_spec x y : Rleb x y = true <-> x <= y.
Proof. unfold Rleb; destruct (Rle_dec x y); split; intros; try easy; lra. Qed.

Lemma Reqb_spec x y : Reqb x y = true <-> x = y.
Proof. unfold Reqb; destruct (Req_dec_T x y); split; intros; try easy. Qed.

Lemma Rpower_one y : Rpower 1 y = 1.
Proof. unfold Rpower. rewrite ln_1, Rmult_0_r. apply exp_0. Qed.

Lemma Rpower_eq_one a b : a = 1 -> Rpower a b = 1.
Proof. intros ->. apply Rpower_one. Qed.

Lemma Rpower_quarter a b : a = 1 / 4 -> b = 1 / 2 -> Rpower a b = 1 / 2.
Proof.
  intros -> ->. replace (1 / 2) with (/ 2) by lra.
  rewrite Rpower_sqrt by lra.
  replace (1 / 4) with ((/ 2) * (/ 2)) by lra.
  apply sqrt_square. lra.
Qed.

Lemma Rpower_bounds a b : 0 < a < 1 -> 0 < b -> 0 < Rpower a b < 1.
Proof.
  intros [Ha0 Ha1] Hb. unfold Rpower. split; [apply exp_pos |].
  rewrite <- exp_0. apply exp_increasing.
  assert (Hln : ln a < 0) by (rewrite <- ln_1; now apply ln_increasing).
  nra.
Qed.

(** ** Running a computation on a concrete store

    [py_exec] runs the left-hand side of [m s = r] statement by statement:
    a comparison of reals is settled by [lra], and a power is replaced by
    its value where the base is 1 or the power is the square root of 1/4. *)

Declare Reduction py_red :=
  cbv beta iota zeta delta
    [ bind ret raise lift gets modify for_each map_M
      truediv float_pow not_None sql_sum Rsum
      next_id with_users with_contributions with_evaluations
      query_User_get query_Contribution_get user_attr contribution_attr
      user_update contribution_update set_tokens set_reputation set_token_fund
      set_max_score new_User new_Contribution new_Evaluation DBSession_delete
      contribution_evaluations user_referrer sum_reputation engaged_reputation
      truthy slice_from slice_to insert_by_key sort_by_key
      insert_by_time order_by_time insert_string sort_strings
      get_user get_users get_contribution get_evaluation get_evaluations
      contributions_count total_reputation contribution_upvotes
      contribution_score get_contributions create_user create_contribution
      is_evaluation_value_allowed reward_evaluator_with_tokens
      pay_evaluation_fee sum_equally_voted_reputation
      reward_previous_evaluator reward_previous_evaluators reward_contributor
      create_evaluation lookup_type getitem_type
      reputation_of tokens_of max_score_of evaluations_by option_map
      run_call run_calls
      BaseContract base_type
      USER_INITIAL_TOKENS USER_INITIAL_REPUTATION ALPHA BETA
      REFERRAL_REWARD_FRACTION REFERRAL_TIMEFRAME REWARD_TOKENS_TO_EVALUATORS
      CONTRIBUTION_TYPE fee distribution_stake reputation_reward_factor
      reward_threshold stake token_reward_factor evaluation_set
      users contributions evaluations now
      User.id User.tokens User.reputation User.referrer
      Contribution.id Contribution.user Contribution.contribution_type
      Contribution.token_fund Contribution.max_score Contribution.time
      Evaluation.id Evaluation.user_id Evaluation.contribution_id
      Evaluation.value
      find filter map app fold_right flat_map existsb combine skipn firstn
      List.length negb andb orb fst snd
      Z.eqb Pos.eqb Z.max Z.compare Pos.compare Pos.compare_cont Z.add Pos.add
      Pos.succ Pos.add_carry Z.leb Z.ltb Z.sub Z.opp Z.pos_sub Z.succ_double
      Z.pred_double Z.double Pos.pred_double Pos.pred Z.to_nat Pos.to_nat
      Pos.iter_op Nat.add Nat.sub Z.mul Pos.mul
      Z.div Z.div_eucl Z.pos_div_eucl Z.gtb Z.geb Z.even
      String.eqb String.ltb String.compare Ascii.eqb Ascii.compare Bool.eqb
      Ascii.N_of_ascii Ascii.N_of_digits N.compare N.add N.mul N.double
      Pos.iter ].

Ltac py_eval :=
  lazymatch goal with
  | |- ?g => let g' := eval py_red in g in change g'
  end.

Ltac rpower_norm :=
  repeat match goal with
  | |- context [Rpower ?a ?b] =>
      first [ rewrite (@Rpower_eq_one a b) by lra
            | rewrite (@Rpower_quarter a b) by lra ]
  end.

(** Bounds for the powers that have no closed form. *)
Ltac rpower_bounds :=
  repeat match goal with
  | |- context [Rpower ?a ?b] =>
      lazymatch goal with
      | _ : 0 < Rpower a b < 1 |- _ => fail
      | _ => pose proof (@Rpower_bounds a b ltac:(lra) ltac:(lra))
      end
  end.

Ltac decide_R :=
  match goal with
  | |- context [Reqb ?a ?b] =>
      first [ rewrite (@Reqb_true a b) by (rpower_norm; rpower_bounds; lra)
            | rewrite (@Reqb_false a b) by (rpower_norm; rpower_bounds; lra) ]
  | |- context [Rltb ?a ?b] =>
      first [ rewrite (@Rltb_true a b) by (rpower_norm; rpower_bounds; lra)
            | rewrite (@Rltb_false a b) by (rpower_norm; rpower_bounds; lra) ]
  | |- context [Rleb ?a ?b] =>
      first [ rewrite (@Rleb_true a b) by (rpower_norm; rpower_bounds; lra)
            | rewrite (@Rleb_false a b) by (rpower_norm; rpower_bounds; lra) ]
  end.

Lemma bind_eval A B (m : M A) (k : A -> M B) s r1 s1 r :
  m s = (r1, s1) ->
  match r1 with Ok a => k a s1 | Raise e => (Raise e, s1) end = r ->
  bind m k s = r.
Proof. unfold bind. intros -> H. destruct r1; exact H. Qed.

Ltac head_of t :=
  lazymatch t with
  | ?f _ => head_of f
  | _ => t
  end.

Ltac ev_leaf :=
  py_eval; repeat decide_R; cbv beta iota; rpower_norm; reflexivity.

Ltac ev :=
  cbv beta iota zeta;
  lazymatch goal with
  | |- (_, _) = _ => rpower_norm; reflexivity
  | |- bind ?m ?k ?s = _ => eapply bind_eval; [ ev | ev ]
  | |- (if ?b then _ else _) ?s = _ =>
      let b' := eval py_red in b in
      change b with b'; repeat decide_R; ev
  | |- ?lhs = _ =>
      let h := head_of lhs in
      lazymatch h with
      | create_evaluation => unfold create_evaluation; ev
      | pay_evaluation_fee => unfold pay_evaluation_fee; ev
      | reward_previous_evaluators => unfold reward_previous_evaluators; ev
      | reward_previous_evaluator => unfold reward_previous_evaluator; ev
      | reward_contributor => unfold reward_contributor; ev
      | reward_evaluator_with_tokens =>
          unfold reward_evaluator_with_tokens; ev
      | sum_equally_voted_reputation =>
          unfold sum_equally_voted_reputation; ev
      | contribution_upvotes => unfold contribution_upvotes; ev
      | contribution_score => unfold contribution_score; ev
      | get_contributions => unfold get_contributions; ev
      | create_contribution => unfold create_contribution; ev
      | @for_each => unfold for_each; ev
      | @map_M => unfold map_M; ev
      | _ => ev_leaf
      end
  end.

Ltac py_exec := etransitivity; [ ev | repeat f_equal; try lra ].

(** * Queries and user creation *)

(** C9. [get_evaluations] tests its [contribution_id] and [evaluator_id]
    arguments for truth: passing 0 for either is the same as leaving it out.
    The [value] argument is compared with None instead, so [value=0] does
    filter: it keeps exactly the evaluations of value 0, which on a store
    holding an upvote is not what the unfiltered query returns. *)
Theorem get_evaluations_filters_by_truthiness :
  forall (contribution_id evaluator_id value : option Z) (s : DBSession),
    get_evaluations (Some 0%Z) evaluator_id value s
    = get_evaluations None evaluator_id value s
    /\ get_evaluations contribution_id (Some 0%Z) value s
       = get_evaluations contribution_id None value s
    /\ (exists unfiltered,
          get_evaluations contribution_id evaluator_id None s
          = (Ok unfiltered, s)
          /\ get_evaluations contribution_id evaluator_id (Some 0%Z) s
             = (Ok (filter (fun e => Z.eqb (Evaluation.value e) 0) unfiltered),
                s))
    /\ (let upvoted :=
          {| users := []; contributions := [];
             evaluations := [Evaluation.mk 1 1 1 1]; now := 0 |} in
        get_evaluations None None (Some 0%Z) upvoted = (Ok [], upvoted)
        /\ get_evaluations None None None upvoted
           = (Ok [Evaluation.mk 1 1 1 1], upvoted)).
Proof.
  intros contribution_id evaluator_id value s.
  repeat split.
  eexists. split; reflexivity.
Qed.

Lemma find_user_id (us : list User.t) (i : Z) (u : User.t) :
  find (fun u => Z.eqb (User.id u) i) us = Some u -> User.id u = i.
Proof.
  intro H. apply find_some in H. destruct H as [_ H].
  now apply Z.eqb_eq in H.
Qed.

(** C10. [create_user] consults [referrer_id] only when no [referrer] is
    passed.  With a referrer the call returns a user referred by it whatever
    [referrer_id] is; a [referrer_id] of 0 is dropped like None; and the call
    raises exactly when [referrer] is None and [referrer_id] is a non-zero id
    that no user has, the exception then being the ValueError for that id and
    the store being left as it was. *)
Theorem create_user_consults_referrer_id_last :
  forall (self : Contract) (tokens reputation : option R)
         (referrer referrer_id : option Z) (r : Z) (s : DBSession),
    (exists u,
       fst (create_user self tokens reputation (Some r) referrer_id s) = Ok u
       /\ User.referrer u = Some r)
    /\ create_user self tokens reputation (Some r) referrer_id s
       = create_user self tokens reputation (Some r) None s
    /\ create_user self tokens reputation None (Some 0%Z) s
       = create_user self tokens reputation None None s
    /\ (exists u,
          fst (create_user self tokens reputation None None s) = Ok u
          /\ User.referrer u = None)
    /\ ((exists e,
           fst (create_user self tokens reputation referrer referrer_id s)
           = Raise e)
        <-> (referrer = None
             /\ exists i, referrer_id = Some i /\ i <> 0%Z
                          /\ query_User_get i s = None))
    /\ (forall e,
          fst (create_user self tokens reputation referrer referrer_id s)
          = Raise e ->
          exists i, referrer_id = Some i
                    /\ e = ValueError (msg_user_not_found i)
                    /\ snd (create_user self tokens reputation referrer
                              referrer_id s) = s).
Proof.
  intros self tokens reputation referrer referrer_id r s.
  split; [| split; [| split; [| split; [| split]]]].
  - destruct referrer_id; eexists; split; reflexivity.
  - destruct referrer_id; reflexivity.
  - reflexivity.
  - eexists; split; reflexivity.
  - split.
    + intros [e He].
      destruct referrer as [f |]; [destruct referrer_id; discriminate |].
      split; [reflexivity |].
      destruct referrer_id as [i |]; [| discriminate].
      exists i. unfold create_user, truthy, bind, get_user, gets in He.
      destruct (Z.eqb_spec i 0) as [-> | Hi]; [discriminate |].
      cbn in He. destruct (query_User_get i s); [discriminate |].
      repeat split; auto.
    + intros [-> [i [-> [Hi Hq]]]].
      unfold create_user, truthy, bind, get_user, gets.
      destruct (Z.eqb_spec i 0) as [-> | _]; [contradiction |].
      cbn. rewrite Hq. eexists; reflexivity.
  - intros e He.
    destruct referrer as [f |]; [destruct referrer_id; discriminate |].
    destruct referrer_id as [i |]; [| discriminate].
    exists i. unfold create_user, truthy, bind, get_user, gets in *.
    destruct (Z.eqb_spec i 0) as [-> | Hi]; [discriminate |].
    cbn in *. destruct (query_User_get i s); [discriminate |].
    cbn in *. inversion He. auto.
Qed.

(** * What a computation maintains *)

Section Maintains.
Variable rel : DBSession -> DBSession -> Prop.
Hypothesis rel_refl : forall s, rel s s.
Hypothesis rel_trans : forall s1 s2 s3, rel s1 s2 -> rel s2 s3 -> rel s1 s3.

Lemma maintains_bind A B (m : M A) (k : A -> M B) :
  maintains rel m -> (forall a, maintains rel (k a)) ->
  maintains rel (bind m k).
Proof.
  intros Hm Hk s. unfold bind. specialize (Hm s).
  destruct (m s) as [[a | e] s1]; cbn in *.
  - eapply rel_trans; [exact Hm | apply Hk].
  - exact Hm.
Qed.

Lemma maintains_ret A (a : A) : maintains rel (ret a).
Proof. intro s. apply rel_refl. Qed.

Lemma maintains_raise A (e : exn) : maintains rel (@raise A e).
Proof. intro s. apply rel_refl. Qed.

Lemma maintains_lift A (r : result A) : maintains rel (lift r).
Proof. intro s. apply rel_refl. Qed.

Lemma maintains_gets A (f : DBSession -> A) : maintains rel (gets f).
Proof. intro s. apply rel_refl. Qed.

Lemma maintains_user_attr A (user : Z) (f : User.t -> A) :
  maintains rel (user_attr user f).
Proof.
  intro s. unfold user_attr. destruct (query_User_get user s); apply rel_refl.
Qed.

Lemma maintains_contribution_attr A (c : Z) (f : Contribution.t -> A) :
  maintains rel (contribution_attr c f).
Proof.
  intro s. unfold contribution_attr.
  destruct (query_Contribution_get c s); apply rel_refl.
Qed.

Lemma maintains_modify (f : DBSession -> DBSession) :
  (forall s, rel s (f s)) -> maintains rel (modify f).
Proof. intros H s. apply H. Qed.

Lemma maintains_if A (b : bool) (m1 m2 : M A) :
  maintains rel m1 -> maintains rel m2 ->
  maintains rel (if b then m1 else m2).
Proof. destruct b; auto. Qed.

Lemma maintains_option A B (o : option B) (f : B -> M A) (g : M A) :
  (forall x, maintains rel (f x)) -> maintains rel g ->
  maintains rel (match o with Some x => f x | None => g end).
Proof. destruct o; auto. Qed.

Lemma maintains_for_each A (l : list A) (body : A -> M unit) :
  (forall x, maintains rel (body x)) -> maintains rel (for_each l body).
Proof.
  intro H. induction l as [| x l IH]; cbn.
  - apply maintains_ret.
  - apply maintains_bind; auto.
Qed.

Lemma maintains_map_M A B (f : A -> M B) (l : list A) :
  (forall x, maintains rel (f x)) -> maintains rel (map_M f l).
Proof.
  intro H. induction l as [| x l IH]; cbn.
  - apply maintains_ret.
  - apply maintains_bind; [apply H | intro].
    apply maintains_bind; [exact IH | intro; apply maintains_ret].
Qed.

Lemma maintains_sum_reputation (es : list Evaluation.t) :
  maintains rel (sum_reputation es).
Proof.
  induction es as [| e es IH]; cbn.
  - apply maintains_ret.
  - apply maintains_bind; [apply maintains_user_attr | intro].
    apply maintains_bind; [exact IH | intro; apply maintains_ret].
Qed.

Lemma maintains_user_referrer (user : Z) : maintains rel (user_referrer user).
Proof.
  unfold user_referrer.
  apply maintains_bind; [apply maintains_user_attr | intros [f |]].
  - apply maintains_gets.
  - apply maintains_ret.
Qed.

Lemma maintains_contribution_evaluations (c : Z) :
  maintains rel (contribution_evaluations c).
Proof.
  unfold contribution_evaluations.
  apply maintains_bind; [apply maintains_contribution_attr | intro].
  apply maintains_gets.
Qed.

Lemma maintains_engaged_reputation (c : Z) :
  maintains rel (engaged_reputation c).
Proof.
  unfold engaged_reputation.
  apply maintains_bind; [apply maintains_contribution_evaluations | intro].
  apply maintains_sum_reputation.
Qed.

Lemma maintains_total_reputation : maintains rel total_reputation.
Proof. apply maintains_gets. Qed.

Lemma maintains_contribution_upvotes (c : Z) :
  maintains rel (contribution_upvotes c).
Proof.
  unfold contribution_upvotes.
  apply maintains_bind; [apply maintains_contribution_evaluations | intro].
  apply maintains_bind; [apply maintains_sum_reputation | intro].
  apply maintains_bind; [apply maintains_total_reputation | intro].
  apply maintains_bind; [apply maintains_lift | intro].
  apply maintains_lift.
Qed.

Lemma maintains_get_evaluations (c e v : option Z) :
  maintains rel (get_evaluations c e v).
Proof. apply maintains_gets. Qed.

Lemma maintains_sum_equally_voted_reputation (self : Contract)
  (evaluation : Evaluation.t) :
  maintains rel (sum_equally_voted_reputation self evaluation).
Proof.
  unfold sum_equally_voted_reputation.
  apply maintains_bind; [apply maintains_contribution_attr | intro].
  apply maintains_bind; [apply maintains_gets | intro].
  apply maintains_bind; [apply maintains_user_attr | intro].
  apply maintains_bind; [apply maintains_lift | intro].
  apply maintains_ret.
Qed.
End Maintains.

Create HintDb session.

#[local] Hint Resolve maintains_ret maintains_raise maintains_lift
  maintains_gets maintains_user_attr maintains_contribution_attr
  maintains_sum_reputation maintains_user_referrer
  maintains_contribution_evaluations maintains_engaged_reputation
  maintains_total_reputation maintains_contribution_upvotes
  maintains_get_evaluations maintains_sum_equally_voted_reputation
  : session.

(** Splits a goal [maintains rel m] along the structure of [m]; what is left
    are the writes of [m]. *)
Ltac maintains_split :=
  repeat first
    [ assumption
    | solve [ auto with session ]
    | apply maintains_bind; [ assumption | | intro ]
    | apply maintains_for_each; [ assumption | assumption | intro ]
    | apply maintains_if; [ | ]
    | apply maintains_option; [ intro | ]
    | progress cbv beta zeta ].

(** ** Computations that only read *)

Lemma read_only_maintains A (m : M A) :
  read_only m <-> maintains (fun s s' => s' = s) m.
Proof. reflexivity. Qed.

Lemma read_only_contribution_score (c : Z) : read_only (contribution_score c).
Proof.
  apply read_only_maintains.
  assert (Hr : forall s : DBSession, s = s) by reflexivity.
  assert (Ht : forall s1 s2 s3 : DBSession, s2 = s1 -> s3 = s2 -> s3 = s1)
    by congruence.
  unfold contribution_score. maintains_split.
Qed.

Lemma read_only_bind_eq A B (m : M A) (k : A -> M B) (s : DBSession) :
  read_only m ->
  bind m k s = match fst (m s) with
               | Ok a => k a s
               | Raise e => (Raise e, s)
               end.
Proof.
  intro H. unfold bind. specialize (H s).
  destruct (m s) as [[a | e] s1]; cbn in *; now subst.
Qed.

(** * Which exceptions a computation raises *)

Section RaisesOnly.
Variable allowed : exn -> Prop.

Lemma raises_only_bind A B (m : M A) (k : A -> M B) :
  raises_only allowed m -> (forall a, raises_only allowed (k a)) ->
  raises_only allowed (bind m k).
Proof.
  intros Hm Hk s e. unfold bind. specialize (Hm s).
  destruct (m s) as [[a | e'] s1]; cbn in *.
  - apply Hk.
  - intro H. apply Hm. inversion H. reflexivity.
Qed.

Lemma raises_only_ret A (a : A) : raises_only allowed (ret a).
Proof. intros s e H. discriminate H. Qed.

Lemma raises_only_gets A (f : DBSession -> A) : raises_only allowed (gets f).
Proof. intros s e H. discriminate H. Qed.

Lemma raises_only_modify (f : DBSession -> DBSession) :
  raises_only allowed (modify f).
Proof. intros s e H. discriminate H. Qed.

Lemma raises_only_lift A (r : result A) :
  (forall e, r = Raise e -> allowed e) -> raises_only allowed (lift r).
Proof. intros H s e He. apply H. exact He. Qed.

Lemma raises_only_if A (b : bool) (m1 m2 : M A) :
  raises_only allowed m1 -> raises_only allowed m2 ->
  raises_only allowed (if b then m1 else m2).
Proof. destruct b; auto. Qed.

Lemma raises_only_option A B (o : option B) (f : B -> M A) (g : M A) :
  (forall x, raises_only allowed (f x)) -> raises_only allowed g ->
  raises_only allowed (match o with Some x => f x | None => g end).
Proof. destruct o; auto. Qed.

Lemma raises_only_for_each A (l : list A) (body : A -> M unit) :
  (forall x, raises_only allowed (body x)) ->
  raises_only allowed (for_each l body).
Proof.
  intro H. induction l as [| x l IH]; cbn.
  - apply raises_only_ret.
  - apply raises_only_bind; auto.
Qed.

Hypothesis allowed_AttributeError : allowed AttributeError.

Lemma raises_only_user_attr A (user : Z) (f : User.t -> A) :
  raises_only allowed (user_attr user f).
Proof.
  intros s e. unfold user_attr.
  destruct (query_User_get user s); cbn; intro H; inversion H.
  exact allowed_AttributeError.
Qed.

Lemma raises_only_contribution_attr A (c : Z) (f : Contribution.t -> A) :
  raises_only allowed (contribution_attr c f).
Proof.
  intros s e. unfold contribution_attr.
  destruct (query_Contribution_get c s); cbn; intro H; inversion H.
  exact allowed_AttributeError.
Qed.

Lemma raises_only_sum_reputation (es : list Evaluation.t) :
  raises_only allowed (sum_reputation es).
Proof.
  induction es as [| e es IH]; cbn.
  - apply raises_only_ret.
  - apply raises_only_bind; [apply raises_only_user_attr | intro].
    apply raises_only_bind; [exact IH | intro; apply raises_only_ret].
Qed.
End RaisesOnly.

Lemma step_error_truediv (x y : R) (e : exn) :
  truediv x y = Raise e -> step_error e.
Proof.
  unfold truediv. destruct (Reqb y 0); intro H; inversion H. exact I.
Qed.

Lemma step_error_float_pow (x y : R) (e : exn) :
  float_pow x y = Raise e -> step_error e.
Proof.
  unfold float_pow.
  repeat match goal with
         | |- context [if ?b then _ else _] => destruct b
         end; intro H; inversion H; exact I.
Qed.

Lemma step_error_not_None (x : option R) (e : exn) :
  not_None x = Raise e -> step_error e.
Proof. destruct x; intro H; inversion H. exact I. Qed.

Lemma step_error_getitem_type (self : Contract) (t : string) (e : exn) :
  getitem_type self t = Raise e -> step_error e.
Proof.
  unfold getitem_type. destruct (lookup_type _ _); intro H; inversion H.
  exact I.
Qed.

#[local] Hint Resolve raises_only_ret raises_only_gets raises_only_modify
  raises_only_user_attr raises_only_contribution_attr
  raises_only_sum_reputation
  step_error_truediv step_error_float_pow step_error_not_None
  step_error_getitem_type : session.

#[local] Hint Extern 1 (step_error AttributeError) => exact I : session.

Ltac raises_split :=
  repeat first
    [ solve [ eauto with session ]
    | solve [ intros; discriminate ]
    | apply raises_only_lift
    | apply raises_only_bind; [ | intro ]
    | apply raises_only_for_each; intro
    | apply raises_only_if; [ | ]
    | apply raises_only_option; [ intro | ]
    | progress cbv beta zeta ].

Lemma step_errors_of_pay_evaluation_fee self evaluation :
  raises_only step_error (pay_evaluation_fee self evaluation).
Proof.
  unfold pay_evaluation_fee, engaged_reputation, contribution_evaluations,
    total_reputation, user_update.
  raises_split.
Qed.

Lemma step_errors_of_reward_evaluator_with_tokens self evaluation :
  raises_only step_error (reward_evaluator_with_tokens self evaluation).
Proof.
  unfold reward_evaluator_with_tokens, engaged_reputation,
    contribution_evaluations, total_reputation, user_update,
    contribution_update.
  raises_split.
Qed.

Lemma step_errors_of_reward_previous_evaluators self evaluation :
  raises_only step_error (reward_previous_evaluators self evaluation).
Proof.
  unfold reward_previous_evaluators, reward_previous_evaluator,
    sum_equally_voted_reputation, contribution_evaluations, total_reputation,
    user_referrer, user_update.
  raises_split.
Qed.

Lemma step_errors_of_reward_contributor self evaluation :
  raises_only step_error (reward_contributor self evaluation).
Proof.
  unfold reward_contributor, contribution_upvotes, contribution_evaluations,
    total_reputation, user_referrer, user_update, contribution_update.
  raises_split.
Qed.

(** ** Stepping through a computation *)

Lemma bind_Ok {A B} {m : M A} (k : A -> M B) {s a s1} :
  m s = (Ok a, s1) -> bind m k s = k a s1.
Proof. unfold bind. now intros ->. Qed.

Lemma bind_Raise {A B} {m : M A} (k : A -> M B) {s e s1} :
  m s = (Raise e, s1) -> bind m k s = (Raise e, s1).
Proof. unfold bind. now intros ->. Qed.

Lemma bind_Ok_inv {A B} (m : M A) (k : A -> M B) s r :
  fst (bind m k s) = Ok r ->
  exists a s1, m s = (Ok a, s1) /\ fst (k a s1) = Ok r.
Proof.
  unfold bind. destruct (m s) as [[a | e] s1]; cbn; intro H.
  - now exists a, s1.
  - discriminate H.
Qed.

Lemma bind_inv {A B} (m : M A) (k : A -> M B) s r s' :
  bind m k s = (Ok r, s') ->
  exists a s1, m s = (Ok a, s1) /\ k a s1 = (Ok r, s').
Proof.
  unfold bind. destruct (m s) as [[a | e] s1]; cbn; intro H.
  - now exists a, s1.
  - discriminate H.
Qed.

Lemma bind_assoc {A B C} (m : M A) (k0 : A -> M B) (k : B -> M C) s :
  bind (bind m k0) k s = bind m (fun x => bind (k0 x) k) s.
Proof. unfold bind. destruct (m s) as [[a | e] s1]; reflexivity. Qed.

Lemma bind_ret {A B} (a : A) (k : A -> M B) s : bind (ret a) k s = k a s.
Proof. reflexivity. Qed.

Lemma contribution_attr_Some {A} (f : Contribution.t -> A) {c s row} :
  query_Contribution_get c s = Some row ->
  contribution_attr c f s = (Ok (f row), s).
Proof. unfold contribution_attr. now intros ->. Qed.

Lemma user_attr_Some {A} (f : User.t -> A) {u s row} :
  query_User_get u s = Some row -> user_attr u f s = (Ok (f row), s).
Proof. unfold user_attr. now intros ->. Qed.

Lemma getitem_type_Some {self t ct} :
  lookup_type (CONTRIBUTION_TYPE self) t = Some ct ->
  getitem_type self t = Ok ct.
Proof. unfold getitem_type. now intros ->. Qed.

Lemma existsb_Zeqb_In (v : Z) (l : list Z) :
  existsb (Z.eqb v) l = true <-> In v l.
Proof.
  rewrite existsb_exists. split.
  - intros [x [Hx Hv]]. apply Z.eqb_eq in Hv. now subst.
  - intro H. exists v. split; [exact H | apply Z.eqb_refl].
Qed.

(** * Validation of an evaluation *)

Lemma create_evaluation_validates self user contribution value s c ct :
  query_Contribution_get contribution s = Some c ->
  lookup_type (CONTRIBUTION_TYPE self) (Contribution.contribution_type c)
  = Some ct ->
  create_evaluation self user contribution value s
  = if existsb (Z.eqb value) (evaluation_set ct)
    then after_validation self user contribution value s
    else (Raise (ValueError (msg_evaluation_value_not_valid value)), s).
Proof.
  intros Hc Hct. unfold create_evaluation.
  rewrite (bind_Ok _ (contribution_attr_Some _ Hc)).
  unfold is_evaluation_value_allowed.
  rewrite (getitem_type_Some Hct). unfold bind at 1, lift at 1.
  destruct (existsb (Z.eqb value) (evaluation_set ct)); reflexivity.
Qed.

Lemma step_errors_after_validation self user contribution value :
  raises_only step_error (after_validation self user contribution value).
Proof.
  pose proof step_errors_of_pay_evaluation_fee.
  pose proof step_errors_of_reward_evaluator_with_tokens.
  pose proof step_errors_of_reward_previous_evaluators.
  pose proof step_errors_of_reward_contributor.
  unfold after_validation, get_evaluations, DBSession_delete.
  raises_split.
Qed.

(** C8. For a configured contribution type, [is_evaluation_value_allowed]
    answers True exactly for the members of the type's [evaluation_set] and
    False for everything else.  [create_evaluation] raises the ValueError of
    an invalid value exactly when the value is outside the set of the
    contribution's type, and it then leaves the store as it was. *)
Theorem evaluation_value_is_validated :
  forall (self : Contract) (user contribution value : Z) (s : DBSession)
         (c : Contribution.t) (ct : ContributionType),
    query_Contribution_get contribution s = Some c ->
    lookup_type (CONTRIBUTION_TYPE self) (Contribution.contribution_type c)
    = Some ct ->
    (is_evaluation_value_allowed self value (Contribution.contribution_type c)
     = Ok true <-> In value (evaluation_set ct))
    /\ (is_evaluation_value_allowed self value
          (Contribution.contribution_type c)
        = Ok false <-> ~ In value (evaluation_set ct))
    /\ (fst (create_evaluation self user contribution value s)
        = Raise (ValueError (msg_evaluation_value_not_valid value))
        <-> ~ In value (evaluation_set ct))
    /\ (~ In value (evaluation_set ct) ->
        snd (create_evaluation self user contribution value s) = s).
Proof.
  intros self user contribution value s c ct Hc Hct.
  assert (Hallowed :
            is_evaluation_value_allowed self value
              (Contribution.contribution_type c)
            = Ok (existsb (Z.eqb value) (evaluation_set ct))).
  { unfold is_evaluation_value_allowed.
    now rewrite (getitem_type_Some Hct). }
  pose proof (existsb_Zeqb_In value (evaluation_set ct)) as Hin.
  pose proof (create_evaluation_validates self user contribution value s c ct Hc Hct) as Hrun.
  rewrite Hallowed, Hrun.
  destruct (existsb (Z.eqb value) (evaluation_set ct)) eqn:E.
  - assert (Hyes : In value (evaluation_set ct)) by now apply Hin.
    split; [tauto |]. split; [split; [discriminate | tauto] |].
    split; [| tauto]. split; [| tauto].
    intro H. exfalso.
    apply (step_errors_after_validation self user contribution value) in H.
    exact H.
  - assert (Hnot : ~ In value (evaluation_set ct)).
    { intro H. apply Hin in H. discriminate H. }
    split; [split; [discriminate | tauto] |].
    split; [tauto |]. split; [tauto | reflexivity].
Qed.

Lemma evaluation_value_is_validated_witness :
  (fst (create_evaluation BaseContract 2 1 2 fresh_contribution)
   = Raise (ValueError (msg_evaluation_value_not_valid 2))
   <-> ~ In 2%Z (evaluation_set base_type))
  /\ snd (create_evaluation BaseContract 2 1 2 fresh_contribution)
     = fresh_contribution.
Proof.
  destruct (@evaluation_value_is_validated BaseContract 2 1 2
              fresh_contribution (Contribution.mk 1 1 "base" 1 0 0) base_type
              eq_refl eq_refl) as [_ [_ [H3 H4]]].
  split; [exact H3 |].
  apply H4. cbn. intros [H | [H | H]]; [discriminate H | discriminate H | exact H].
Defined.

(** * Rows and their updates *)

Lemma find_user_update (us : list User.t) (user i : Z) (f : User.t -> User.t) :
  (forall w, User.id (f w) = User.id w) ->
  find (fun w => Z.eqb (User.id w) i)
    (map (fun w => if Z.eqb (User.id w) user then f w else w) us)
  = if Z.eqb i user
    then option_map f (find (fun w => Z.eqb (User.id w) i) us)
    else find (fun w => Z.eqb (User.id w) i) us.
Proof.
  intro Hid. induction us as [| a us IH]; cbn.
  - now destruct (Z.eqb i user).
  - destruct (Z.eqb_spec (User.id a) user) as [Ha | Ha].
    + rewrite Hid. destruct (Z.eqb_spec (User.id a) i) as [Hi | Hi].
      * subst. now rewrite Z.eqb_refl.
      * rewrite IH. reflexivity.
    + destruct (Z.eqb_spec (User.id a) i) as [Hi | Hi].
      * subst. destruct (Z.eqb_spec (User.id a) user); [contradiction | easy].
      * rewrite IH. reflexivity.
Qed.

Lemma query_User_get_update (s : DBSession) (user i : Z)
  (f : User.t -> User.t) :
  (forall w, User.id (f w) = User.id w) ->
  query_User_get i (snd (user_update user f s))
  = if Z.eqb i user then option_map f (query_User_get i s)
    else query_User_get i s.
Proof. intro Hid. apply find_user_update. exact Hid. Qed.

Lemma find_contribution_update (cs : list Contribution.t) (c i : Z)
  (f : Contribution.t -> Contribution.t) :
  (forall w, Contribution.id (f w) = Contribution.id w) ->
  find (fun w => Z.eqb (Contribution.id w) i)
    (map (fun w => if Z.eqb (Contribution.id w) c then f w else w) cs)
  = if Z.eqb i c
    then option_map f (find (fun w => Z.eqb (Contribution.id w) i) cs)
    else find (fun w => Z.eqb (Contribution.id w) i) cs.
Proof.
  intro Hid. induction cs as [| a cs IH]; cbn.
  - now destruct (Z.eqb i c).
  - destruct (Z.eqb_spec (Contribution.id a) c) as [Ha | Ha].
    + rewrite Hid. destruct (Z.eqb_spec (Contribution.id a) i) as [Hi | Hi].
      * subst. now rewrite Z.eqb_refl.
      * rewrite IH. reflexivity.
    + destruct (Z.eqb_spec (Contribution.id a) i) as [Hi | Hi].
      * subst.
        destruct (Z.eqb_spec (Contribution.id a) c); [contradiction | easy].
      * rewrite IH. reflexivity.
Qed.

Lemma query_User_get_id (s : DBSession) (i : Z) (u : User.t) :
  query_User_get i s = Some u -> User.id u = i.
Proof. apply find_user_id. Qed.

(** * Paying for a contribution *)

Lemma lookup_type_In table k v :
  lookup_type table k = Some v -> In k (map fst table).
Proof.
  induction table as [| [k' v'] table IH]; cbn; [discriminate |].
  destruct (String.eqb_spec k k') as [-> | _]; auto.
Qed.

Lemma ltb_empty_r (y : string) : String.ltb y "" = false.
Proof. destruct y; reflexivity. Qed.

Lemma ltb_empty_l (y : string) : String.ltb "" y = false -> y = ""%string.
Proof. destruct y; [reflexivity | discriminate]. Qed.

(** The empty string sorts first. *)
Lemma sort_strings_empty_first (l : list string) :
  In ""%string l -> exists rest, sort_strings l = ""%string :: rest.
Proof.
  induction l as [| a l IH]; [contradiction |].
  change (sort_strings (a :: l)) with (insert_string a (sort_strings l)).
  intros [-> | H].
  - destruct (sort_strings l) as [| y r]; cbn [insert_string].
    + now eexists.
    + rewrite ltb_empty_r. now eexists.
  - destruct (IH H) as [r ->]. cbn [insert_string].
    destruct (String.ltb "" a) eqn:E; [now eexists |].
    apply ltb_empty_l in E. subst. now eexists.
Qed.

(** C5. For a user [u] and a configured contribution type [t],
    [create_contribution(u, t)] raises exactly when [u.tokens] is below the
    fee of [t]; it then raises the insufficient-funds exception and the store
    is left as it was (no debit, no contribution).  Otherwise it returns a new
    contribution whose [token_fund] is the fee, appended to the stored
    contributions, and the tokens of [u] have gone down by exactly the fee. *)
Theorem create_contribution_charges_the_fee :
  forall (self : Contract) (user : Z) (t : string) (s : DBSession)
         (u : User.t) (ct : ContributionType),
    query_User_get user s = Some u ->
    lookup_type (CONTRIBUTION_TYPE self) t = Some ct ->
    ((exists e, fst (create_contribution self user (Some t) s) = Raise e)
     <-> User.tokens u < fee ct)
    /\ (User.tokens u < fee ct ->
        create_contribution self user (Some t) s
        = (Raise (Exception_ msg_not_enough_tokens), s))
    /\ (~ User.tokens u < fee ct ->
        exists c s',
          create_contribution self user (Some t) s = (Ok c, s')
          /\ Contribution.token_fund c = fee ct
          /\ Contribution.user c = user
          /\ Contribution.contribution_type c = t
          /\ contributions s' = contributions s ++ [c]
          /\ tokens_of s' user = Some (User.tokens u - fee ct)
          /\ (forall w, w <> user -> query_User_get w s' = query_User_get w s)
          /\ evaluations s' = evaluations s).
Proof.
  intros self user t s u ct Hu Hct.
  assert (Hrun :
    create_contribution self user (Some t) s
    = if Rltb (User.tokens u) (fee ct)
      then (Raise (Exception_ msg_not_enough_tokens), s)
      else (user_update user (set_tokens (User.tokens u - fee ct)) ;;
            new_Contribution user t (fee ct)) s).
  { unfold create_contribution.
    assert (Htype :
      (if String.eqb t ""
       then match sort_strings (map fst (CONTRIBUTION_TYPE self)) with
            | [] => raise IndexError
            | first :: _ => ret first
            end
       else ret t) s = (Ok t, s)).
    { destruct (String.eqb_spec t "") as [-> | _]; [| reflexivity].
      destruct (sort_strings_empty_first _ (lookup_type_In _ _ _ Hct))
        as [rest ->].
      reflexivity. }
    rewrite (bind_Ok _ Htype), Hct.
    rewrite (bind_Ok _ (user_attr_Some _ Hu)).
    rewrite (getitem_type_Some Hct). unfold bind at 1, lift at 1.
    destruct (Rltb (User.tokens u) (fee ct)); [reflexivity |].
    rewrite (bind_Ok _ (user_attr_Some _ Hu)).
    unfold bind at 1, lift at 1.
    unfold bind at 1. unfold user_update at 1, modify at 1.
    unfold bind at 1, lift at 1. reflexivity. }
  rewrite Hrun.
  destruct (Rltb (User.tokens u) (fee ct)) eqn:E.
  - apply Rltb_spec in E. split; [| split].
    + split; [intros _; exact E | intros _; eexists; reflexivity].
    + reflexivity.
    + intro H. contradiction.
  - assert (Hge : ~ User.tokens u < fee ct).
    { intro H. apply Rltb_spec in H. congruence. }
    split; [| split].
    + split; [intros [e He]; discriminate He | intro H; contradiction].
    + intro H. contradiction.
    + intros _. eexists. eexists. split; [reflexivity |].
      cbn. repeat split.
      * unfold tokens_of, query_User_get. cbn.
        rewrite find_user_update by reflexivity.
        rewrite Z.eqb_refl. fold (query_User_get user s). rewrite Hu.
        reflexivity.
      * intros w Hw. unfold query_User_get. cbn.
        rewrite find_user_update by reflexivity.
        destruct (Z.eqb_spec w user); [contradiction | reflexivity].
Qed.

Lemma create_contribution_charges_the_fee_witness :
  exists c s',
    create_contribution BaseContract 2 (Some "base"%string) fresh_contribution
    = (Ok c, s')
    /\ Contribution.token_fund c = 1
    /\ Contribution.user c = 2%Z
    /\ Contribution.contribution_type c = "base"%string
    /\ contributions s' = contributions fresh_contribution ++ [c]
    /\ tokens_of s' 2 = Some (50 - 1)
    /\ (forall w, w <> 2%Z ->
                  query_User_get w s' = query_User_get w fresh_contribution)
    /\ evaluations s' = evaluations fresh_contribution.
Proof.
  apply (create_contribution_charges_the_fee BaseContract 2 "base"
           fresh_contribution (User.mk 2 50 20 None) base_type
           eq_refl eq_refl).
  cbn. lra.
Defined.

(** * Listing contributions *)

Lemma insert_by_key_perm {A} (reverse : bool) (x : R * A) (l : list (R * A)) :
  Permutation (insert_by_key reverse x l) (x :: l).
Proof.
  induction l as [| y l IH]; cbn; [reflexivity |].
  destruct (if reverse then Rltb (fst x) (fst y) else Rltb (fst y) (fst x)).
  - rewrite IH. apply perm_swap.
  - reflexivity.
Qed.

Lemma sort_by_key_perm {A} (reverse : bool) (l : list (R * A)) :
  Permutation (sort_by_key reverse l) l.
Proof.
  induction l as [| x l IH]; cbn; [reflexivity |].
  fold (sort_by_key reverse l).
  rewrite insert_by_key_perm. now apply perm_skip.
Qed.

Lemma insert_by_key_descending {A} (x : R * A) (l : list (R * A)) :
  StronglySorted (fun a b => fst b <= fst a) l ->
  StronglySorted (fun a b => fst b <= fst a) (insert_by_key true x l).
Proof.
  induction 1 as [| y l Hl IH Hy]; cbn.
  - constructor; constructor.
  - destruct (Rltb (fst x) (fst y)) eqn:E.
    + apply Rltb_spec in E. constructor; [exact IH |].
      rewrite (Permutation_Forall_iff (insert_by_key_perm true x l))
        || (eapply Permutation_Forall;
            [symmetry; apply insert_by_key_perm |]).
      constructor; [lra | exact Hy].
    + assert (Hle : fst y <= fst x).
      { destruct (Rle_dec (fst y) (fst x)) as [H | H]; [exact H |].
        exfalso. assert (fst x < fst y) by lra.
        apply Rltb_spec in H0. congruence. }
      constructor; [constructor; assumption |].
      constructor; [exact Hle |].
      eapply Forall_impl; [| exact Hy]. cbn. intros a Ha. lra.
Qed.

Lemma sort_by_key_descending {A} (l : list (R * A)) :
  StronglySorted (fun a b => fst b <= fst a) (sort_by_key true l).
Proof.
  induction l as [| x l IH]; cbn; [constructor |].
  apply insert_by_key_descending. exact IH.
Qed.

(** Mapping a read-only computation over a list reads each element's value
    in the store the loop started from. *)
Lemma map_M_read_only {A B} (f : A -> M B) (l : list A) (s : DBSession) :
  (forall x, read_only (f x)) ->
  snd (map_M f l s) = s
  /\ forall ys, fst (map_M f l s) = Ok ys ->
                Forall2 (fun x y => f x s = (Ok y, s)) l ys.
Proof.
  intro Hf. induction l as [| x l [IHs IHv]]; cbn.
  - split; [reflexivity |]. intros ys H. inversion H. constructor.
  - rewrite read_only_bind_eq by apply Hf.
    pose proof (Hf x s) as Hx.
    destruct (f x s) as [[y | e] s1] eqn:Ex; cbn in *; subst s1.
    + unfold bind. destruct (map_M f l s) as [[ys | e] s2]; cbn in *; subst s2.
      * split; [reflexivity |]. intros ys' H. inversion H. subst.
        constructor; [exact Ex | apply IHv; reflexivity].
      * split; [reflexivity | discriminate].
    + split; [reflexivity | discriminate].
Qed.

Lemma map_M_total {A B} (f : A -> M B) (l : list A) (s : DBSession) :
  Forall (fun x => exists y, f x s = (Ok y, s)) l ->
  exists ys, map_M f l s = (Ok ys, s).
Proof.
  induction 1 as [| x l [y Hy] _ [ys IH]]; cbn.
  - now eexists.
  - rewrite (bind_Ok _ Hy), (bind_Ok _ IH). now eexists.
Qed.

Lemma Forall2_combine {A B} (P : A -> B -> Prop) (l : list A) (ys : list B) :
  Forall2 P l ys ->
  map snd (combine ys l) = l
  /\ Forall (fun kc => P (snd kc) (fst kc)) (combine ys l).
Proof.
  induction 1 as [| x y l ys Hxy _ [IH1 IH2]]; cbn.
  - split; [reflexivity | constructor].
  - split; [now rewrite IH1 | constructor; assumption].
Qed.

Lemma get_contributions_unknown_ordering (start : Z)
  (limit contributor_id : option Z) (s : DBSession) (order_by : string) :
  order_by <> "score"%string -> order_by <> "-score"%string ->
  order_by <> "time"%string -> order_by <> "-time"%string ->
  get_contributions start limit contributor_id order_by s
  = (Raise (ValueError (msg_unknown_order_by order_by)), s).
Proof.
  intros H1 H2 H3 H4. unfold get_contributions.
  apply String.eqb_neq in H1, H2, H3, H4.
  rewrite H1, H2, H3, H4. reflexivity.
Qed.

(** C7. [get_contributions(start, limit, order_by='-score')] only reads.
    When it returns, the result is a slice (from [start], of at most [limit]
    if [limit] is non-zero) of the stored contributions ranked by their
    [contribution_score], highest first; it does return whenever every
    stored contribution has a score.  For an [order_by] other than 'score',
    '-score', 'time' and '-time' it raises the ValueError of an unknown
    ordering and leaves the store as it was. *)
Theorem get_contributions_orders_by_score :
  forall (start : Z) (limit contributor_id : option Z) (s : DBSession),
    snd (get_contributions start limit contributor_id "-score" s) = s
    /\ (forall results,
          fst (get_contributions start limit contributor_id "-score" s)
          = Ok results ->
          exists ranked : list (R * Contribution.t),
            Permutation (map snd ranked) (contributions s)
            /\ Forall
                 (fun kc =>
                    contribution_score (Contribution.id (snd kc)) s
                    = (Ok (fst kc), s))
                 ranked
            /\ StronglySorted (fun a b => fst b <= fst a) ranked
            /\ results
               = let results := slice_from start (map snd ranked) in
                 if truthy limit
                 then match limit with
                      | Some n => slice_to n results
                      | None => results
                      end
                 else results)
    /\ (Forall
          (fun c => exists k,
             contribution_score (Contribution.id c) s = (Ok k, s))
          (contributions s) ->
        exists results,
          get_contributions start limit contributor_id "-score" s
          = (Ok results, s))
    /\ (forall order_by : string,
          order_by <> "score"%string -> order_by <> "-score"%string ->
          order_by <> "time"%string -> order_by <> "-time"%string ->
          get_contributions start limit contributor_id order_by s
          = (Raise (ValueError (msg_unknown_order_by order_by)), s)).
Proof.
  intros start limit contributor_id s.
  pose proof (map_M_read_only
                (fun x => contribution_score (Contribution.id x))
                (contributions s) s
                (fun x => read_only_contribution_score (Contribution.id x)))
    as [Hsnd Hkeys].
  assert (Hrun :
    get_contributions start limit contributor_id "-score" s
    = match fst (map_M (fun x => contribution_score (Contribution.id x))
                   (contributions s) s) with
      | Ok keys =>
          (Ok (let results :=
                 slice_from start
                   (map snd (sort_by_key true (combine keys (contributions s))))
               in
               if truthy limit
               then match limit with
                    | Some n => slice_to n results
                    | None => results
                    end
               else results), s)
      | Raise e => (Raise e, s)
      end).
  { unfold get_contributions. cbn [String.eqb Ascii.eqb Bool.eqb].
    unfold bind, gets, ret.
    destruct (map_M (fun x => contribution_score (Contribution.id x))
                (contributions s) s) as [[keys | e] s1]; cbn in *;
      subst s1; reflexivity. }
  rewrite Hrun. clear Hrun.
  destruct (map_M (fun x => contribution_score (Contribution.id x))
              (contributions s) s) as [[keys | e] s1] eqn:Erun;
    cbn [fst snd] in *; subst s1.
  - split; [reflexivity |]. split; [| split].
    + intros results H. inversion H as [Hres]. clear H.
      destruct (Forall2_combine _ _ _ (Hkeys keys eq_refl)) as [Hmap Hall].
      exists (sort_by_key true (combine keys (contributions s))).
      split; [| split; [| split]].
      * rewrite (Permutation_map snd (sort_by_key_perm true _)), Hmap.
        reflexivity.
      * eapply Permutation_Forall; [symmetry; apply sort_by_key_perm |].
        exact Hall.
      * apply sort_by_key_descending.
      * reflexivity.
    + intros _. now eexists.
    + apply get_contributions_unknown_ordering.
  - split; [reflexivity |]. split; [| split].
    + intros results H. discriminate H.
    + intro Hall.
      destruct (map_M_total
                  (fun x => contribution_score (Contribution.id x)) _ _ Hall)
        as [ys Hys].
      rewrite Hys in Erun. discriminate Erun.
    + apply get_contributions_unknown_ordering.
Qed.

Example get_contributions_ranks_two_contributions :
  get_contributions 0 None None "-score" two_contributions
  = (Ok [Contribution.mk 2 1 "base" 1 0 0; Contribution.mk 1 1 "base" 1 0 0],
     two_contributions).
Proof. unfold two_contributions. py_exec. Qed.

Lemma get_contributions_orders_by_score_witness :
  exists ranked : list (R * Contribution.t),
    Permutation (map snd ranked) (contributions two_contributions)
    /\ Forall
         (fun kc =>
            contribution_score (Contribution.id (snd kc)) two_contributions
            = (Ok (fst kc), two_contributions))
         ranked
    /\ StronglySorted (fun a b => fst b <= fst a) ranked
    /\ [Contribution.mk 2 1 "base" 1 0 0; Contribution.mk 1 1 "base" 1 0 0]
       = slice_from 0 (map snd ranked).
Proof.
  apply (proj1 (proj2 (get_contributions_orders_by_score 0 None None
                         two_contributions))).
  rewrite get_contributions_ranks_two_contributions. reflexivity.
Defined.

(** * One evaluation per user and contribution *)

(** What [for e in previous: DBSession.delete(e)] keeps. *)
Lemma delete_all (previous : list Evaluation.t) (s : DBSession) :
  for_each previous DBSession_delete s
  = (Ok tt,
     with_evaluations
       (filter
          (fun e =>
             negb (existsb
                     (fun d => Z.eqb (Evaluation.id e) (Evaluation.id d))
                     previous))
          (evaluations s)) s).
Proof.
  revert s. induction previous as [| d previous IH]; intro s;
    cbn [for_each].
  - unfold ret, with_evaluations. destruct s as [us cs es t]; cbn.
    f_equal. f_equal.
    induction es as [| e es IHes]; cbn; [reflexivity |].
    now rewrite <- IHes.
  - unfold bind at 1. unfold DBSession_delete at 1, modify at 1.
    rewrite IH. unfold with_evaluations; cbn. f_equal. f_equal.
    induction (evaluations s) as [| e es IHes]; cbn; [reflexivity |].
    destruct (Z.eqb (Evaluation.id e) (Evaluation.id d)); cbn.
    + exact IHes.
    + destruct (existsb _ previous); cbn; [exact IHes | now rewrite IHes].
Qed.

(** The evaluations that [create_evaluation] looks up before it deletes
    them: every evaluation of the pair is among them. *)
Lemma get_evaluations_of_pair (user contribution : Z) (s : DBSession)
  (e : Evaluation.t) :
  In e (evaluations s) ->
  Evaluation.user_id e = user ->
  Evaluation.contribution_id e = contribution ->
  In e (match fst (get_evaluations (Some contribution) (Some user) None s) with
        | Ok l => l
        | Raise _ => []
        end).
Proof.
  intros Hin Hu Hc. unfold get_evaluations, gets, truthy. cbn.
  assert (H1 : In e (if negb (Z.eqb contribution 0)
                     then filter
                            (fun e => Z.eqb (Evaluation.contribution_id e)
                                        contribution) (evaluations s)
                     else evaluations s)).
  { destruct (negb (Z.eqb contribution 0)); [| exact Hin].
    apply filter_In. split; [exact Hin | now apply Z.eqb_eq]. }
  destruct (negb (Z.eqb user 0)); [| exact H1].
  apply filter_In. split; [exact H1 | now apply Z.eqb_eq].
Qed.

Lemma length_filter_filter {A} (p q : A -> bool) (l : list A) :
  (List.length (filter p (filter q l)) <= List.length (filter p l))%nat.
Proof.
  induction l as [| x l IH]; cbn; [lia |].
  destruct (q x); cbn; destruct (p x); cbn; lia.
Qed.

Lemma same_evaluations_refl s : same_evaluations s s.
Proof. reflexivity. Qed.

Lemma same_evaluations_trans s1 s2 s3 :
  same_evaluations s1 s2 -> same_evaluations s2 s3 -> same_evaluations s1 s3.
Proof. unfold same_evaluations. congruence. Qed.

Lemma same_evaluations_user_update user f :
  maintains same_evaluations (user_update user f).
Proof. intro s. reflexivity. Qed.

Lemma same_evaluations_contribution_update c f :
  maintains same_evaluations (contribution_update c f).
Proof. intro s. reflexivity. Qed.

Lemma same_evaluations_new_User r t f :
  maintains same_evaluations (new_User r t f).
Proof. intro s. reflexivity. Qed.

Lemma same_evaluations_new_Contribution u t f :
  maintains same_evaluations (new_Contribution u t f).
Proof. intro s. reflexivity. Qed.

#[local] Hint Resolve same_evaluations_user_update
  same_evaluations_contribution_update same_evaluations_new_User
  same_evaluations_new_Contribution : session.

Ltac same_evaluations_split :=
  pose proof same_evaluations_refl; pose proof same_evaluations_trans;
  maintains_split.

Lemma same_evaluations_pay_evaluation_fee self evaluation :
  maintains same_evaluations (pay_evaluation_fee self evaluation).
Proof. unfold pay_evaluation_fee. same_evaluations_split. Qed.

Lemma same_evaluations_reward_evaluator_with_tokens self evaluation :
  maintains same_evaluations (reward_evaluator_with_tokens self evaluation).
Proof. unfold reward_evaluator_with_tokens. same_evaluations_split. Qed.

Lemma same_evaluations_reward_previous_evaluators self evaluation :
  maintains same_evaluations (reward_previous_evaluators self evaluation).
Proof.
  unfold reward_previous_evaluators, reward_previous_evaluator.
  same_evaluations_split.
Qed.

Lemma same_evaluations_reward_contributor self evaluation :
  maintains same_evaluations (reward_contributor self evaluation).
Proof. unfold reward_contributor. same_evaluations_split. Qed.

Lemma same_evaluations_create_user self t r f i :
  maintains same_evaluations (create_user self t r f i).
Proof.
  unfold create_user, get_user.
  destruct f, i; same_evaluations_split.
Qed.

Lemma same_evaluations_create_contribution self u t :
  maintains same_evaluations (create_contribution self u t).
Proof.
  unfold create_contribution.
  same_evaluations_split;
    repeat match goal with
           | |- maintains _ (match ?x with _ => _ end) => destruct x
           end; same_evaluations_split.
Qed.

(** [create_evaluation] either stops before it has written anything, or
    goes through the steps that follow the validation. *)
Lemma create_evaluation_cases self user contribution value s :
  create_evaluation self user contribution value s
  = after_validation self user contribution value s
  \/ exists e, create_evaluation self user contribution value s = (Raise e, s).
Proof.
  destruct (query_Contribution_get contribution s) as [c |] eqn:Hc.
  - destruct (lookup_type (CONTRIBUTION_TYPE self)
                (Contribution.contribution_type c)) as [ct |] eqn:Hct.
    + rewrite (create_evaluation_validates self user contribution value s c ct
                 Hc Hct).
      destruct (existsb _ _); [left | right; eexists]; reflexivity.
    + right. unfold create_evaluation.
      rewrite (bind_Ok _ (contribution_attr_Some _ Hc)).
      unfold is_evaluation_value_allowed, getitem_type. rewrite Hct.
      eexists. reflexivity.
  - right. unfold create_evaluation, contribution_attr, bind. rewrite Hc.
    eexists. reflexivity.
Qed.

Lemma same_evaluations_after_insertion self previously_voted evaluation :
  maintains same_evaluations
    (after_insertion self previously_voted evaluation).
Proof.
  pose proof same_evaluations_pay_evaluation_fee.
  pose proof same_evaluations_reward_evaluator_with_tokens.
  pose proof same_evaluations_reward_previous_evaluators.
  pose proof same_evaluations_reward_contributor.
  unfold after_insertion. same_evaluations_split.
Qed.

Lemma after_insertion_returns self previously_voted evaluation s r :
  fst (after_insertion self previously_voted evaluation s) = Ok r ->
  r = evaluation.
Proof.
  unfold after_insertion. intro Hr.
  do 4 (apply bind_Ok_inv in Hr; destruct Hr as [? [? [_ Hr]]]).
  inversion Hr. reflexivity.
Qed.

(** The steps that follow the validation: the evaluations of the pair are
    deleted, the new one is appended, and the accounting runs on that store. *)
Lemma after_validation_eq self user contribution value s :
  after_validation self user contribution value s
  = after_insertion self
      (match previous_evaluations user contribution s with
       | [] => false
       | _ :: _ => true
       end)
      (inserted_evaluation user contribution value s)
      (with_evaluations
         (kept_evaluations user contribution s
          ++ [inserted_evaluation user contribution value s]) s).
Proof.
  unfold after_validation.
  rewrite (bind_Ok _ (eq_refl : get_evaluations _ _ _ s = (Ok _, s))).
  rewrite (bind_Ok _ (eq_refl : get_evaluations _ _ _ s = (Ok _, s))).
  rewrite (bind_Ok _ (delete_all _ s)).
  reflexivity.
Qed.

Lemma after_validation_evaluations self user contribution value s :
  evaluations (snd (after_validation self user contribution value s))
  = kept_evaluations user contribution s
    ++ [inserted_evaluation user contribution value s].
Proof.
  rewrite after_validation_eq.
  rewrite (same_evaluations_after_insertion self _ _ _). reflexivity.
Qed.

Lemma filter_none {A} (p : A -> bool) (l : list A) :
  (forall x, In x l -> p x = false) -> filter p l = [].
Proof.
  induction l as [| x l IH]; cbn; intro H; [reflexivity |].
  rewrite (H x (or_introl eq_refl)). apply IH. intros y Hy. apply H. now right.
Qed.

Lemma kept_evaluations_spec user contribution s e :
  In e (kept_evaluations user contribution s) ->
  In e (evaluations s)
  /\ ~ (Evaluation.user_id e = user
        /\ Evaluation.contribution_id e = contribution).
Proof.
  unfold kept_evaluations. intro H. apply filter_In in H.
  destruct H as [Hin Hkeep]. split; [exact Hin |].
  intros [Hu Hc].
  pose proof (get_evaluations_of_pair user contribution s e Hin Hu Hc) as Hp.
  fold (previous_evaluations user contribution s) in Hp.
  apply negb_true_iff in Hkeep.
  assert (Hex : existsb
                  (fun d => Z.eqb (Evaluation.id e) (Evaluation.id d))
                  (previous_evaluations user contribution s) = true).
  { apply existsb_exists. exists e. split; [exact Hp | apply Z.eqb_refl]. }
  congruence.
Qed.

Lemma kept_evaluations_by_pair user contribution s :
  filter
    (fun e =>
       Z.eqb (Evaluation.user_id e) user
       && Z.eqb (Evaluation.contribution_id e) contribution)
    (kept_evaluations user contribution s) = [].
Proof.
  apply filter_none. intros e He.
  apply kept_evaluations_spec in He. destruct He as [_ Hne].
  destruct (Z.eqb_spec (Evaluation.user_id e) user);
    destruct (Z.eqb_spec (Evaluation.contribution_id e) contribution);
    cbn; try reflexivity.
  exfalso. apply Hne. now split.
Qed.

Lemma at_most_one_create_evaluation self user contribution value s :
  at_most_one_evaluation s ->
  at_most_one_evaluation (snd (create_evaluation self user contribution value s)).
Proof.
  intro Hs.
  destruct (create_evaluation_cases self user contribution value s)
    as [-> | [e ->]]; [| exact Hs].
  intros u c. unfold evaluations_by.
  rewrite after_validation_evaluations, filter_app.
  destruct (Z.eqb_spec u user) as [-> | Hu];
    [destruct (Z.eqb_spec c contribution) as [-> | Hc] |].
  - rewrite kept_evaluations_by_pair. cbn. rewrite !Z.eqb_refl. cbn. lia.
  - cbn [filter inserted_evaluation Evaluation.user_id
           Evaluation.contribution_id].
    destruct (Z.eqb_spec contribution c); [congruence |].
    rewrite andb_false_r, app_nil_r.
    etransitivity; [apply length_filter_filter | apply (Hs user c)].
  - cbn [filter inserted_evaluation Evaluation.user_id
           Evaluation.contribution_id].
    destruct (Z.eqb_spec user u); [congruence |].
    cbn [andb]. rewrite app_nil_r.
    etransitivity; [apply length_filter_filter | apply (Hs u c)].
Qed.

Lemma at_most_one_run_call self c s :
  at_most_one_evaluation s -> at_most_one_evaluation (run_call self c s).
Proof.
  intro Hs. destruct c as [t r f i | u t | u c v]; cbn [run_call].
  - intros u c. unfold evaluations_by.
    rewrite (same_evaluations_create_user self t r f i s). apply Hs.
  - intros u' c. unfold evaluations_by.
    rewrite (same_evaluations_create_contribution self u t s). apply Hs.
  - now apply at_most_one_create_evaluation.
Qed.

Lemma at_most_one_run_calls self history s :
  at_most_one_evaluation s ->
  at_most_one_evaluation (run_calls self history s).
Proof.
  revert s. induction history as [| c history IH]; intros s Hs; cbn.
  - exact Hs.
  - apply IH. now apply at_most_one_run_call.
Qed.

(** C2. Along any history of calls that starts from a store with at most one
    evaluation per user and contribution, there is at most one at every
    point.  And when [create_evaluation(u, c, v)] returns, the evaluations of
    [u] on [c] are exactly the one it returns, whose value is [v]: what is
    stored is the earlier evaluations that were not of this pair, followed by
    the new one. *)
Theorem one_evaluation_per_user_and_contribution :
  forall (self : Contract) (history : list call) (s0 : DBSession),
    at_most_one_evaluation s0 ->
    at_most_one_evaluation (run_calls self history s0)
    /\ forall (user contribution value : Z) (evaluation : Evaluation.t)
              (s' : DBSession),
         create_evaluation self user contribution value
           (run_calls self history s0) = (Ok evaluation, s') ->
         evaluations_by user contribution s' = [evaluation]
         /\ Evaluation.value evaluation = value
         /\ Evaluation.user_id evaluation = user
         /\ Evaluation.contribution_id evaluation = contribution
         /\ at_most_one_evaluation s'
         /\ exists kept,
              evaluations s' = kept ++ [evaluation]
              /\ forall e,
                   In e kept ->
                   In e (evaluations (run_calls self history s0))
                   /\ ~ (Evaluation.user_id e = user
                         /\ Evaluation.contribution_id e = contribution).
Proof.
  intros self history s0 H0.
  pose proof (at_most_one_run_calls self history s0 H0) as Hs.
  split; [exact Hs |].
  set (s := run_calls self history s0) in *.
  intros user contribution value evaluation s' Hrun.
  pose proof (at_most_one_create_evaluation self user contribution value s Hs)
    as Hone.
  rewrite Hrun in Hone. cbn [snd] in Hone.
  destruct (create_evaluation_cases self user contribution value s)
    as [Hcase | [e Hcase]]; [| congruence].
  rewrite Hcase in Hrun.
  pose proof (after_validation_evaluations self user contribution value s)
    as Hev.
  rewrite Hrun in Hev. cbn [snd] in Hev.
  assert (Hr : evaluation = inserted_evaluation user contribution value s).
  { rewrite after_validation_eq in Hrun.
    eapply after_insertion_returns. rewrite Hrun. reflexivity. }
  subst evaluation.
  split; [| repeat split; try reflexivity; try exact Hone].
  - unfold evaluations_by. rewrite Hev, filter_app.
    rewrite kept_evaluations_by_pair. cbn. rewrite !Z.eqb_refl. reflexivity.
  - exists (kept_evaluations user contribution s).
    split; [exact Hev |]. intros e He.
    now apply kept_evaluations_spec.
Qed.

Example first_upvote_of_four_users :
  create_evaluation BaseContract 2 1 1 four_users
  = (Ok (Evaluation.mk 1 2 1 1), four_users_one_upvote).
Proof. unfold four_users, four_users_one_upvote. py_exec. Qed.

Example revote_replaces_the_evaluation :
  exists s',
    create_evaluation BaseContract 2 1 0 four_users_one_upvote
    = (Ok (Evaluation.mk 1 2 1 0), s')
    /\ evaluations s' = [Evaluation.mk 1 2 1 0].
Proof.
  unfold four_users_one_upvote. eexists. split; [ev | reflexivity].
Qed.

Lemma one_evaluation_per_user_and_contribution_witness :
  at_most_one_evaluation
    (run_calls BaseContract [Create_evaluation 2 1 1] four_users)
  /\ forall (user contribution value : Z) (evaluation : Evaluation.t)
            (s' : DBSession),
       create_evaluation BaseContract user contribution value
         (run_calls BaseContract [Create_evaluation 2 1 1] four_users)
       = (Ok evaluation, s') ->
       evaluations_by user contribution s' = [evaluation]
       /\ Evaluation.value evaluation = value
       /\ Evaluation.user_id evaluation = user
       /\ Evaluation.contribution_id evaluation = contribution
       /\ at_most_one_evaluation s'
       /\ exists kept,
            evaluations s' = kept ++ [evaluation]
            /\ forall e,
                 In e kept ->
                 In e (evaluations
                         (run_calls BaseContract [Create_evaluation 2 1 1]
                            four_users))
                 /\ ~ (Evaluation.user_id e = user
                       /\ Evaluation.contribution_id e = contribution).
Proof.
  apply (one_evaluation_per_user_and_contribution BaseContract
           [Create_evaluation 2 1 1] four_users).
  intros user contribution. cbn. lia.
Defined.

(** * The evaluation fee *)

Lemma user_attr_inv {A} (f : User.t -> A) user s a s1 :
  user_attr user f s = (Ok a, s1) ->
  s1 = s /\ exists row, query_User_get user s = Some row /\ a = f row.
Proof.
  unfold user_attr. destruct (query_User_get user s) as [row |];
    intro H; inversion H. split; [reflexivity | now exists row].
Qed.

Lemma contribution_attr_inv {A} (f : Contribution.t -> A) c s a s1 :
  contribution_attr c f s = (Ok a, s1) ->
  s1 = s /\ exists row, query_Contribution_get c s = Some row /\ a = f row.
Proof.
  unfold contribution_attr. destruct (query_Contribution_get c s) as [row |];
    intro H; inversion H. split; [reflexivity | now exists row].
Qed.

Lemma lift_inv {A} (r : result A) s a s1 :
  lift r s = (Ok a, s1) -> s1 = s /\ r = Ok a.
Proof. unfold lift. intro H. inversion H. now split. Qed.

Lemma truediv_inv x y q : truediv x y = Ok q -> y <> 0 /\ q = x / y.
Proof.
  unfold truediv. destruct (Reqb y 0) eqn:E; intro H; inversion H.
  split; [| reflexivity]. intro Hy. apply Reqb_spec in Hy. congruence.
Qed.

Lemma not_None_inv x r : not_None x = Ok r -> x = Some r.
Proof. destruct x; intro H; inversion H. reflexivity. Qed.

Lemma getitem_type_inv self t ct :
  getitem_type self t = Ok ct ->
  lookup_type (CONTRIBUTION_TYPE self) t = Some ct.
Proof.
  unfold getitem_type. destruct (lookup_type _ _); intro H; inversion H.
  reflexivity.
Qed.

Lemma read_only_engaged_reputation c : read_only (engaged_reputation c).
Proof.
  apply read_only_maintains, maintains_engaged_reputation; congruence.
Qed.

Lemma read_only_inv {A} (m : M A) s a s1 :
  read_only m -> m s = (Ok a, s1) -> s1 = s.
Proof. intros Hm H. specialize (Hm s). rewrite H in Hm. exact Hm. Qed.

(** Step 5 on its own: what [pay_evaluation_fee] reads, and the one write it
    makes. *)
Lemma pay_evaluation_fee_spec self evaluation s s2 :
  pay_evaluation_fee self evaluation s = (Ok tt, s2) ->
  exists u engaged total power c ct,
    query_User_get (Evaluation.user_id evaluation) s = Some u
    /\ engaged_reputation (Evaluation.contribution_id evaluation) s
       = (Ok engaged, s)
    /\ sql_sum (map User.reputation (users s)) = Some total
    /\ total <> 0
    /\ float_pow (engaged / total) (BETA self) = Ok power
    /\ query_Contribution_get (Evaluation.contribution_id evaluation) s
       = Some c
    /\ lookup_type (CONTRIBUTION_TYPE self) (Contribution.contribution_type c)
       = Some ct
    /\ s2 = snd (user_update (Evaluation.user_id evaluation)
                   (set_reputation
                      (User.reputation u
                       - stake ct * (User.reputation u * (1 - power)))) s).
Proof.
  unfold pay_evaluation_fee. cbv zeta. intro H.
  apply bind_inv in H. destruct H as [r0 [s_1 [Hu0 H]]].
  apply user_attr_inv in Hu0. destruct Hu0 as [-> _].
  apply bind_inv in H. destruct H as [e0 [s_1 [He0 H]]].
  apply (read_only_inv _ _ _ _ (read_only_engaged_reputation _)) in He0.
  subst s_1.
  apply bind_inv in H. destruct H as [engaged [s_1 [He H]]].
  pose proof (read_only_inv _ _ _ _ (read_only_engaged_reputation _) He).
  subst s_1.
  apply bind_inv in H. destruct H as [r [s_1 [Hu H]]].
  apply user_attr_inv in Hu. destruct Hu as [-> [u [Hu ->]]].
  apply bind_inv in H. destruct H as [t0 [s_1 [Ht H]]].
  unfold total_reputation, gets in Ht. inversion Ht. subst t0 s_1. clear Ht.
  apply bind_inv in H. destruct H as [total [s_1 [Ht H]]].
  apply lift_inv in Ht. destruct Ht as [-> Ht]. apply not_None_inv in Ht.
  apply bind_inv in H. destruct H as [ratio [s_1 [Hq H]]].
  apply lift_inv in Hq. destruct Hq as [-> Hq]. apply truediv_inv in Hq.
  destruct Hq as [Hnz ->].
  apply bind_inv in H. destruct H as [power [s_1 [Hp H]]].
  apply lift_inv in Hp. destruct Hp as [-> Hp].
  apply bind_inv in H. destruct H as [t [s_1 [Hc H]]].
  apply contribution_attr_inv in Hc. destruct Hc as [-> [c [Hc ->]]].
  apply bind_inv in H. destruct H as [ct [s_1 [Hct H]]].
  apply lift_inv in Hct. destruct Hct as [-> Hct].
  apply getitem_type_inv in Hct.
  apply bind_inv in H. destruct H as [r' [s_1 [Hu' H]]].
  apply user_attr_inv in Hu'. destruct Hu' as [-> [u' [Hu' ->]]].
  rewrite Hu in Hu'. inversion Hu'. subst u'.
  exists u, engaged, total, power, c, ct.
  repeat split; try assumption.
  unfold user_update, modify in *. inversion H. reflexivity.
Qed.

Lemma sum_reputation_snoc es e s x :
  sum_reputation (es ++ [e]) s = (Ok x, s) ->
  exists others r,
    sum_reputation es s = (Ok others, s)
    /\ reputation_of s (Evaluation.user_id e) = Some r
    /\ x = others + r.
Proof.
  revert x. induction es as [| a es IH]; intros x H; cbn [app sum_reputation] in H.
  - apply bind_inv in H. destruct H as [r [s1 [Hr H]]].
    apply user_attr_inv in Hr. destruct Hr as [-> [row [Hrow ->]]].
    unfold bind, ret in H. cbn in H. inversion H.
    exists 0, (User.reputation row). unfold reputation_of. rewrite Hrow.
    repeat split. lra.
  - apply bind_inv in H. destruct H as [ra [s1 [Hra H]]].
    pose proof Hra as Hra'.
    apply user_attr_inv in Hra. destruct Hra as [-> _].
    apply bind_inv in H. destruct H as [acc [s1 [Hacc H]]].
    assert (s1 = s).
    { eapply read_only_inv; [| exact Hacc].
      apply read_only_maintains, maintains_sum_reputation; congruence. }
    subst s1. destruct (IH _ Hacc) as [others [r [Ho [Hr ->]]]].
    unfold ret in H. inversion H.
    exists (ra + others), r. repeat split; [| exact Hr | lra].
    cbn [sum_reputation]. rewrite (bind_Ok _ Hra'), (bind_Ok _ Ho).
    reflexivity.
Qed.

(** C6. Whenever [create_evaluation] returns, step 5 has run, first vote or
    not: in the store [s1] that holds the new evaluation, with [r] the
    reputation of the evaluator, [engaged] the engaged reputation of the
    contribution (the reputation of the earlier evaluators plus [r]) and
    [total] the sum of all reputations, the evaluator's reputation becomes
    [r - stake * r * (1 - (engaged / total) ** BETA)], nothing else changes,
    and steps 6 and 7 run on the result.  [BETA] is 0.5 in the base
    contract. *)
Theorem evaluation_fee_is_paid :
  forall (self : Contract) (user contribution value : Z) (s : DBSession)
         (evaluation : Evaluation.t) (s' : DBSession),
    create_evaluation self user contribution value s = (Ok evaluation, s') ->
    exists (s1 s2 : DBSession) (u : User.t) (others engaged total power : R)
           (c : Contribution.t) (ct : ContributionType),
      evaluations s1 = kept_evaluations user contribution s ++ [evaluation]
      /\ (REWARD_TOKENS_TO_EVALUATORS self = false ->
          users s1 = users s /\ contributions s1 = contributions s)
      /\ query_User_get user s1 = Some u
      /\ engaged_reputation contribution s1 = (Ok engaged, s1)
      /\ sum_reputation
           (filter (fun e => Z.eqb (Evaluation.contribution_id e) contribution)
              (kept_evaluations user contribution s)) s1
         = (Ok others, s1)
      /\ engaged = others + User.reputation u
      /\ sql_sum (map User.reputation (users s1)) = Some total
      /\ total <> 0
      /\ float_pow (engaged / total) (BETA self) = Ok power
      /\ query_Contribution_get contribution s1 = Some c
      /\ lookup_type (CONTRIBUTION_TYPE self)
           (Contribution.contribution_type c) = Some ct
      /\ pay_evaluation_fee self evaluation s1 = (Ok tt, s2)
      /\ reputation_of s2 user
         = Some (User.reputation u
                 - stake ct * User.reputation u * (1 - power))
      /\ tokens_of s2 user = Some (User.tokens u)
      /\ (forall w, w <> user -> query_User_get w s2 = query_User_get w s1)
      /\ contributions s2 = contributions s1
      /\ evaluations s2 = evaluations s1
      /\ (reward_previous_evaluators self evaluation ;;
          reward_contributor self evaluation ;;
          ret evaluation) s2 = (Ok evaluation, s')
      /\ BETA BaseContract = 0.5.
Proof.
  intros self user contribution value s evaluation s' Hrun.
  destruct (create_evaluation_cases self user contribution value s)
    as [Hcase | [e Hcase]]; [| congruence].
  rewrite Hcase, after_validation_eq in Hrun.
  assert (Hr : evaluation = inserted_evaluation user contribution value s).
  { eapply after_insertion_returns. rewrite Hrun. reflexivity. }
  rewrite <- Hr in Hrun.
  unfold after_insertion in Hrun.
  apply bind_inv in Hrun. destruct Hrun as [[] [s1 [H1 Hrun]]].
  pose proof Hrun as Htail.
  apply bind_inv in Hrun. destruct Hrun as [[] [s2 [H2 Hrun]]].
  rewrite (bind_Ok _ H2) in Htail.
  assert (Hev1 : evaluations s1
                 = kept_evaluations user contribution s ++ [evaluation]).
  { assert (Hm : maintains same_evaluations
                   (if REWARD_TOKENS_TO_EVALUATORS self
                    then if negb match previous_evaluations user contribution s
                                 with [] => false | _ :: _ => true end
                         then reward_evaluator_with_tokens self evaluation
                         else ret tt
                    else ret tt)).
    { destruct (REWARD_TOKENS_TO_EVALUATORS self); [destruct (negb _) |];
        first [ apply same_evaluations_reward_evaluator_with_tokens
              | apply maintains_ret, same_evaluations_refl ]. }
    specialize (Hm (with_evaluations
                      (kept_evaluations user contribution s ++ [evaluation])
                      s)).
    rewrite H1 in Hm. exact Hm. }
  destruct (pay_evaluation_fee_spec self evaluation s1 s2 H2)
    as [u [engaged [total [power [c [ct
         [Hu [Heng [Htot [Hnz [Hpow [Hc [Hct Hs2]]]]]]]]]]]]].
  assert (Hids : Evaluation.user_id evaluation = user
                 /\ Evaluation.contribution_id evaluation = contribution).
  { rewrite Hr. split; reflexivity. }
  destruct Hids as [Huid Hcid]. rewrite Huid, Hcid in *.
  assert (Hsum : exists others,
             sum_reputation
               (filter
                  (fun e => Z.eqb (Evaluation.contribution_id e) contribution)
                  (kept_evaluations user contribution s)) s1
             = (Ok others, s1)
             /\ engaged = others + User.reputation u).
  { unfold engaged_reputation, contribution_evaluations in Heng.
    rewrite (bind_Ok _
               (bind_Ok _ (contribution_attr_Some Contribution.id Hc))) in Heng.
    unfold gets in Heng. rewrite Hev1, filter_app in Heng.
    cbn [filter] in Heng. rewrite Hcid, Z.eqb_refl in Heng.
    apply sum_reputation_snoc in Heng.
    destruct Heng as [others [r [Ho [Hrep ->]]]].
    exists others. split; [exact Ho |].
    unfold reputation_of in Hrep. rewrite Huid, Hu in Hrep.
    inversion Hrep. reflexivity. }
  destruct Hsum as [others [Hothers Hengaged]].
  exists s1, s2, u, others, engaged, total, power, c, ct.
  split; [exact Hev1 |]. split.
  { intro Hflag. rewrite Hflag in H1. inversion H1. split; reflexivity. }
  split; [exact Hu |]. split; [exact Heng |]. split; [exact Hothers |].
  split; [exact Hengaged |]. split; [exact Htot |]. split; [exact Hnz |].
  split; [exact Hpow |]. split; [exact Hc |]. split; [exact Hct |].
  split; [exact H2 |].
  assert (Hq : forall w,
             query_User_get w s2
             = if Z.eqb w user
               then option_map
                      (set_reputation
                         (User.reputation u
                          - stake ct * (User.reputation u * (1 - power))))
                      (query_User_get w s1)
               else query_User_get w s1).
  { intro w. rewrite Hs2. apply query_User_get_update. reflexivity. }
  split.
  { unfold reputation_of. rewrite Hq, Z.eqb_refl, Hu. cbn. f_equal. ring. }
  split.
  { unfold tokens_of. rewrite Hq, Z.eqb_refl, Hu. reflexivity. }
  split.
  { intros w Hw. rewrite Hq.
    destruct (Z.eqb_spec w user); [contradiction | reflexivity]. }
  split; [rewrite Hs2; reflexivity |].
  split; [rewrite Hs2; reflexivity |].
  split; [exact Htail |].
  reflexivity.
Qed.

Lemma evaluation_fee_is_paid_witness :
  exists (s1 s2 : DBSession) (u : User.t) (others engaged total power : R)
         (c : Contribution.t) (ct : ContributionType),
    evaluations s1
    = kept_evaluations 2 1 four_users ++ [Evaluation.mk 1 2 1 1]
    /\ (REWARD_TOKENS_TO_EVALUATORS BaseContract = false ->
        users s1 = users four_users
        /\ contributions s1 = contributions four_users)
    /\ query_User_get 2 s1 = Some u
    /\ engaged_reputation 1 s1 = (Ok engaged, s1)
    /\ sum_reputation
         (filter (fun e => Z.eqb (Evaluation.contribution_id e) 1)
            (kept_evaluations 2 1 four_users)) s1
       = (Ok others, s1)
    /\ engaged = others + User.reputation u
    /\ sql_sum (map User.reputation (users s1)) = Some total
    /\ total <> 0
    /\ float_pow (engaged / total) (BETA BaseContract) = Ok power
    /\ query_Contribution_get 1 s1 = Some c
    /\ lookup_type (CONTRIBUTION_TYPE BaseContract)
         (Contribution.contribution_type c) = Some ct
    /\ pay_evaluation_fee BaseContract (Evaluation.mk 1 2 1 1) s1 = (Ok tt, s2)
    /\ reputation_of s2 2
       = Some (User.reputation u - stake ct * User.reputation u * (1 - power))
    /\ tokens_of s2 2 = Some (User.tokens u)
    /\ (forall w, w <> 2%Z -> query_User_get w s2 = query_User_get w s1)
    /\ contributions s2 = contributions s1
    /\ evaluations s2 = evaluations s1
    /\ (reward_previous_evaluators BaseContract (Evaluation.mk 1 2 1 1) ;;
        reward_contributor BaseContract (Evaluation.mk 1 2 1 1) ;;
        ret (Evaluation.mk 1 2 1 1)) s2
       = (Ok (Evaluation.mk 1 2 1 1), four_users_one_upvote)
    /\ BETA BaseContract = 0.5.
Proof.
  exact (evaluation_fee_is_paid BaseContract 2 1 1 four_users
           (Evaluation.mk 1 2 1 1) four_users_one_upvote
           first_upvote_of_four_users).
Defined.

(** * The high-water mark of the score *)

Lemma find_app_Some {A} (p : A -> bool) (l l' : list A) (x : A) :
  find p l = Some x -> find p (l ++ l') = Some x.
Proof.
  induction l as [| a l IH]; cbn; [discriminate |].
  destruct (p a); [trivial | exact IH].
Qed.

Lemma max_score_grows_refl s : max_score_grows s s.
Proof. intros i c H. exists c. split; [exact H | lra]. Qed.

Lemma max_score_grows_trans s1 s2 s3 :
  max_score_grows s1 s2 -> max_score_grows s2 s3 -> max_score_grows s1 s3.
Proof.
  intros H12 H23 i c H. destruct (H12 i c H) as [c2 [H2 Hle2]].
  destruct (H23 i c2 H2) as [c3 [H3 Hle3]]. exists c3. split; [exact H3 | lra].
Qed.

Lemma same_contributions_grows s s' :
  same_contributions s s' -> max_score_grows s s'.
Proof.
  unfold same_contributions. intros Heq i c H. exists c.
  unfold query_Contribution_get in *. rewrite Heq. split; [exact H | lra].
Qed.

Lemma max_score_grows_user_update user f :
  maintains max_score_grows (user_update user f).
Proof. intro s. apply same_contributions_grows. reflexivity. Qed.

Lemma max_score_grows_new_User r t f :
  maintains max_score_grows (new_User r t f).
Proof. intro s. apply same_contributions_grows. reflexivity. Qed.

Lemma max_score_grows_new_Evaluation u c v :
  maintains max_score_grows (new_Evaluation u c v).
Proof. intro s. apply same_contributions_grows. reflexivity. Qed.

Lemma max_score_grows_delete e :
  maintains max_score_grows (DBSession_delete e).
Proof. intro s. apply same_contributions_grows. reflexivity. Qed.

Lemma max_score_grows_new_Contribution u t f :
  maintains max_score_grows (new_Contribution u t f).
Proof.
  intros s i c H. exists c. split; [| lra].
  unfold query_Contribution_get in *. cbn.
  now apply find_app_Some.
Qed.

(** Writing a [max_score] that is not lower, or another field. *)
Lemma max_score_grows_contribution_update contribution f s :
  (forall c, Contribution.id (f c) = Contribution.id c) ->
  (forall c,
     query_Contribution_get contribution s = Some c ->
     Contribution.max_score c <= Contribution.max_score (f c)) ->
  max_score_grows s (snd (contribution_update contribution f s)).
Proof.
  intros Hid Hf i c H. unfold query_Contribution_get in *. cbn.
  rewrite find_contribution_update by exact Hid.
  destruct (Z.eqb_spec i contribution) as [-> | _].
  - rewrite H. cbn. exists (f c). split; [reflexivity | now apply Hf].
  - exists c. split; [exact H | lra].
Qed.

Lemma max_score_grows_set_token_fund contribution x :
  maintains max_score_grows
    (contribution_update contribution (set_token_fund x)).
Proof.
  intro s. apply max_score_grows_contribution_update.
  - reflexivity.
  - intros c _. cbn. lra.
Qed.

#[local] Hint Resolve max_score_grows_user_update max_score_grows_new_User
  max_score_grows_new_Evaluation max_score_grows_delete
  max_score_grows_new_Contribution max_score_grows_set_token_fund : session.

Ltac max_score_split :=
  pose proof max_score_grows_refl; pose proof max_score_grows_trans;
  maintains_split.

Lemma max_score_grows_pay_evaluation_fee self evaluation :
  maintains max_score_grows (pay_evaluation_fee self evaluation).
Proof. unfold pay_evaluation_fee. max_score_split. Qed.

Lemma max_score_grows_reward_evaluator_with_tokens self evaluation :
  maintains max_score_grows (reward_evaluator_with_tokens self evaluation).
Proof. unfold reward_evaluator_with_tokens. max_score_split. Qed.

Lemma max_score_grows_reward_previous_evaluators self evaluation :
  maintains max_score_grows (reward_previous_evaluators self evaluation).
Proof.
  unfold reward_previous_evaluators, reward_previous_evaluator.
  max_score_split.
Qed.

Lemma max_score_grows_create_user self t r f i :
  maintains max_score_grows (create_user self t r f i).
Proof. unfold create_user, get_user. destruct f, i; max_score_split. Qed.

Lemma max_score_grows_create_contribution self u t :
  maintains max_score_grows (create_contribution self u t).
Proof.
  unfold create_contribution.
  max_score_split;
    repeat match goal with
           | |- maintains _ (match ?x with _ => _ end) => destruct x
           end; max_score_split.
Qed.

Lemma maintains_at_bind_read (rel : DBSession -> DBSession -> Prop)
  {A B} (m : M A) (k : A -> M B) (s : DBSession) :
  (forall s, rel s s) ->
  read_only m ->
  (forall a, m s = (Ok a, s) -> rel s (snd (k a s))) ->
  rel s (snd (bind m k s)).
Proof.
  intros Hrefl Hm Hk. unfold bind. specialize (Hm s).
  destruct (m s) as [[a | e] s1] eqn:E; cbn in *; subst s1.
  - apply Hk. reflexivity.
  - apply Hrefl.
Qed.

Lemma maintains_at_bind (rel : DBSession -> DBSession -> Prop)
  {A B} (m : M A) (k : A -> M B) (s : DBSession) :
  (forall s1 s2 s3, rel s1 s2 -> rel s2 s3 -> rel s1 s3) ->
  rel s (snd (m s)) ->
  (forall a, maintains rel (k a)) ->
  rel s (snd (bind m k s)).
Proof.
  intros Htrans Hm Hk. unfold bind.
  destruct (m s) as [[a | e] s1]; cbn in *.
  - eapply Htrans; [exact Hm | apply Hk].
  - exact Hm.
Qed.

Lemma read_only_contribution_attr {A} c (f : Contribution.t -> A) :
  read_only (contribution_attr c f).
Proof. apply read_only_maintains, maintains_contribution_attr; congruence. Qed.

Lemma read_only_user_attr {A} u (f : User.t -> A) : read_only (user_attr u f).
Proof. apply read_only_maintains, maintains_user_attr; congruence. Qed.

Lemma read_only_lift {A} (r : result A) : read_only (lift r).
Proof. intro s. reflexivity. Qed.

Lemma read_only_contribution_upvotes c : read_only (contribution_upvotes c).
Proof.
  apply read_only_maintains, maintains_contribution_upvotes; congruence.
Qed.

(** The choice of [rewardBase] in [reward_contributor] only reads. *)
Lemma read_only_reward_base self contribution (ct : ContributionType)
  (max_score currentScore rewardBase : R) :
  read_only
    (if Rleb (reward_threshold ct) max_score
     then ret (currentScore - max_score)
     else
       contribution_type <-
         contribution_attr contribution Contribution.contribution_type ;;
       ct <- lift (getitem_type self contribution_type) ;;
       if Rltb (reward_threshold ct) currentScore
       then ret currentScore
       else ret rewardBase).
Proof.
  apply read_only_maintains.
  assert (Hr : forall s : DBSession, s = s) by reflexivity.
  assert (Ht : forall s1 s2 s3 : DBSession, s2 = s1 -> s3 = s2 -> s3 = s1)
    by congruence.
  maintains_split.
Qed.

(** Paying the contributor and the contributor's referrer. *)
Lemma maintains_contributor_reward (rel : DBSession -> DBSession -> Prop)
  self contribution contributor (rewardBase : R) :
  (forall s, rel s s) ->
  (forall s1 s2 s3, rel s1 s2 -> rel s2 s3 -> rel s1 s3) ->
  (forall u f, maintains rel (user_update u f)) ->
  maintains rel
    (if Rltb 0 rewardBase then
       contribution_type <-
         contribution_attr contribution Contribution.contribution_type ;;
       ct <- lift (getitem_type self contribution_type) ;;
       let token_reward := token_reward_factor ct * rewardBase in
       contribution_type <-
         contribution_attr contribution Contribution.contribution_type ;;
       ct <- lift (getitem_type self contribution_type) ;;
       let reputationReward := reputation_reward_factor ct * rewardBase in
       tokens <- user_attr contributor User.tokens ;;
       user_update contributor (set_tokens (tokens + token_reward)) ;;
       reputation <- user_attr contributor User.reputation ;;
       user_update contributor (set_reputation (reputation + reputationReward)) ;;
       referrer <- user_referrer contributor ;;
       match referrer with
       | Some referrer =>
           tokens <- user_attr referrer User.tokens ;;
           user_update referrer
             (set_tokens (tokens + token_reward * REFERRAL_REWARD_FRACTION self)) ;;
           reputation <- user_attr referrer User.reputation ;;
           user_update referrer
             (set_reputation
                (reputation + reputationReward * REFERRAL_REWARD_FRACTION self))
       | None => ret tt
       end
     else ret tt).
Proof.
  intros Hr Ht Hu. maintains_split; apply Hu.
Qed.

Lemma max_score_grows_reward_contributor self evaluation :
  maintains max_score_grows (reward_contributor self evaluation).
Proof.
  intro s. unfold reward_contributor.
  destruct (Z.eqb (Evaluation.value evaluation) 0);
    [apply max_score_grows_refl |].
  cbv zeta.
  apply maintains_at_bind_read;
    [apply max_score_grows_refl | apply read_only_contribution_attr |].
  intros contributor _.
  apply maintains_at_bind_read;
    [apply max_score_grows_refl | apply read_only_contribution_upvotes |].
  intros currentScore _.
  apply maintains_at_bind_read;
    [apply max_score_grows_refl | apply read_only_contribution_attr |].
  intros max_score Hmax.
  apply contribution_attr_inv in Hmax. destruct Hmax as [_ [row [Hrow ->]]].
  apply maintains_at_bind; [apply max_score_grows_trans | |].
  - destruct (Rltb (Contribution.max_score row) currentScore) eqn:E;
      [| apply max_score_grows_refl].
    apply Rltb_spec in E.
    apply maintains_at_bind_read;
      [apply max_score_grows_refl | apply read_only_contribution_attr |].
    intros t _.
    apply maintains_at_bind_read;
      [apply max_score_grows_refl | apply read_only_lift |].
    intros ct _.
    apply maintains_at_bind_read;
      [apply max_score_grows_refl | apply read_only_reward_base |].
    intros rewardBase _.
    unfold bind, ret. cbn.
    apply (max_score_grows_contribution_update
             (Evaluation.contribution_id evaluation)
             (set_max_score currentScore) s).
    + reflexivity.
    + intros c Hc. rewrite Hrow in Hc. inversion Hc. subst c. cbn. lra.
  - intro rewardBase.
    apply maintains_contributor_reward;
      [apply max_score_grows_refl | apply max_score_grows_trans
      | apply max_score_grows_user_update].
Qed.

Lemma max_score_grows_create_evaluation self user contribution value :
  maintains max_score_grows (create_evaluation self user contribution value).
Proof.
  pose proof max_score_grows_pay_evaluation_fee.
  pose proof max_score_grows_reward_evaluator_with_tokens.
  pose proof max_score_grows_reward_previous_evaluators.
  pose proof max_score_grows_reward_contributor.
  unfold create_evaluation. max_score_split.
Qed.

Lemma max_score_grows_run_calls self history s :
  max_score_grows s (run_calls self history s).
Proof.
  revert s. induction history as [| c history IH]; intro s; cbn.
  - apply max_score_grows_refl.
  - eapply max_score_grows_trans; [| apply IH].
    destruct c; cbn.
    + apply max_score_grows_create_user.
    + apply max_score_grows_create_contribution.
    + apply max_score_grows_create_evaluation.
Qed.

Lemma same_contributions_refl s : same_contributions s s.
Proof. reflexivity. Qed.

Lemma same_contributions_trans s1 s2 s3 :
  same_contributions s1 s2 -> same_contributions s2 s3 ->
  same_contributions s1 s3.
Proof. unfold same_contributions. congruence. Qed.

Lemma same_contributions_user_update u f :
  maintains same_contributions (user_update u f).
Proof. intro s. reflexivity. Qed.

(** Step 7 for a value other than 0, when it returns: the stored
    [max_score] becomes the larger of itself and the upvote ratio. *)
Lemma reward_contributor_max_score self evaluation s s' :
  Z.eqb (Evaluation.value evaluation) 0 = false ->
  reward_contributor self evaluation s = (Ok tt, s') ->
  exists score row,
    contribution_upvotes (Evaluation.contribution_id evaluation) s
    = (Ok score, s)
    /\ query_Contribution_get (Evaluation.contribution_id evaluation) s
       = Some row
    /\ query_Contribution_get (Evaluation.contribution_id evaluation) s'
       = Some (if Rltb (Contribution.max_score row) score
               then set_max_score score row
               else row).
Proof.
  intros Hv H. unfold reward_contributor in H. rewrite Hv in H. cbv zeta in H.
  apply bind_inv in H. destruct H as [contributor [s_1 [Hc H]]].
  apply contribution_attr_inv in Hc. destruct Hc as [-> _].
  apply bind_inv in H. destruct H as [score [s_1 [Hscore H]]].
  pose proof (read_only_inv _ _ _ _ (read_only_contribution_upvotes _) Hscore).
  subst s_1.
  apply bind_inv in H. destruct H as [ms [s_1 [Hms H]]].
  apply contribution_attr_inv in Hms. destruct Hms as [-> [row [Hrow ->]]].
  apply bind_inv in H. destruct H as [rb [s_a [HRB HK]]].
  exists score, row. split; [exact Hscore |]. split; [exact Hrow |].
  assert (Hsame : contributions s' = contributions s_a).
  { change (same_contributions s_a (snd (Ok tt, s'))). rewrite <- HK.
    apply (maintains_contributor_reward same_contributions self
             (Evaluation.contribution_id evaluation) contributor rb
             same_contributions_refl same_contributions_trans
             same_contributions_user_update s_a). }
  unfold query_Contribution_get in *. rewrite Hsame. clear HK Hsame.
  destruct (Rltb (Contribution.max_score row) score).
  - apply bind_inv in HRB. destruct HRB as [t [s_1 [Ht HRB]]].
    apply contribution_attr_inv in Ht. destruct Ht as [-> _].
    apply bind_inv in HRB. destruct HRB as [ct [s_1 [Hct HRB]]].
    apply lift_inv in Hct. destruct Hct as [-> _].
    apply bind_inv in HRB. destruct HRB as [rb' [s_1 [Hrb HRB]]].
    pose proof (read_only_inv _ _ _ _ (read_only_reward_base _ _ _ _ _ _) Hrb).
    subst s_1.
    apply bind_inv in HRB. destruct HRB as [[] [s_1 [Hupd HRB]]].
    unfold ret in HRB. inversion HRB. subst s_a rb'.
    unfold contribution_update, modify in Hupd. inversion Hupd. cbn.
    rewrite find_contribution_update by reflexivity.
    rewrite Z.eqb_refl, Hrow. reflexivity.
  - unfold ret in HRB. inversion HRB. subst s_a. exact Hrow.
Qed.

(** C4, as the code has it.  Along any history of calls the [max_score] of a
    stored contribution never goes down.  In an evaluation whose value is not
    0 and that returns, step 7 compares the upvote ratio with the stored
    [max_score]: a higher ratio is stored as the new [max_score], whether or
    not a reward is paid, and otherwise [max_score] stays. *)
Theorem max_score_is_a_high_water_mark :
  forall (self : Contract) (history : list call) (s : DBSession),
    max_score_grows s (run_calls self history s)
    /\ forall (user contribution value : Z) (evaluation : Evaluation.t)
              (s' : DBSession),
         value <> 0%Z ->
         create_evaluation self user contribution value s
         = (Ok evaluation, s') ->
         exists (s3 : DBSession) (score : R) (row : Contribution.t),
           reward_contributor self evaluation s3 = (Ok tt, s')
           /\ contribution_upvotes contribution s3 = (Ok score, s3)
           /\ query_Contribution_get contribution s3 = Some row
           /\ (Contribution.max_score row < score ->
               max_score_of s' contribution = Some score)
           /\ (score <= Contribution.max_score row ->
               max_score_of s' contribution
               = Some (Contribution.max_score row)).
Proof.
  intros self history s. split; [apply max_score_grows_run_calls |].
  intros user contribution value evaluation s' Hv Hrun.
  destruct (create_evaluation_cases self user contribution value s)
    as [Hcase | [e Hcase]]; [| congruence].
  rewrite Hcase, after_validation_eq in Hrun.
  assert (Hr : evaluation = inserted_evaluation user contribution value s).
  { eapply after_insertion_returns. rewrite Hrun. reflexivity. }
  rewrite <- Hr in Hrun. unfold after_insertion in Hrun.
  apply bind_inv in Hrun. destruct Hrun as [[] [s1 [_ Hrun]]].
  apply bind_inv in Hrun. destruct Hrun as [[] [s2 [_ Hrun]]].
  apply bind_inv in Hrun. destruct Hrun as [[] [s3 [_ Hrun]]].
  apply bind_inv in Hrun. destruct Hrun as [[] [s4 [H7 Hrun]]].
  unfold ret in Hrun. inversion Hrun. subst s4. clear Hrun.
  assert (Hval : Z.eqb (Evaluation.value evaluation) 0 = false).
  { rewrite Hr. cbn. now apply Z.eqb_neq. }
  destruct (reward_contributor_max_score self evaluation s3 s' Hval H7)
    as [score [row [Hscore [Hrow Hrow']]]].
  assert (Hcid : Evaluation.contribution_id evaluation = contribution)
    by (rewrite Hr; reflexivity).
  rewrite Hcid in *.
  exists s3, score, row.
  split; [exact H7 |]. split; [exact Hscore |]. split; [exact Hrow |].
  unfold max_score_of. rewrite Hrow'. split; intro Hcmp.
  - rewrite (Rltb_true _ _ Hcmp). reflexivity.
  - rewrite (Rltb_false _ _ Hcmp). reflexivity.
Qed.

Ltac run_history :=
  cbn [run_calls run_call];
  repeat match goal with
         | |- context [snd (?m ?s)] =>
             lazymatch s with
             | context [@snd] => fail
             | _ => idtac
             end;
             let H := fresh in
             eassert (H : m s = _) by ev;
             rewrite H; clear H; cbn [snd]
         end.

Example four_users_history_runs :
  run_calls BaseContract four_users_history empty_session
  = four_users_one_upvote.
Proof.
  unfold four_users_history, empty_session, four_users_one_upvote.
  run_history. repeat f_equal; lra.
Qed.

Lemma same_numerator_smaller_total a b a' c :
  a = a' -> 0 < a -> 0 < c < b -> a / b < a' / c.
Proof.
  intros <- Ha [Hc Hcb]. unfold Rdiv. apply Rmult_lt_compat_l; [exact Ha |].
  apply Rinv_lt_contravar; [nra | exact Hcb].
Qed.

(** C4, as stated, fails on a downvote.  After the history
    [four_users_history] (four users sign up, the first contributes, the
    second upvotes) the third user downvotes.  The fee of the downvote lowers
    the total reputation, so the upvote ratio rises above the stored
    [max_score]; step 7 returns at once for the value 0 and [max_score] stays
    where it was. *)
Lemma downvote_leaves_max_score_behind :
  run_calls BaseContract four_users_history empty_session
  = four_users_one_upvote
  /\ exists (evaluation : Evaluation.t) (s' : DBSession) (score : R),
       create_evaluation BaseContract 3 1 0 four_users_one_upvote
       = (Ok evaluation, s')
       /\ contribution_upvotes 1 s' = (Ok score, s')
       /\ max_score_of four_users_one_upvote 1 = Some (19.8 / 79.8)
       /\ max_score_of s' 1 = Some (19.8 / 79.8)
       /\ 19.8 / 79.8 < score.
Proof.
  split; [exact four_users_history_runs |].
  unfold four_users_one_upvote.
  eexists. eexists. eexists.
  split; [ev |]. split; [ev |].
  split; [reflexivity |]. split; [reflexivity |].
  rpower_bounds.
  apply same_numerator_smaller_total; lra.
Qed.

Lemma max_score_is_a_high_water_mark_witness :
  exists (s3 : DBSession) (score : R) (row : Contribution.t),
    reward_contributor BaseContract (Evaluation.mk 1 2 1 1) s3
    = (Ok tt, four_users_one_upvote)
    /\ contribution_upvotes 1 s3 = (Ok score, s3)
    /\ query_Contribution_get 1 s3 = Some row
    /\ (Contribution.max_score row < score ->
        max_score_of four_users_one_upvote 1 = Some score)
    /\ (score <= Contribution.max_score row ->
        max_score_of four_users_one_upvote 1
        = Some (Contribution.max_score row)).
Proof.
  refine (proj2 (max_score_is_a_high_water_mark BaseContract [] four_users)
            2%Z 1%Z 1%Z (Evaluation.mk 1 2 1 1) four_users_one_upvote _
            first_upvote_of_four_users).
  discriminate.
Defined.

(** * Rewards of the earlier evaluators *)

Lemma reward_previous_evaluator_eq self evaluation stake_distribution
  burn_factor e s :
  reward_previous_evaluator self evaluation stake_distribution burn_factor e s
  = reward_previous_evaluator_result self evaluation stake_distribution
      burn_factor e s.
Proof.
  unfold reward_previous_evaluator, reward_previous_evaluator_result.
  cbv zeta.
  destruct (Z.eqb (Evaluation.value e) (Evaluation.value evaluation));
    [| reflexivity].
  rewrite bind_assoc.
  destruct (query_User_get (Evaluation.user_id e) s) as [row |] eqn:Hrow.
  2:{ unfold bind, user_attr. rewrite Hrow. reflexivity. }
  rewrite (bind_Ok _ (user_attr_Some User.id Hrow)), bind_assoc.
  destruct (query_User_get (Evaluation.user_id evaluation) s) as [rowv |]
    eqn:Hrowv.
  2:{ unfold bind, user_attr. rewrite Hrowv. reflexivity. }
  rewrite (bind_Ok _ (user_attr_Some User.id Hrowv)), bind_ret.
  rewrite (query_User_get_id _ _ _ Hrow), (query_User_get_id _ _ _ Hrowv).
  destruct (Z.eqb (Evaluation.user_id e) (Evaluation.user_id evaluation));
    [reflexivity |].
  cbn [negb].
  rewrite (bind_Ok _ (user_attr_Some User.reputation Hrow)).
  destruct (query_Contribution_get (Evaluation.contribution_id evaluation) s)
    as [c |] eqn:Hc.
  2:{ unfold bind, contribution_attr. rewrite Hc. reflexivity. }
  rewrite (bind_Ok _ (contribution_attr_Some _ Hc)).
  unfold getitem_type.
  destruct (lookup_type (CONTRIBUTION_TYPE self)
              (Contribution.contribution_type c)) as [ct |] eqn:Hct.
  2:{ reflexivity. }
  unfold bind at 1, lift at 1.
  rewrite (bind_Ok _ (user_attr_Some User.reputation Hrow)).
  unfold bind at 1. unfold user_update at 1, modify at 1.
  assert (Hrow1 :
    query_User_get (Evaluation.user_id e)
      (snd (user_update (Evaluation.user_id e)
              (set_reputation
                 (User.reputation row
                  * (1 + distribution_stake ct * stake_distribution
                         * burn_factor))) s))
    = Some (set_reputation
              (User.reputation row
               * (1 + distribution_stake ct * stake_distribution
                      * burn_factor)) row)).
  { rewrite query_User_get_update by reflexivity.
    rewrite Z.eqb_refl, Hrow. reflexivity. }
  unfold user_update at 1, modify at 1 in Hrow1. cbn [snd] in Hrow1.
  unfold user_referrer.
  rewrite bind_assoc, (bind_Ok _ (user_attr_Some User.referrer Hrow1)).
  cbn [User.referrer set_reputation].
  destruct (User.referrer row) as [f |]; [| reflexivity].
  unfold bind at 1, gets at 1.
  unfold user_update at 3, modify at 1. cbn [snd].
  destruct (query_User_get f _) as [rowf |] eqn:Hf; [| reflexivity].
  rewrite (bind_Ok _ (user_attr_Some User.reputation Hf)).
  reflexivity.
Qed.

Lemma user_update_other u f w s :
  (forall x, User.id (f x) = User.id x) -> w <> u ->
  query_User_get w (snd (user_update u f s)) = query_User_get w s.
Proof.
  intros Hid Hw. rewrite query_User_get_update by exact Hid.
  destruct (Z.eqb_spec w u); [contradiction | reflexivity].
Qed.

Lemma user_update_keeps {A} (g : User.t -> A) u f w s :
  (forall x, User.id (f x) = User.id x) ->
  (forall x, g (f x) = g x) ->
  option_map g (query_User_get w (snd (user_update u f s)))
  = option_map g (query_User_get w s).
Proof.
  intros Hid Hg. rewrite query_User_get_update by exact Hid.
  destruct (Z.eqb w u); [| reflexivity].
  destruct (query_User_get w s); cbn; [now rewrite Hg | reflexivity].
Qed.

Lemma same_referrers_refl s : same_referrers s s.
Proof. intro u. reflexivity. Qed.

Lemma same_referrers_trans s1 s2 s3 :
  same_referrers s1 s2 -> same_referrers s2 s3 -> same_referrers s1 s3.
Proof. intros H12 H23 u. now rewrite H23, H12. Qed.

Lemma same_referrers_set_reputation u x :
  maintains same_referrers (user_update u (set_reputation x)).
Proof. intros s w. now apply user_update_keeps. Qed.

Lemma same_referrers_set_tokens u x :
  maintains same_referrers (user_update u (set_tokens x)).
Proof. intros s w. now apply user_update_keeps. Qed.

Lemma same_referrers_contribution_update c f :
  maintains same_referrers (contribution_update c f).
Proof. intros s w. reflexivity. Qed.

#[local] Hint Resolve same_referrers_set_reputation same_referrers_set_tokens
  same_referrers_contribution_update : session.

Ltac same_referrers_split :=
  pose proof same_referrers_refl; pose proof same_referrers_trans;
  maintains_split.

Lemma same_referrers_reward_previous_evaluator self evaluation sd bf e :
  maintains same_referrers
    (reward_previous_evaluator self evaluation sd bf e).
Proof. unfold reward_previous_evaluator. same_referrers_split. Qed.

Lemma same_referrers_pay_evaluation_fee self evaluation :
  maintains same_referrers (pay_evaluation_fee self evaluation).
Proof. unfold pay_evaluation_fee. same_referrers_split. Qed.

Lemma same_referrers_reward_evaluator_with_tokens self evaluation :
  maintains same_referrers (reward_evaluator_with_tokens self evaluation).
Proof. unfold reward_evaluator_with_tokens. same_referrers_split. Qed.

Lemma rewards_pass_by_same_referrers w evaluation s s' e :
  same_referrers s s' ->
  rewards_pass_by w evaluation s e -> rewards_pass_by w evaluation s' e.
Proof.
  intros Hsame Hsafe Hv Hu. destruct (Hsafe Hv Hu) as [Hw Href].
  split; [exact Hw |]. intros row' Hrow'.
  specialize (Hsame (Evaluation.user_id e)). rewrite Hrow' in Hsame.
  destruct (query_User_get (Evaluation.user_id e) s) as [row |];
    [| discriminate Hsame].
  cbn in Hsame. inversion Hsame as [Heq]. rewrite Heq. now apply Href.
Qed.

(** One turn of the loop leaves the reputation of [w] alone when the
    evaluation it meets passes [w] by. *)
Lemma reward_previous_evaluator_passes_by w self evaluation sd bf e s :
  rewards_pass_by w evaluation s e ->
  reputation_of
    (snd (reward_previous_evaluator self evaluation sd bf e s)) w
  = reputation_of s w.
Proof.
  intro Hsafe. rewrite reward_previous_evaluator_eq.
  unfold reward_previous_evaluator_result.
  destruct (Z.eqb_spec (Evaluation.value e) (Evaluation.value evaluation))
    as [Hv |]; [| reflexivity].
  destruct (query_User_get (Evaluation.user_id e) s) as [row |] eqn:Hrow;
    [| reflexivity].
  destruct (query_User_get (Evaluation.user_id evaluation) s);
    [| reflexivity].
  destruct (Z.eqb_spec (Evaluation.user_id e) (Evaluation.user_id evaluation))
    as [| Hu]; [reflexivity |].
  destruct (query_Contribution_get _ s) as [c |]; [| reflexivity].
  destruct (lookup_type _ _) as [ct |]; [| reflexivity].
  cbv zeta. destruct (Hsafe Hv Hu) as [Hw Href]. specialize (Href row Hrow).
  assert (H1 : forall x,
            query_User_get w
              (snd (user_update (Evaluation.user_id e) (set_reputation x) s))
            = query_User_get w s).
  { intro x. apply user_update_other; [reflexivity | congruence]. }
  destruct (User.referrer row) as [f |];
    [| cbn [snd]; unfold reputation_of; now rewrite H1].
  destruct (query_User_get f _) as [rowf |];
    cbn [snd]; unfold reputation_of; [| now rewrite H1].
  rewrite user_update_other; [now rewrite H1 | reflexivity | congruence].
Qed.

Lemma reward_loop_passes_by w self evaluation sd bf es :
  forall s,
    (forall e, In e es -> rewards_pass_by w evaluation s e) ->
    reputation_of
      (snd (for_each es (reward_previous_evaluator self evaluation sd bf) s))
      w
    = reputation_of s w.
Proof.
  induction es as [| e es IH]; intros s Hsafe; [reflexivity |].
  cbn [for_each]. unfold bind.
  pose proof (reward_previous_evaluator_passes_by w self evaluation sd bf e s
                (Hsafe e (or_introl eq_refl))) as Hrep.
  pose proof (same_referrers_reward_previous_evaluator self evaluation sd bf
                e s) as Href.
  destruct (reward_previous_evaluator self evaluation sd bf e s)
    as [[[] | x] s1]; cbn [snd] in *; [| exact Hrep].
  rewrite IH; [exact Hrep |].
  intros e' He'. eapply rewards_pass_by_same_referrers; [exact Href |].
  apply Hsafe. now right.
Qed.

(** Step 6 leaves the reputation of [w] alone when every evaluation of the
    contribution passes [w] by. *)
Lemma reward_previous_evaluators_pass_by w self evaluation s :
  (forall e,
     In e (evaluations s) ->
     Evaluation.contribution_id e = Evaluation.contribution_id evaluation ->
     rewards_pass_by w evaluation s e) ->
  same_reputation_of w s (snd (reward_previous_evaluators self evaluation s)).
Proof.
  intro Hsafe. unfold reward_previous_evaluators. cbv zeta.
  assert (Hrefl : forall s, same_reputation_of w s s) by reflexivity.
  apply maintains_at_bind_read; [exact Hrefl | |].
  { apply read_only_maintains, maintains_sum_equally_voted_reputation;
      congruence. }
  intros eq0 _. destruct (negb (Reqb eq0 0)); [| reflexivity].
  apply maintains_at_bind_read;
    [exact Hrefl | apply read_only_user_attr |]. intros r0 _.
  apply maintains_at_bind_read;
    [exact Hrefl | apply read_only_user_attr |]. intros r1 _.
  apply maintains_at_bind_read; [exact Hrefl | apply read_only_lift |].
  intros sd _.
  apply maintains_at_bind_read; [exact Hrefl | |].
  { intro s0. reflexivity. }
  intros total _.
  apply maintains_at_bind_read; [exact Hrefl | apply read_only_lift |].
  intros total' _.
  apply maintains_at_bind_read; [exact Hrefl | apply read_only_lift |].
  intros ratio _.
  apply maintains_at_bind_read; [exact Hrefl | apply read_only_lift |].
  intros bf _.
  apply maintains_at_bind_read; [exact Hrefl | |].
  { apply read_only_maintains, maintains_contribution_evaluations;
      congruence. }
  intros es Hes.
  unfold contribution_evaluations in Hes.
  apply bind_inv in Hes. destruct Hes as [i [s1 [Hi Hes]]].
  apply contribution_attr_inv in Hi. destruct Hi as [-> _].
  unfold gets in Hes. inversion Hes as [Hes']. clear Hes.
  apply reward_loop_passes_by.
  intros e He. apply filter_In in He. destruct He as [Hin Hc].
  apply Z.eqb_eq in Hc. now apply Hsafe.
Qed.

(** * A downvote and the contributor *)

Lemma reward_contributor_downvote self evaluation s :
  Evaluation.value evaluation = 0%Z ->
  reward_contributor self evaluation s = (Ok tt, s).
Proof. intro Hv. unfold reward_contributor. rewrite Hv. reflexivity. Qed.

Lemma same_tokens_of_refl w s : same_tokens_of w s s.
Proof. reflexivity. Qed.

Lemma same_tokens_of_trans w s1 s2 s3 :
  same_tokens_of w s1 s2 -> same_tokens_of w s2 s3 -> same_tokens_of w s1 s3.
Proof. unfold same_tokens_of. congruence. Qed.

Lemma same_tokens_of_set_reputation w u x :
  maintains (same_tokens_of w) (user_update u (set_reputation x)).
Proof. intro s. now apply user_update_keeps. Qed.

Lemma same_tokens_of_set_tokens w u x :
  u <> w -> maintains (same_tokens_of w) (user_update u (set_tokens x)).
Proof.
  intros Hu s. unfold same_tokens_of, tokens_of.
  rewrite user_update_other; [reflexivity | reflexivity | congruence].
Qed.

Lemma same_tokens_of_contribution_update w c f :
  maintains (same_tokens_of w) (contribution_update c f).
Proof. intro s. reflexivity. Qed.

Lemma same_reputation_of_refl w s : same_reputation_of w s s.
Proof. reflexivity. Qed.

Lemma same_reputation_of_trans w s1 s2 s3 :
  same_reputation_of w s1 s2 -> same_reputation_of w s2 s3 ->
  same_reputation_of w s1 s3.
Proof. unfold same_reputation_of. congruence. Qed.

Lemma same_reputation_of_set_tokens w u x :
  maintains (same_reputation_of w) (user_update u (set_tokens x)).
Proof. intro s. now apply user_update_keeps. Qed.

Lemma same_reputation_of_set_reputation w u x :
  u <> w -> maintains (same_reputation_of w) (user_update u (set_reputation x)).
Proof.
  intros Hu s. unfold same_reputation_of, reputation_of.
  rewrite user_update_other; [reflexivity | reflexivity | congruence].
Qed.

Lemma same_reputation_of_contribution_update w c f :
  maintains (same_reputation_of w) (contribution_update c f).
Proof. intro s. reflexivity. Qed.

#[local] Hint Resolve same_tokens_of_set_reputation same_tokens_of_set_tokens
  same_tokens_of_contribution_update same_reputation_of_set_tokens
  same_reputation_of_set_reputation same_reputation_of_contribution_update
  : session.

Lemma same_tokens_of_pay_evaluation_fee w self evaluation :
  maintains (same_tokens_of w) (pay_evaluation_fee self evaluation).
Proof.
  pose proof (same_tokens_of_refl w). pose proof (same_tokens_of_trans w).
  unfold pay_evaluation_fee. maintains_split.
Qed.

Lemma same_tokens_of_reward_previous_evaluators w self evaluation :
  maintains (same_tokens_of w) (reward_previous_evaluators self evaluation).
Proof.
  pose proof (same_tokens_of_refl w). pose proof (same_tokens_of_trans w).
  unfold reward_previous_evaluators, reward_previous_evaluator.
  maintains_split.
Qed.

Lemma same_tokens_of_reward_evaluator_with_tokens w self evaluation :
  Evaluation.user_id evaluation <> w ->
  maintains (same_tokens_of w) (reward_evaluator_with_tokens self evaluation).
Proof.
  intro Hu.
  pose proof (same_tokens_of_refl w). pose proof (same_tokens_of_trans w).
  unfold reward_evaluator_with_tokens. maintains_split.
Qed.

Lemma same_reputation_of_reward_evaluator_with_tokens w self evaluation :
  maintains (same_reputation_of w)
    (reward_evaluator_with_tokens self evaluation).
Proof.
  pose proof (same_reputation_of_refl w).
  pose proof (same_reputation_of_trans w).
  unfold reward_evaluator_with_tokens. maintains_split.
Qed.

Lemma same_reputation_of_pay_evaluation_fee w self evaluation :
  Evaluation.user_id evaluation <> w ->
  maintains (same_reputation_of w) (pay_evaluation_fee self evaluation).
Proof.
  intro Hu.
  pose proof (same_reputation_of_refl w).
  pose proof (same_reputation_of_trans w).
  unfold pay_evaluation_fee. maintains_split.
Qed.

(** The tokens of [w] through the steps after the insertion of a downvote. *)
Lemma same_tokens_of_after_downvote w self previously_voted evaluation :
  Evaluation.value evaluation = 0%Z ->
  REWARD_TOKENS_TO_EVALUATORS self = false
  \/ Evaluation.user_id evaluation <> w ->
  maintains (same_tokens_of w)
    (after_insertion self previously_voted evaluation).
Proof.
  intros Hv Hflag s. unfold after_insertion.
  assert (H4 : maintains (same_tokens_of w)
                 (if REWARD_TOKENS_TO_EVALUATORS self
                  then if negb previously_voted
                       then reward_evaluator_with_tokens self evaluation
                       else ret tt
                  else ret tt)).
  { destruct Hflag as [-> | Hu].
    - apply maintains_ret, same_tokens_of_refl.
    - destruct (REWARD_TOKENS_TO_EVALUATORS self); [destruct (negb _) |];
        first [ now apply same_tokens_of_reward_evaluator_with_tokens
              | apply maintains_ret, same_tokens_of_refl ]. }
  revert s. change (maintains (same_tokens_of w)
                      (after_insertion self previously_voted evaluation)).
  unfold after_insertion.
  pose proof (same_tokens_of_refl w). pose proof (same_tokens_of_trans w).
  apply maintains_bind; [assumption | exact H4 | intros _].
  apply maintains_bind;
    [assumption | apply same_tokens_of_pay_evaluation_fee | intros _].
  apply maintains_bind;
    [assumption | apply same_tokens_of_reward_previous_evaluators | intros _].
  apply maintains_bind; [assumption | | intros _; now apply maintains_ret].
  intro s. rewrite (reward_contributor_downvote self evaluation s Hv).
  reflexivity.
Qed.

(** The reputation of [w] through the steps after the insertion of a
    downvote of another user, when step 6 passes [w] by. *)
Lemma same_reputation_of_after_downvote w self previously_voted evaluation s :
  Evaluation.value evaluation = 0%Z ->
  Evaluation.user_id evaluation <> w ->
  (forall e,
     In e (evaluations s) ->
     Evaluation.contribution_id e = Evaluation.contribution_id evaluation ->
     rewards_pass_by w evaluation s e) ->
  same_reputation_of w s
    (snd (after_insertion self previously_voted evaluation s)).
Proof.
  intros Hv Hu Hsafe. unfold after_insertion.
  set (step4 := if REWARD_TOKENS_TO_EVALUATORS self
                then if negb previously_voted
                     then reward_evaluator_with_tokens self evaluation
                     else ret tt
                else ret tt).
  assert (H4 : maintains (same_reputation_of w) step4
               /\ maintains same_referrers step4
               /\ maintains same_evaluations step4).
  { unfold step4.
    destruct (REWARD_TOKENS_TO_EVALUATORS self); [destruct (negb _) |];
      repeat split;
      first [ apply same_reputation_of_reward_evaluator_with_tokens
            | apply same_referrers_reward_evaluator_with_tokens
            | apply same_evaluations_reward_evaluator_with_tokens
            | apply maintains_ret; intro; reflexivity ]. }
  destruct H4 as [Hrep4 [Href4 Hev4]].
  specialize (Hrep4 s). specialize (Href4 s). specialize (Hev4 s).
  unfold bind at 1.
  destruct (step4 s) as [[[] | x] s1]; cbn [snd] in *; [| exact Hrep4].
  pose proof (same_reputation_of_pay_evaluation_fee w self evaluation Hu s1)
    as Hrep5.
  pose proof (same_referrers_pay_evaluation_fee self evaluation s1) as Href5.
  pose proof (same_evaluations_pay_evaluation_fee self evaluation s1) as Hev5.
  unfold bind at 1.
  destruct (pay_evaluation_fee self evaluation s1) as [[[] | x] s2];
    cbn [snd] in *;
    [| apply (same_reputation_of_trans w s s1 s2); assumption].
  assert (Hsafe2 : forall e,
             In e (evaluations s2) ->
             Evaluation.contribution_id e
             = Evaluation.contribution_id evaluation ->
             rewards_pass_by w evaluation s2 e).
  { intros e He Hc. unfold same_evaluations in *.
    rewrite Hev5, Hev4 in He.
    apply (rewards_pass_by_same_referrers w evaluation s s2);
      [apply (same_referrers_trans s s1 s2); assumption |].
    now apply Hsafe. }
  pose proof (reward_previous_evaluators_pass_by w self evaluation s2 Hsafe2)
    as Hrep6.
  unfold bind at 1.
  destruct (reward_previous_evaluators self evaluation s2) as [[[] | x] s3];
    cbn [snd] in *.
  - unfold bind at 1.
    rewrite (reward_contributor_downvote self evaluation s3 Hv).
    cbn [snd ret].
    apply (same_reputation_of_trans w s s1 s3); [exact Hrep4 |].
    apply (same_reputation_of_trans w s1 s2 s3); assumption.
  - apply (same_reputation_of_trans w s s1 s3); [exact Hrep4 |].
    apply (same_reputation_of_trans w s1 s2 s3); assumption.
Qed.

(** C3, as the code has it.  In an evaluation of value 0, step 7 does
    nothing.  The tokens of the contributor are unchanged by the whole event,
    unless the contributor is the evaluator and evaluators are rewarded with
    tokens.  The reputation of the contributor is unchanged by the whole
    event when the contributor is not the evaluator and step 6 passes the
    contributor by: no other user who has a downvote on the contribution is
    the contributor or is referred by the contributor. *)
Theorem downvote_pays_nothing_to_the_contributor :
  forall (self : Contract) (user contribution : Z) (s : DBSession)
         (c : Contribution.t),
    query_Contribution_get contribution s = Some c ->
    (forall evaluation s3,
       Evaluation.value evaluation = 0%Z ->
       reward_contributor self evaluation s3 = (Ok tt, s3))
    /\ (REWARD_TOKENS_TO_EVALUATORS self = false
        \/ Contribution.user c <> user ->
        tokens_of (snd (create_evaluation self user contribution 0 s))
          (Contribution.user c)
        = tokens_of s (Contribution.user c))
    /\ (Contribution.user c <> user ->
        (forall e,
           In e (evaluations s) ->
           Evaluation.contribution_id e = contribution ->
           Evaluation.value e = 0%Z ->
           Evaluation.user_id e <> user ->
           Evaluation.user_id e <> Contribution.user c
           /\ forall row,
                query_User_get (Evaluation.user_id e) s = Some row ->
                User.referrer row <> Some (Contribution.user c)) ->
        reputation_of (snd (create_evaluation self user contribution 0 s))
          (Contribution.user c)
        = reputation_of s (Contribution.user c)).
Proof.
  intros self user contribution s c Hc.
  split; [intros evaluation s3; apply reward_contributor_downvote |].
  destruct (create_evaluation_cases self user contribution 0 s)
    as [Hcase | [x Hcase]]; rewrite Hcase; [| split; reflexivity].
  rewrite after_validation_eq.
  set (evaluation := inserted_evaluation user contribution 0 s).
  set (s_ins := with_evaluations
                  (kept_evaluations user contribution s ++ [evaluation]) s).
  split.
  - intro Hflag.
    change (same_tokens_of (Contribution.user c) s_ins
              (snd (after_insertion self
                      match previous_evaluations user contribution s with
                      | [] => false
                      | _ :: _ => true
                      end evaluation s_ins))).
    apply same_tokens_of_after_downvote; [reflexivity |].
    destruct Hflag as [Hflag | Hne]; [now left | right].
    cbn. congruence.
  - intros Hne Hpass.
    change (same_reputation_of (Contribution.user c) s_ins
              (snd (after_insertion self
                      match previous_evaluations user contribution s with
                      | [] => false
                      | _ :: _ => true
                      end evaluation s_ins))).
    apply same_reputation_of_after_downvote; [reflexivity | |].
    + cbn. congruence.
    + intros e He Hce Hv Hu. cbn in He, Hce, Hv, Hu.
      apply in_app_or in He. destruct He as [He | [<- | []]].
      * apply kept_evaluations_spec in He. destruct He as [He _].
        apply (Hpass e He Hce Hv Hu).
      * exfalso. apply Hu. reflexivity.
Qed.

Example creator_downvotes_history_runs :
  run_calls BaseContract creator_downvotes_history empty_session
  = creator_downvoted.
Proof.
  unfold creator_downvotes_history, empty_session, creator_downvoted.
  run_history. repeat f_equal; lra.
Qed.

Example second_downvote_rewards_the_first :
  create_evaluation BaseContract 2 1 0 creator_downvoted
  = (Ok (Evaluation.mk 2 2 1 0), creator_rewarded).
Proof. unfold creator_downvoted, creator_rewarded. py_exec. Qed.

(** C3, as stated, fails.  After the history [creator_downvotes_history] the
    contributor (user 1) has a downvote on the own contribution.  When the
    second user downvotes too, step 6 rewards the earlier downvoter: the
    reputation of the contributor rises from 20 to 20.8 in a downvote. *)
Lemma downvote_raises_the_reputation_of_the_contributor :
  run_calls BaseContract creator_downvotes_history empty_session
  = creator_downvoted
  /\ option_map Contribution.user (query_Contribution_get 1 creator_downvoted)
     = Some 1%Z
  /\ create_evaluation BaseContract 2 1 0 creator_downvoted
     = (Ok (Evaluation.mk 2 2 1 0), creator_rewarded)
  /\ reputation_of creator_downvoted 1 = Some 20
  /\ reputation_of creator_rewarded 1 = Some 20.8
  /\ 20 < 20.8.
Proof.
  split; [exact creator_downvotes_history_runs |].
  split; [reflexivity |].
  split; [exact second_downvote_rewards_the_first |].
  split; [reflexivity |]. split; [reflexivity | lra].
Qed.

Lemma downvote_pays_nothing_to_the_contributor_witness :
  (forall evaluation s3,
     Evaluation.value evaluation = 0%Z ->
     reward_contributor BaseContract evaluation s3 = (Ok tt, s3))
  /\ (REWARD_TOKENS_TO_EVALUATORS BaseContract = false \/ 1%Z <> 3%Z ->
      tokens_of (snd (create_evaluation BaseContract 3 1 0
                        four_users_one_upvote)) 1
      = tokens_of four_users_one_upvote 1)
  /\ (1%Z <> 3%Z ->
      (forall e,
         In e (evaluations four_users_one_upvote) ->
         Evaluation.contribution_id e = 1%Z ->
         Evaluation.value e = 0%Z ->
         Evaluation.user_id e <> 3%Z ->
         Evaluation.user_id e <> 1%Z
         /\ forall row,
              query_User_get (Evaluation.user_id e) four_users_one_upvote
              = Some row ->
              User.referrer row <> Some 1%Z) ->
      reputation_of (snd (create_evaluation BaseContract 3 1 0
                            four_users_one_upvote)) 1
      = reputation_of four_users_one_upvote 1).
Proof.
  exact (downvote_pays_nothing_to_the_contributor BaseContract 3 1
           four_users_one_upvote
           (Contribution.mk 1 1 "base" 1 (19.8 / 79.8) 0) eq_refl).
Defined.

(** * Step 6 against the snapshot *)

Lemma option_map_plus_0 (x : option R) (z : R) :
  z = 0 -> option_map (fun r => r + z) x = x.
Proof. intros ->. destruct x; cbn; [f_equal; lra | reflexivity]. Qed.

Lemma referrer_in_same s s' u :
  same_referrers s s' -> referrer_in s' u = referrer_in s u.
Proof.
  intro Hsame. unfold referrer_in.
  pose proof (Hsame u) as Hu.
  destruct (query_User_get u s') as [row' |],
           (query_User_get u s) as [row |]; cbn in Hu;
    try discriminate Hu; [| reflexivity].
  inversion Hu as [Href]. rewrite Href.
  destruct (User.referrer row) as [f |]; [| reflexivity].
  pose proof (Hsame f) as Hf.
  destruct (query_User_get f s'), (query_User_get f s); cbn in Hf;
    try discriminate Hf; reflexivity.
Qed.

(** One turn of the loop adds to every reputation what [snapshot_step]
    says, read in the store the turn starts from. *)
Lemma reward_step_reputation self evaluation sd bf e s s1 c ct w :
  reward_previous_evaluator self evaluation sd bf e s = (Ok tt, s1) ->
  query_Contribution_get (Evaluation.contribution_id evaluation) s = Some c ->
  lookup_type (CONTRIBUTION_TYPE self) (Contribution.contribution_type c)
  = Some ct ->
  (equally_voted evaluation e = true ->
   referrer_in s (Evaluation.user_id e) <> Some (Evaluation.user_id e)) ->
  reputation_of s1 w
  = option_map
      (fun r =>
         r + snapshot_step (REFERRAL_REWARD_FRACTION self)
               (distribution_stake ct * sd * bf) s evaluation e w)
      (reputation_of s w).
Proof.
  intros Hbody Hc Hct Hself.
  rewrite reward_previous_evaluator_eq in Hbody.
  unfold reward_previous_evaluator_result in Hbody.
  unfold snapshot_step, equally_voted in *.
  destruct (Z.eqb (Evaluation.value e) (Evaluation.value evaluation)).
  2:{ apply (f_equal snd) in Hbody. cbn [snd] in Hbody. subst s1.
      cbn [andb]. now rewrite option_map_plus_0. }
  destruct (query_User_get (Evaluation.user_id e) s) as [row |] eqn:Hrow;
    [| discriminate Hbody].
  destruct (query_User_get (Evaluation.user_id evaluation) s);
    [| discriminate Hbody].
  destruct (Z.eqb (Evaluation.user_id e) (Evaluation.user_id evaluation)).
  { apply (f_equal snd) in Hbody. cbn [snd] in Hbody. subst s1.
    cbn [andb negb]. now rewrite option_map_plus_0. }
  cbn [andb negb] in *. specialize (Hself eq_refl).
  rewrite Hc, Hct in Hbody. cbv zeta in Hbody.
  assert (Hrep0 : reputation_or_0 s (Evaluation.user_id e)
                  = User.reputation row).
  { unfold reputation_or_0, reputation_of. now rewrite Hrow. }
  cbv zeta. rewrite Hrep0. clear Hrep0.
  unfold referrer_in in *. rewrite Hrow in *.
  set (k := distribution_stake ct * sd * bf) in *.
  set (new := User.reputation row * (1 + k)) in *.
  assert (Hfirst : forall x,
    reputation_of (snd (user_update (Evaluation.user_id e) (set_reputation x) s))
      w
    = if Z.eqb w (Evaluation.user_id e) then Some x else reputation_of s w).
  { intro x. unfold reputation_of.
    rewrite query_User_get_update by reflexivity.
    destruct (Z.eqb_spec w (Evaluation.user_id e)) as [-> | _];
      [| reflexivity].
    rewrite Hrow. reflexivity. }
  assert (Hnoref :
    reputation_of (snd (user_update (Evaluation.user_id e)
                          (set_reputation new) s)) w
    = option_map
        (fun r =>
           r + ((if Z.eqb (Evaluation.user_id e) w
                 then User.reputation row * k else 0) + 0))
        (reputation_of s w)).
  { rewrite Hfirst. rewrite (Z.eqb_sym (Evaluation.user_id e) w).
    destruct (Z.eqb_spec w (Evaluation.user_id e)) as [-> | _].
    - unfold reputation_of. rewrite Hrow. cbn. f_equal. unfold new. ring.
    - now rewrite option_map_plus_0 by lra. }
  destruct (User.referrer row) as [f |].
  2:{ apply (f_equal snd) in Hbody. cbn [snd] in Hbody. subst s1.
      exact Hnoref. }
  destruct (Z.eqb_spec f (Evaluation.user_id e)) as [Hfe | Hfe].
  { exfalso. apply Hself. subst f. rewrite Hrow. reflexivity. }
  rewrite (user_update_other (Evaluation.user_id e) (set_reputation new) f s)
    in Hbody by (reflexivity || exact Hfe).
  destruct (query_User_get f s) as [rowf |] eqn:Hf.
  2:{ apply (f_equal snd) in Hbody. cbn [snd] in Hbody. subst s1.
      exact Hnoref. }
  apply (f_equal snd) in Hbody. cbn [snd] in Hbody. subst s1.
  unfold reputation_of at 1.
  rewrite query_User_get_update by reflexivity.
  fold (reputation_of
          (snd (user_update (Evaluation.user_id e) (set_reputation new) s)) w).
  destruct (Z.eqb_spec w f) as [-> | Hwf].
  - rewrite (user_update_other (Evaluation.user_id e) (set_reputation new) f s)
      by (reflexivity || exact Hfe).
    rewrite Hf. cbn [option_map set_reputation User.reputation].
    unfold reputation_of. rewrite Hf. cbn [option_map].
    rewrite Z.eqb_refl.
    destruct (Z.eqb_spec (Evaluation.user_id e) f) as [Hef | _];
      [symmetry in Hef; contradiction |].
    f_equal. unfold new. ring.
  - unfold reputation_of at 1 in Hnoref. rewrite Hnoref.
    destruct (Z.eqb_spec f w) as [Hfw | _];
      [symmetry in Hfw; contradiction |].
    reflexivity.
Qed.

Lemma same_contributions_reward_previous_evaluator self evaluation sd bf e :
  maintains same_contributions
    (reward_previous_evaluator self evaluation sd bf e).
Proof.
  pose proof same_contributions_refl. pose proof same_contributions_trans.
  pose proof same_contributions_user_update.
  unfold reward_previous_evaluator. maintains_split.
Qed.

(** [snapshot_reward] reads the store only at the rewarded evaluators. *)
Lemma snapshot_reward_ext fraction k s s1 evaluation es w :
  (forall e,
     In e es -> equally_voted evaluation e = true ->
     reputation_or_0 s1 (Evaluation.user_id e)
     = reputation_or_0 s (Evaluation.user_id e)
     /\ referrer_in s1 (Evaluation.user_id e)
        = referrer_in s (Evaluation.user_id e)) ->
  snapshot_reward fraction k s1 evaluation es w
  = snapshot_reward fraction k s evaluation es w.
Proof.
  induction es as [| e es IH]; intro H; cbn [snapshot_reward];
    [reflexivity |].
  rewrite IH by (intros e' He'; apply H; now right).
  f_equal. unfold snapshot_step.
  destruct (equally_voted evaluation e) eqn:E; [| reflexivity].
  destruct (H e (or_introl eq_refl) E) as [-> ->]. reflexivity.
Qed.

(** A rewarded evaluator met later in the loop is not touched by this turn. *)
Lemma snapshot_step_of_later_evaluator fraction k s evaluation e e' :
  Evaluation.user_id e <> Evaluation.user_id e' ->
  referrer_in s (Evaluation.user_id e) <> Some (Evaluation.user_id e') ->
  snapshot_step fraction k s evaluation e (Evaluation.user_id e') = 0.
Proof.
  intros Hne Href. unfold snapshot_step.
  destruct (equally_voted evaluation e); [| reflexivity]. cbv zeta.
  destruct (Z.eqb_spec (Evaluation.user_id e) (Evaluation.user_id e'));
    [contradiction |].
  destruct (referrer_in s (Evaluation.user_id e)) as [f |]; [| lra].
  destruct (Z.eqb_spec f (Evaluation.user_id e')) as [-> | _]; [| lra].
  exfalso. now apply Href.
Qed.

(** The loop of step 6, when it returns, has added to every reputation
    what [snapshot_reward] says, provided no user is rewarded twice and no
    rewarded evaluator is the referrer of a rewarded evaluator. *)
Lemma reward_loop_reputation self evaluation sd bf c ct es :
  forall s s' w,
    for_each es (reward_previous_evaluator self evaluation sd bf) s
    = (Ok tt, s') ->
    query_Contribution_get (Evaluation.contribution_id evaluation) s
    = Some c ->
    lookup_type (CONTRIBUTION_TYPE self) (Contribution.contribution_type c)
    = Some ct ->
    NoDup (map Evaluation.user_id (filter (equally_voted evaluation) es)) ->
    no_referrer_is_rewarded s evaluation es ->
    reputation_of s' w
    = option_map
        (fun r =>
           r + snapshot_reward (REFERRAL_REWARD_FRACTION self)
                 (distribution_stake ct * sd * bf) s evaluation es w)
        (reputation_of s w).
Proof.
  induction es as [| e es IH]; intros s s' w Hrun Hc Hct Hnd Href.
  - cbn in Hrun. inversion Hrun. cbn [snapshot_reward].
    now rewrite option_map_plus_0.
  - cbn [for_each] in Hrun. apply bind_inv in Hrun.
    destruct Hrun as [[] [s1 [Hbody Hrest]]].
    assert (Hself : equally_voted evaluation e = true ->
                    referrer_in s (Evaluation.user_id e)
                    <> Some (Evaluation.user_id e)).
    { intro E. apply (Href e e); cbn; auto. }
    pose proof (fun w =>
                  reward_step_reputation self evaluation sd bf e s s1 c ct w
                    Hbody Hc Hct Hself) as Hstep.
    assert (Hsame : same_referrers s s1).
    { pose proof (same_referrers_reward_previous_evaluator self evaluation
                    sd bf e s) as H.
      now rewrite Hbody in H. }
    assert (Hc1 : query_Contribution_get
                    (Evaluation.contribution_id evaluation) s1 = Some c).
    { pose proof (same_contributions_reward_previous_evaluator self
                    evaluation sd bf e s) as H.
      rewrite Hbody in H. unfold same_contributions in H. cbn [snd] in H.
      unfold query_Contribution_get in *. now rewrite H. }
    assert (Hnd' : NoDup (map Evaluation.user_id
                            (filter (equally_voted evaluation) es))
                   /\ (equally_voted evaluation e = true ->
                       forall e', In e' es ->
                                  equally_voted evaluation e' = true ->
                                  Evaluation.user_id e
                                  <> Evaluation.user_id e')).
    { cbn [filter] in Hnd.
      destruct (equally_voted evaluation e); [| split; [exact Hnd | easy]].
      cbn [map] in Hnd. apply NoDup_cons_iff in Hnd.
      destruct Hnd as [Hnotin Hnd]. split; [exact Hnd |].
      intros _ e' He' E' Heq. apply Hnotin. rewrite Heq.
      apply in_map. apply filter_In. now split. }
    destruct Hnd' as [Hnd' Hfresh].
    assert (Href1 : no_referrer_is_rewarded s1 evaluation es).
    { intros a a' Ha Ha' Ea Ea'. rewrite (referrer_in_same s s1 _ Hsame).
      apply Href; cbn; auto. }
    rewrite (IH s1 s' w Hrest Hc1 Hct Hnd' Href1).
    rewrite (snapshot_reward_ext _ _ s s1).
    + rewrite Hstep. cbn [snapshot_reward].
      destruct (reputation_of s w); cbn [option_map]; [| reflexivity].
      f_equal. ring.
    + intros e' He' E'. split; [| now apply referrer_in_same].
      unfold reputation_or_0. rewrite Hstep.
      rewrite option_map_plus_0; [reflexivity |].
      destruct (equally_voted evaluation e) eqn:E.
      * apply snapshot_step_of_later_evaluator.
        -- now apply Hfresh.
        -- apply (Href e' e); cbn; auto.
      * unfold snapshot_step. now rewrite E.
Qed.

(** Step 6 when it returns: either the other equal voters have no reputation
    in sum and nothing is done, or the loop runs over the evaluations of the
    contribution with the share and the burn factor computed beforehand. *)
Lemma reward_previous_evaluators_inv self evaluation s s' :
  reward_previous_evaluators self evaluation s = (Ok tt, s') ->
  exists equalRep,
    sum_equally_voted_reputation self evaluation s = (Ok equalRep, s)
    /\ ((equalRep = 0 /\ s' = s)
        \/ (equalRep <> 0
            /\ exists r total burn c,
                 reputation_of s (Evaluation.user_id evaluation) = Some r
                 /\ equalRep + r <> 0
                 /\ sql_sum (map User.reputation (users s)) = Some total
                 /\ total <> 0
                 /\ float_pow ((equalRep + r) / total) (ALPHA self) = Ok burn
                 /\ query_Contribution_get
                      (Evaluation.contribution_id evaluation) s = Some c
                 /\ for_each
                      (filter
                         (fun e =>
                            Z.eqb (Evaluation.contribution_id e)
                              (Evaluation.contribution_id evaluation))
                         (evaluations s))
                      (reward_previous_evaluator self evaluation
                         (r / (equalRep + r)) burn) s
                    = (Ok tt, s'))).
Proof.
  unfold reward_previous_evaluators. cbv zeta. intro H.
  apply bind_inv in H. destruct H as [equalRep [s_1 [Heq H]]].
  assert (s_1 = s).
  { eapply read_only_inv; [| exact Heq].
    apply read_only_maintains, maintains_sum_equally_voted_reputation;
      congruence. }
  subst s_1. exists equalRep. split; [exact Heq |].
  destruct (Reqb equalRep 0) eqn:E; cbn [negb] in H.
  - left. apply Reqb_spec in E. unfold ret in H. inversion H. now split.
  - right. split; [intro H0; apply Reqb_spec in H0; congruence |].
    apply bind_inv in H. destruct H as [r [s_1 [Hr H]]].
    apply user_attr_inv in Hr. destruct Hr as [-> [row [Hrow ->]]].
    apply bind_inv in H. destruct H as [r' [s_1 [Hr' H]]].
    apply user_attr_inv in Hr'. destruct Hr' as [-> [row' [Hrow' ->]]].
    rewrite Hrow in Hrow'. inversion Hrow'. subst row'.
    apply bind_inv in H. destruct H as [share [s_1 [Hshare H]]].
    apply lift_inv in Hshare. destruct Hshare as [-> Hshare].
    apply truediv_inv in Hshare. destruct Hshare as [Hnz ->].
    apply bind_inv in H. destruct H as [t0 [s_1 [Ht H]]].
    unfold total_reputation, gets in Ht. inversion Ht. subst t0 s_1. clear Ht.
    apply bind_inv in H. destruct H as [total [s_1 [Ht H]]].
    apply lift_inv in Ht. destruct Ht as [-> Ht]. apply not_None_inv in Ht.
    apply bind_inv in H. destruct H as [ratio [s_1 [Hq H]]].
    apply lift_inv in Hq. destruct Hq as [-> Hq]. apply truediv_inv in Hq.
    destruct Hq as [Htnz ->].
    apply bind_inv in H. destruct H as [burn [s_1 [Hb H]]].
    apply lift_inv in Hb. destruct Hb as [-> Hb].
    apply bind_inv in H. destruct H as [es [s_1 [Hes H]]].
    unfold contribution_evaluations in Hes.
    apply bind_inv in Hes. destruct Hes as [i [s_2 [Hi Hes]]].
    apply contribution_attr_inv in Hi. destruct Hi as [-> [c [Hc _]]].
    unfold gets in Hes. inversion Hes. subst es s_1. clear Hes.
    exists (User.reputation row), total, burn, c.
    unfold reputation_of. rewrite Hrow.
    repeat split; assumption.
Qed.

Lemma evaluators_kept_differ (keep : Evaluation.t -> bool)
  (es : list Evaluation.t) :
  NoDup (map Evaluation.user_id es) ->
  NoDup (map Evaluation.user_id (filter keep es)).
Proof.
  induction es as [| a es IH]; cbn; intro H; [constructor |].
  apply NoDup_cons_iff in H. destruct H as [Hnotin H].
  destruct (keep a); cbn; [| now apply IH].
  constructor; [| now apply IH].
  intro Hin. apply Hnotin. apply in_map_iff in Hin.
  destruct Hin as [x [Hx Hin]]. apply filter_In in Hin.
  apply in_map_iff. exists x. tauto.
Qed.

Lemma In_length_pos {A} (x : A) (l : list A) :
  In x l -> (1 <= List.length l)%nat.
Proof. destruct l; cbn; [contradiction | lia]. Qed.

(** With at most one evaluation per user and contribution, the evaluations
    of a contribution are by different users. *)
Lemma evaluators_of_contribution_differ s contribution :
  at_most_one_evaluation s ->
  NoDup
    (map Evaluation.user_id
       (filter (fun e => Z.eqb (Evaluation.contribution_id e) contribution)
          (evaluations s))).
Proof.
  unfold at_most_one_evaluation, evaluations_by.
  induction (evaluations s) as [| a l IH]; intro H; cbn; [constructor |].
  assert (Hl : forall user c,
             (List.length
                (filter
                   (fun e =>
                      Z.eqb (Evaluation.user_id e) user
                      && Z.eqb (Evaluation.contribution_id e) c) l)
              <= 1)%nat).
  { intros user c. specialize (H user c). cbn in H.
    destruct (_ && _) in H; cbn in H; lia. }
  destruct (Z.eqb_spec (Evaluation.contribution_id a) contribution)
    as [Ha | _]; cbn; [| now apply IH].
  constructor; [| now apply IH].
  intro Hin. apply in_map_iff in Hin. destruct Hin as [x [Hx Hin]].
  apply filter_In in Hin. destruct Hin as [Hin Hcx].
  specialize (H (Evaluation.user_id a) contribution).
  set (P := fun e =>
              Z.eqb (Evaluation.user_id e) (Evaluation.user_id a)
              && Z.eqb (Evaluation.contribution_id e) contribution) in *.
  assert (Hx' : In x (filter P l)).
  { apply filter_In. split; [exact Hin |].
    unfold P. rewrite Hx, Z.eqb_refl, Hcx. reflexivity. }
  apply In_length_pos in Hx'.
  cbn [filter] in H.
  assert (HP : P a = true) by (unfold P; now rewrite Z.eqb_refl, Ha, Z.eqb_refl).
  rewrite HP in H. cbn [List.length] in H. lia.
Qed.

(** Evaluations that pass [w] by add nothing to what [w] is due. *)
Lemma snapshot_reward_zero fraction k s evaluation es w :
  (forall a,
     In a es -> equally_voted evaluation a = true ->
     Evaluation.user_id a <> w
     /\ referrer_in s (Evaluation.user_id a) <> Some w) ->
  snapshot_reward fraction k s evaluation es w = 0.
Proof.
  induction es as [| a es IH]; intro H; [reflexivity |].
  cbn [snapshot_reward]. rewrite IH by (intros x Hx; apply H; now right).
  unfold snapshot_step.
  destruct (equally_voted evaluation a) eqn:Ea; [| lra]. cbv zeta.
  destruct (H a (or_introl eq_refl) Ea) as [Hu Href].
  destruct (Z.eqb_spec (Evaluation.user_id a) w); [contradiction |].
  destruct (referrer_in s (Evaluation.user_id a)) as [f |]; [| lra].
  destruct (Z.eqb_spec f w) as [-> | _]; [| lra].
  exfalso. now apply Href.
Qed.

(** What a rewarded evaluator is due comes to [delta], its own reward. *)
Lemma snapshot_reward_of_rewarded fraction k s evaluation es e :
  In e es -> equally_voted evaluation e = true ->
  NoDup (map Evaluation.user_id (filter (equally_voted evaluation) es)) ->
  no_referrer_is_rewarded s evaluation es ->
  snapshot_reward fraction k s evaluation es (Evaluation.user_id e)
  = reputation_or_0 s (Evaluation.user_id e) * k.
Proof.
  intros Hin E. induction es as [| a es IH]; intros Hnd Href;
    [contradiction |].
  cbn [snapshot_reward]. cbn [filter] in Hnd.
  assert (Href' : no_referrer_is_rewarded s evaluation es).
  { intros x y Hx Hy. apply Href; now right. }
  destruct Hin as [-> | Hin].
  - rewrite E in Hnd. cbn [map] in Hnd. apply NoDup_cons_iff in Hnd.
    destruct Hnd as [Hnotin _].
    rewrite snapshot_reward_zero.
    + unfold snapshot_step. rewrite E. cbv zeta. rewrite Z.eqb_refl.
      assert (Hself := Href e e (or_introl eq_refl) (or_introl eq_refl) E E).
      destruct (referrer_in s (Evaluation.user_id e)) as [f |]; [| lra].
      destruct (Z.eqb_spec f (Evaluation.user_id e)) as [-> | _]; [| lra].
      exfalso. now apply Hself.
    + intros x Hx Ex. split.
      * intro Heq. apply Hnotin. rewrite <- Heq. apply in_map.
        apply filter_In. now split.
      * apply (Href e x); cbn; auto.
  - assert (Hstep : snapshot_step fraction k s evaluation a
                      (Evaluation.user_id e) = 0).
    { destruct (equally_voted evaluation a) eqn:Ea.
      - apply snapshot_step_of_later_evaluator.
        + cbn [map] in Hnd. apply NoDup_cons_iff in Hnd.
          destruct Hnd as [Hnotin _].
          intro Heq. apply Hnotin. rewrite Heq. apply in_map.
          apply filter_In. now split.
        + apply (Href e a); cbn; auto.
      - unfold snapshot_step. now rewrite Ea. }
    rewrite Hstep, IH; [lra | exact Hin | | exact Href'].
    destruct (equally_voted evaluation a); [| exact Hnd].
    cbn [map] in Hnd. now apply NoDup_cons_iff in Hnd.
Qed.

(** ** The order of the loop *)

Lemma Permutation_filter_same {A} (p : A -> bool) (l l' : list A) :
  Permutation l l' -> Permutation (filter p l) (filter p l').
Proof.
  induction 1 as [| x l l' _ IH | x y l | l1 l2 l3 _ IH1 _ IH2]; cbn.
  - constructor.
  - destruct (p x); [now constructor | exact IH].
  - destruct (p x), (p y); try reflexivity. apply perm_swap.
  - now transitivity (filter p l2).
Qed.

Lemma Permutation_flat_map_same {A B} (f : A -> list B) (l l' : list A) :
  Permutation l l' -> Permutation (flat_map f l) (flat_map f l').
Proof.
  induction 1 as [| x l l' _ IH | x y l | l1 l2 l3 _ IH1 _ IH2]; cbn.
  - constructor.
  - now apply Permutation_app_head.
  - rewrite !app_assoc. apply Permutation_app_tail, Permutation_app_comm.
  - now transitivity (flat_map f l2).
Qed.

Lemma Rsum_perm (l l' : list R) : Permutation l l' -> Rsum l = Rsum l'.
Proof.
  induction 1 as [| x l l' _ IH | x y l | l1 l2 l3 _ IH1 _ IH2]; cbn;
    try lra.
Qed.

Lemma sql_sum_perm (l l' : list R) : Permutation l l' -> sql_sum l = sql_sum l'.
Proof.
  intro H. pose proof (Rsum_perm l l' H) as Hsum. unfold sql_sum.
  destruct l as [| x l], l' as [| y l']; [reflexivity | | | now f_equal].
  - apply Permutation_nil in H. discriminate H.
  - symmetry in H. apply Permutation_nil in H. discriminate H.
Qed.

Lemma snapshot_reward_perm fraction k s evaluation es es' w :
  Permutation es es' ->
  snapshot_reward fraction k s evaluation es w
  = snapshot_reward fraction k s evaluation es' w.
Proof.
  induction 1 as [| x l l' _ IH | x y l | l1 l2 l3 _ IH1 _ IH2];
    cbn [snapshot_reward]; lra.
Qed.

Lemma query_User_get_same_users s s2 u :
  users s2 = users s -> query_User_get u s2 = query_User_get u s.
Proof. unfold query_User_get. now intros ->. Qed.

(** The sum over the equal voters does not depend on the order in which the
    evaluations are stored. *)
Lemma sum_equally_voted_reputation_perm self evaluation s s2 :
  users s2 = users s -> contributions s2 = contributions s ->
  Permutation (evaluations s2) (evaluations s) ->
  fst (sum_equally_voted_reputation self evaluation s2)
  = fst (sum_equally_voted_reputation self evaluation s).
Proof.
  intros Hu Hc Hp. unfold sum_equally_voted_reputation, bind,
    contribution_attr, query_Contribution_get, user_attr, gets, lift.
  rewrite Hc.
  destruct (find _ (contributions s)) as [c |]; [| reflexivity].
  rewrite (query_User_get_same_users s s2 _ Hu).
  destruct (query_User_get (Evaluation.user_id evaluation) s) as [row |];
    [| reflexivity].
  rewrite Hu.
  rewrite (sql_sum_perm _ _
             (Permutation_flat_map_same _ _ _
                (Permutation_filter_same _ _ _ Hp))).
  destruct (not_None _); reflexivity.
Qed.

Lemma snapshot_reward_same_users fraction k s s2 evaluation es w :
  users s2 = users s ->
  snapshot_reward fraction k s2 evaluation es w
  = snapshot_reward fraction k s evaluation es w.
Proof.
  intro Hu. apply snapshot_reward_ext. intros e _ _.
  unfold reputation_or_0, reputation_of, referrer_in.
  rewrite (query_User_get_same_users s s2 _ Hu).
  destruct (query_User_get (Evaluation.user_id e) s) as [row |];
    [| now split].
  split; [reflexivity |].
  destruct (User.referrer row) as [f |]; [| reflexivity].
  now rewrite (query_User_get_same_users s s2 _ Hu).
Qed.

(** Step 6 in terms of the snapshot, for a store in which no user is
    rewarded twice and no rewarded evaluator refers a rewarded evaluator. *)
Lemma reward_previous_evaluators_snapshot self evaluation s s' c ct :
  reward_previous_evaluators self evaluation s = (Ok tt, s') ->
  query_Contribution_get (Evaluation.contribution_id evaluation) s = Some c ->
  lookup_type (CONTRIBUTION_TYPE self) (Contribution.contribution_type c)
  = Some ct ->
  at_most_one_evaluation s ->
  no_referrer_is_rewarded s evaluation (evaluations_beside evaluation s) ->
  exists equalRep,
    sum_equally_voted_reputation self evaluation s = (Ok equalRep, s)
    /\ ((equalRep = 0 /\ s' = s)
        \/ (equalRep <> 0
            /\ exists r total burn,
                 reputation_of s (Evaluation.user_id evaluation) = Some r
                 /\ equalRep + r <> 0
                 /\ sql_sum (map User.reputation (users s)) = Some total
                 /\ total <> 0
                 /\ float_pow ((equalRep + r) / total) (ALPHA self) = Ok burn
                 /\ forall w,
                      reputation_of s' w
                      = option_map
                          (fun x =>
                             x + snapshot_reward
                                   (REFERRAL_REWARD_FRACTION self)
                                   (distribution_stake ct
                                    * (r / (equalRep + r)) * burn)
                                   s evaluation
                                   (evaluations_beside evaluation s) w)
                          (reputation_of s w))).
Proof.
  intros Hrun Hc Hct Hone Href.
  destruct (reward_previous_evaluators_inv self evaluation s s' Hrun)
    as [equalRep [Heq [[H0 Hs] | [Hnz [r [total [burn [c' H]]]]]]]];
    exists equalRep; (split; [exact Heq |]); [left; now split | right].
  destruct H as [Hr [Hnz' [Htot [Htnz [Hburn [Hc' Hloop]]]]]].
  rewrite Hc in Hc'. inversion Hc'. subst c'.
  split; [exact Hnz |]. exists r, total, burn.
  repeat (split; [assumption |]).
  intro w.
  apply (reward_loop_reputation self evaluation (r / (equalRep + r)) burn
           c ct (evaluations_beside evaluation s) s s' w Hloop Hc Hct).
  - apply evaluators_kept_differ. now apply evaluators_of_contribution_differ.
  - exact Href.
Qed.

Lemma at_most_one_evaluation_perm s s2 :
  Permutation (evaluations s2) (evaluations s) ->
  at_most_one_evaluation s -> at_most_one_evaluation s2.
Proof.
  intros Hp H user contribution. unfold evaluations_by.
  rewrite (Permutation_length (Permutation_filter_same _ _ _ Hp)).
  apply H.
Qed.

(** Under the same provisos the outcome of step 6 does not depend on the
    order in which the evaluations are stored. *)
Lemma reward_previous_evaluators_order self evaluation s s' s2 s2' c ct :
  reward_previous_evaluators self evaluation s = (Ok tt, s') ->
  query_Contribution_get (Evaluation.contribution_id evaluation) s = Some c ->
  lookup_type (CONTRIBUTION_TYPE self) (Contribution.contribution_type c)
  = Some ct ->
  at_most_one_evaluation s ->
  no_referrer_is_rewarded s evaluation (evaluations_beside evaluation s) ->
  users s2 = users s -> contributions s2 = contributions s ->
  Permutation (evaluations s2) (evaluations s) ->
  reward_previous_evaluators self evaluation s2 = (Ok tt, s2') ->
  forall w, reputation_of s2' w = reputation_of s' w.
Proof.
  intros Hrun Hc Hct Hone Href Hu Hcs Hp Hrun2 w.
  assert (Hp' : Permutation (evaluations_beside evaluation s2)
                  (evaluations_beside evaluation s)).
  { now apply Permutation_filter_same. }
  assert (Hc2 : query_Contribution_get
                  (Evaluation.contribution_id evaluation) s2 = Some c).
  { unfold query_Contribution_get in *. now rewrite Hcs. }
  assert (Href2 : no_referrer_is_rewarded s2 evaluation
                    (evaluations_beside evaluation s2)).
  { intros e e' He He' E E'.
    assert (Hsame : referrer_in s2 (Evaluation.user_id e')
                    = referrer_in s (Evaluation.user_id e')).
    { unfold referrer_in. rewrite (query_User_get_same_users s s2 _ Hu).
      destruct (query_User_get (Evaluation.user_id e') s) as [row |];
        [| reflexivity].
      destruct (User.referrer row) as [f |]; [| reflexivity].
      now rewrite (query_User_get_same_users s s2 _ Hu). }
    rewrite Hsame.
    apply Href; auto; eapply Permutation_in; eauto. }
  destruct (reward_previous_evaluators_snapshot self evaluation s s' c ct
              Hrun Hc Hct Hone Href) as [eq1 [Heq1 Hcase1]].
  destruct (reward_previous_evaluators_snapshot self evaluation s2 s2' c ct
              Hrun2 Hc2 Hct (at_most_one_evaluation_perm s s2 Hp Hone) Href2)
    as [eq2 [Heq2 Hcase2]].
  pose proof (sum_equally_voted_reputation_perm self evaluation s s2 Hu Hcs Hp)
    as Hsum.
  rewrite Heq1, Heq2 in Hsum. cbn in Hsum. inversion Hsum. subst eq2.
  assert (Hrep : forall u, reputation_of s2 u = reputation_of s u).
  { intro u. unfold reputation_of.
    now rewrite (query_User_get_same_users s s2 _ Hu). }
  destruct Hcase1 as [[H0 ->] | [Hnz [r [total [burn H1]]]]];
    destruct Hcase2 as [[H0' ->] | [Hnz' [r2 [total2 [burn2 H2]]]]];
    try contradiction; [apply Hrep |].
  destruct H1 as [Hr [_ [Htot [_ [Hburn Hall]]]]].
  destruct H2 as [Hr2 [_ [Htot2 [_ [Hburn2 Hall2]]]]].
  rewrite Hrep, Hr in Hr2. inversion Hr2. subst r2.
  rewrite Hu, Htot in Htot2. inversion Htot2. subst total2.
  rewrite Hburn in Hburn2. inversion Hburn2. subst burn2.
  rewrite Hall, Hall2, Hrep.
  rewrite (snapshot_reward_same_users _ _ s s2 _ _ _ Hu).
  rewrite (snapshot_reward_perm _ _ _ _ _ _ _ Hp').
  reflexivity.
Qed.

(** * Step 6 on stores with referrers *)

Example referral_history_runs :
  run_calls BaseContract referral_history empty_session = referrer_upvoted.
Proof.
  unfold referral_history, empty_session, referrer_upvoted.
  run_history. repeat f_equal; lra.
Qed.

Example third_upvote_compounds :
  create_evaluation BaseContract 3 1 1 referrer_upvoted
  = (Ok (Evaluation.mk 3 3 1 1), referrer_compounded).
Proof. unfold referrer_upvoted, referrer_compounded. py_exec. Qed.

Example step_6_compounds :
  reward_previous_evaluators BaseContract (Evaluation.mk 3 3 1 1)
    third_upvote_inserted
  = (Ok tt, referrer_compounded).
Proof. unfold third_upvote_inserted, referrer_compounded. py_exec. Qed.

Example step_6_referrer_first :
  reward_previous_evaluators BaseContract (Evaluation.mk 3 3 1 1)
    third_upvote_inserted_referrer_first
  = (Ok tt, referrer_rewarded_first).
Proof.
  unfold third_upvote_inserted_referrer_first, referrer_rewarded_first.
  py_exec.
Qed.

Example step_6_second_downvote :
  reward_previous_evaluators BaseContract (Evaluation.mk 2 2 1 0)
    second_downvote_inserted
  = (Ok tt, creator_rewarded).
Proof. unfold second_downvote_inserted, creator_rewarded. py_exec. Qed.

(** What the snapshot gives the referrer of one rewarded evaluator. *)
Lemma snapshot_reward_of_referrer fraction k s evaluation es e f :
  In e es -> equally_voted evaluation e = true ->
  referrer_in s (Evaluation.user_id e) = Some f ->
  (forall a,
     In a es -> equally_voted evaluation a = true ->
     Evaluation.user_id a <> Evaluation.user_id e ->
     referrer_in s (Evaluation.user_id a) <> Some f) ->
  NoDup (map Evaluation.user_id (filter (equally_voted evaluation) es)) ->
  no_referrer_is_rewarded s evaluation es ->
  snapshot_reward fraction k s evaluation es f
  = reputation_or_0 s (Evaluation.user_id e) * k * fraction.
Proof.
  intros Hin E Hf. induction es as [| a es IH]; intros Hothers Hnd Href;
    [contradiction |].
  cbn [snapshot_reward]. cbn [filter] in Hnd.
  assert (Href' : no_referrer_is_rewarded s evaluation es).
  { intros x y Hx Hy. apply Href; now right. }
  assert (Hnotf : forall x,
             In x (a :: es) -> equally_voted evaluation x = true ->
             Evaluation.user_id x <> f).
  { intros x Hx Ex Heq.
    apply (Href x e Hx Hin Ex E). now rewrite Heq. }
  destruct (equally_voted evaluation a) eqn:Ea.
  - cbn [map] in Hnd. apply NoDup_cons_iff in Hnd. destruct Hnd as [Hnotin Hnd].
    destruct (Z.eq_dec (Evaluation.user_id a) (Evaluation.user_id e))
      as [Hae | Hae].
    + rewrite snapshot_reward_zero.
      * unfold snapshot_step. rewrite Ea. cbv zeta.
        destruct (Z.eqb_spec (Evaluation.user_id a) f) as [Haf | _].
        { exfalso. apply (Hnotf a (or_introl eq_refl) Ea Haf). }
        rewrite Hae, Hf, Z.eqb_refl. lra.
      * intros x Hx Ex. split; [apply Hnotf; [now right | exact Ex] |].
        apply Hothers; [now right | exact Ex |].
        intro Hxe. apply Hnotin. rewrite Hae, <- Hxe.
        apply in_map, filter_In. now split.
    + destruct Hin as [-> | Hin]; [contradiction |].
      rewrite IH; auto.
      * unfold snapshot_step. rewrite Ea. cbv zeta.
        destruct (Z.eqb_spec (Evaluation.user_id a) f) as [Haf | _].
        { exfalso. apply (Hnotf a (or_introl eq_refl) Ea Haf). }
        pose proof (Hothers a (or_introl eq_refl) Ea Hae) as Hra.
        destruct (referrer_in s (Evaluation.user_id a)) as [g |]; [| lra].
        destruct (Z.eqb_spec g f) as [-> | _]; [congruence | lra].
      * intros x Hx. apply Hothers. now right.
  - destruct Hin as [-> | Hin]; [congruence |].
    rewrite IH; auto.
    + unfold snapshot_step. rewrite Ea. lra.
    + intros x Hx. apply Hothers. now right.
Qed.

(** C1, amended.  Let step 6 ([reward_previous_evaluators]) return on a store
    with at most one evaluation per user and contribution, in which no
    rewarded evaluator is the referrer of a rewarded evaluator.  When the
    aggregate [equalRep] is zero the store is left as it is.  Otherwise, with
    [r] the reputation of the evaluator and
    [k = distribution_stake * (r / (equalRep + r)) * burn],
    - the reputation of every user grows by the reward computed from the
      reputations at the start of the step ([snapshot_reward]);
    - every other evaluator [e] of the contribution with the same value
      gains exactly [r_e * k], with [r_e] the reputation at the start;
    - a user who refers one rewarded evaluator [e] gains exactly
      [r_e * k * REFERRAL_REWARD_FRACTION];
    - nobody else's reputation changes;
    and the outcome is the same for every order of the stored evaluations.
    Without the proviso on referrers the loop reads reputations it has
    already raised, and the reward of a referrer compounds. *)
Theorem previous_evaluators_are_rewarded_from_the_snapshot :
  forall (self : Contract) (evaluation : Evaluation.t) (s s' : DBSession)
         (c : Contribution.t) (ct : ContributionType),
    reward_previous_evaluators self evaluation s = (Ok tt, s') ->
    query_Contribution_get (Evaluation.contribution_id evaluation) s = Some c ->
    lookup_type (CONTRIBUTION_TYPE self) (Contribution.contribution_type c)
    = Some ct ->
    at_most_one_evaluation s ->
    no_referrer_is_rewarded s evaluation (evaluations_beside evaluation s) ->
    (exists equalRep,
       sum_equally_voted_reputation self evaluation s = (Ok equalRep, s)
       /\ ((equalRep = 0 /\ s' = s)
           \/ (equalRep <> 0
               /\ exists r total burn,
                    reputation_of s (Evaluation.user_id evaluation) = Some r
                    /\ equalRep + r <> 0
                    /\ sql_sum (map User.reputation (users s)) = Some total
                    /\ total <> 0
                    /\ float_pow ((equalRep + r) / total) (ALPHA self)
                       = Ok burn
                    /\ let k := distribution_stake ct
                                * (r / (equalRep + r)) * burn in
                       (forall w,
                          reputation_of s' w
                          = option_map
                              (fun x =>
                                 x + snapshot_reward
                                       (REFERRAL_REWARD_FRACTION self) k s
                                       evaluation
                                       (evaluations_beside evaluation s) w)
                              (reputation_of s w))
                       /\ (forall e,
                             In e (evaluations_beside evaluation s) ->
                             equally_voted evaluation e = true ->
                             reputation_of s' (Evaluation.user_id e)
                             = option_map (fun r_e => r_e + r_e * k)
                                 (reputation_of s (Evaluation.user_id e)))
                       /\ (forall e f,
                             In e (evaluations_beside evaluation s) ->
                             equally_voted evaluation e = true ->
                             referrer_in s (Evaluation.user_id e) = Some f ->
                             (forall a,
                                In a (evaluations_beside evaluation s) ->
                                equally_voted evaluation a = true ->
                                Evaluation.user_id a <> Evaluation.user_id e ->
                                referrer_in s (Evaluation.user_id a)
                                <> Some f) ->
                             reputation_of s' f
                             = option_map
                                 (fun r_f =>
                                    r_f
                                    + reputation_or_0 s (Evaluation.user_id e)
                                      * k * REFERRAL_REWARD_FRACTION self)
                                 (reputation_of s f))
                       /\ (forall w,
                             (forall a,
                                In a (evaluations_beside evaluation s) ->
                                equally_voted evaluation a = true ->
                                Evaluation.user_id a <> w
                                /\ referrer_in s (Evaluation.user_id a)
                                   <> Some w) ->
                             reputation_of s' w = reputation_of s w))))
    /\ (forall s2 s2',
          users s2 = users s -> contributions s2 = contributions s ->
          Permutation (evaluations s2) (evaluations s) ->
          reward_previous_evaluators self evaluation s2 = (Ok tt, s2') ->
          forall w, reputation_of s2' w = reputation_of s' w).
Proof.
  intros self evaluation s s' c ct Hrun Hc Hct Hone Href.
  split.
  - destruct (reward_previous_evaluators_snapshot self evaluation s s' c ct
                Hrun Hc Hct Hone Href) as [equalRep [Heq Hcase]].
    exists equalRep. split; [exact Heq |].
    destruct Hcase as [H0 | [Hnz [r [total [burn H]]]]]; [now left | right].
    destruct H as [Hr [Hnz' [Htot [Htnz [Hburn Hall]]]]].
    split; [exact Hnz |]. exists r, total, burn.
    repeat (split; [assumption |]).
    assert (Hnd : NoDup (map Evaluation.user_id
                           (filter (equally_voted evaluation)
                              (evaluations_beside evaluation s)))).
    { apply evaluators_kept_differ. now apply evaluators_of_contribution_differ. }
    cbv zeta. split; [| split].
    + intros e He E. rewrite Hall.
      rewrite (snapshot_reward_of_rewarded _ _ s evaluation _ e He E Hnd Href).
      unfold reputation_or_0.
      destruct (reputation_of s (Evaluation.user_id e)); reflexivity.
    + intros e f He E Hf Hothers. rewrite Hall.
      rewrite (snapshot_reward_of_referrer _ _ s evaluation _ e f
                 He E Hf Hothers Hnd Href).
      reflexivity.
    + intros w Hw. rewrite Hall.
      apply option_map_plus_0. now apply snapshot_reward_zero.
  - intros s2 s2' Hu Hcs Hp Hrun2.
    exact (reward_previous_evaluators_order self evaluation s s' s2 s2' c ct
             Hrun Hc Hct Hone Href Hu Hcs Hp Hrun2).
Qed.

Lemma second_downvote_inserted_at_most_one :
  at_most_one_evaluation second_downvote_inserted.
Proof.
  intros user contribution. unfold evaluations_by, second_downvote_inserted.
  cbn [evaluations filter Evaluation.user_id Evaluation.contribution_id].
  destruct (Z.eqb_spec 1 user); destruct (Z.eqb_spec 2 user);
    destruct (Z.eqb_spec 1 contribution); cbn [andb List.length]; lia.
Qed.

Lemma second_downvote_inserted_no_referrer :
  no_referrer_is_rewarded second_downvote_inserted (Evaluation.mk 2 2 1 0)
    (evaluations_beside (Evaluation.mk 2 2 1 0) second_downvote_inserted).
Proof.
  intros e e' He He' E E'. cbn in He, He'.
  destruct He' as [<- | [<- | []]]; cbn; discriminate.
Qed.

(** C1, as stated, fails.  The history [referral_history] leaves user 2,
    referred by user 1, and then user 1 with an upvote on the contribution.
    When user 3 upvotes, step 6 starts from reputations 5.064 and 20.32 with
    [k = 0.08 * 0.5 * 1].  The loop first rewards user 2 and credits the
    referrer, user 1, with [20.32 * k * 0.2]; it then rewards user 1 on the
    reputation it has just raised, leaving 5.4356224, where the reputations
    at the start of the step give 5.42912.  With the two evaluations stored
    in the other order the same step leaves 5.42912. *)
Lemma referrer_reward_compounds_in_the_loop :
  run_calls BaseContract referral_history empty_session = referrer_upvoted
  /\ create_evaluation BaseContract 3 1 1 referrer_upvoted
     = (Ok (Evaluation.mk 3 3 1 1), referrer_compounded)
  /\ reward_previous_evaluators BaseContract (Evaluation.mk 3 3 1 1)
       third_upvote_inserted
     = (Ok tt, referrer_compounded)
  /\ reputation_of third_upvote_inserted 1 = Some 5.064
  /\ reputation_of third_upvote_inserted 2 = Some 20.32
  /\ reputation_of third_upvote_inserted 3 = Some 25.384
  /\ float_pow ((25.384 + 25.384) / (5.064 + 20.32 + 25.384))
       (ALPHA BaseContract)
     = Ok 1
  /\ 5.064
     + snapshot_reward (REFERRAL_REWARD_FRACTION BaseContract)
         (0.08 * (25.384 / (25.384 + 25.384)) * 1)
         third_upvote_inserted (Evaluation.mk 3 3 1 1)
         (evaluations_beside (Evaluation.mk 3 3 1 1) third_upvote_inserted) 1
     = 5.42912
  /\ reputation_of referrer_compounded 1 = Some 5.4356224
  /\ 5.42912 < 5.4356224
  /\ users third_upvote_inserted_referrer_first = users third_upvote_inserted
  /\ contributions third_upvote_inserted_referrer_first
     = contributions third_upvote_inserted
  /\ Permutation (evaluations third_upvote_inserted_referrer_first)
       (evaluations third_upvote_inserted)
  /\ reward_previous_evaluators BaseContract (Evaluation.mk 3 3 1 1)
       third_upvote_inserted_referrer_first
     = (Ok tt, referrer_rewarded_first)
  /\ reputation_of referrer_rewarded_first 1 = Some 5.42912.
Proof.
  split; [exact referral_history_runs |].
  split; [exact third_upvote_compounds |].
  split; [exact step_6_compounds |].
  do 3 (split; [reflexivity |]).
  split.
  { unfold float_pow. cbn [ALPHA BaseContract].
    rewrite (Reqb_false 0.7 0) by lra.
    rewrite (Rltb_true 0 _) by lra.
    f_equal. apply Rpower_eq_one. lra. }
  split.
  { cbn. unfold reputation_or_0. cbn. lra. }
  split; [reflexivity |]. split; [lra |].
  do 2 (split; [reflexivity |]).
  split; [apply perm_swap |].
  split; [exact step_6_referrer_first | reflexivity].
Qed.

Lemma previous_evaluators_are_rewarded_from_the_snapshot_witness :
  (exists equalRep,
     sum_equally_voted_reputation BaseContract (Evaluation.mk 2 2 1 0)
       second_downvote_inserted
     = (Ok equalRep, second_downvote_inserted)
     /\ ((equalRep = 0 /\ creator_rewarded = second_downvote_inserted)
         \/ (equalRep <> 0
             /\ exists r total burn,
                  reputation_of second_downvote_inserted 2 = Some r
                  /\ equalRep + r <> 0
                  /\ sql_sum
                       (map User.reputation (users second_downvote_inserted))
                     = Some total
                  /\ total <> 0
                  /\ float_pow ((equalRep + r) / total) (ALPHA BaseContract)
                     = Ok burn
                  /\ let k := distribution_stake base_type
                              * (r / (equalRep + r)) * burn in
                     (forall w,
                        reputation_of creator_rewarded w
                        = option_map
                            (fun x =>
                               x + snapshot_reward
                                     (REFERRAL_REWARD_FRACTION BaseContract)
                                     k second_downvote_inserted
                                     (Evaluation.mk 2 2 1 0)
                                     (evaluations_beside
                                        (Evaluation.mk 2 2 1 0)
                                        second_downvote_inserted) w)
                            (reputation_of second_downvote_inserted w))
                     /\ (forall e,
                           In e (evaluations_beside (Evaluation.mk 2 2 1 0)
                                   second_downvote_inserted) ->
                           equally_voted (Evaluation.mk 2 2 1 0) e = true ->
                           reputation_of creator_rewarded
                             (Evaluation.user_id e)
                           = option_map (fun r_e => r_e + r_e * k)
                               (reputation_of second_downvote_inserted
                                  (Evaluation.user_id e)))
                     /\ (forall e f,
                           In e (evaluations_beside (Evaluation.mk 2 2 1 0)
                                   second_downvote_inserted) ->
                           equally_voted (Evaluation.mk 2 2 1 0) e = true ->
                           referrer_in second_downvote_inserted
                             (Evaluation.user_id e) = Some f ->
                           (forall a,
                              In a (evaluations_beside
                                      (Evaluation.mk 2 2 1 0)
                                      second_downvote_inserted) ->
                              equally_voted (Evaluation.mk 2 2 1 0) a = true ->
                              Evaluation.user_id a <> Evaluation.user_id e ->
                              referrer_in second_downvote_inserted
                                (Evaluation.user_id a) <> Some f) ->
                           reputation_of creator_rewarded f
                           = option_map
                               (fun r_f =>
                                  r_f
                                  + reputation_or_0 second_downvote_inserted
                                      (Evaluation.user_id e)
                                    * k
                                    * REFERRAL_REWARD_FRACTION BaseContract)
                               (reputation_of second_downvote_inserted f))
                     /\ (forall w,
                           (forall a,
                              In a (evaluations_beside
                                      (Evaluation.mk 2 2 1 0)
                                      second_downvote_inserted) ->
                              equally_voted (Evaluation.mk 2 2 1 0) a = true ->
                              Evaluation.user_id a <> w
                              /\ referrer_in second_downvote_inserted
                                   (Evaluation.user_id a) <> Some w) ->
                           reputation_of creator_rewarded w
                           = reputation_of second_downvote_inserted w))))
  /\ (forall s2 s2',
        users s2 = users second_downvote_inserted ->
        contributions s2 = contributions second_downvote_inserted ->
        Permutation (evaluations s2) (evaluations second_downvote_inserted) ->
        reward_previous_evaluators BaseContract (Evaluation.mk 2 2 1 0) s2
        = (Ok tt, s2') ->
        forall w, reputation_of s2' w = reputation_of creator_rewarded w).
Proof.
  exact (previous_evaluators_are_rewarded_from_the_snapshot BaseContract
           (Evaluation.mk 2 2 1 0) second_downvote_inserted creator_rewarded
           (Contribution.mk 1 1 "base" 1 0 0) base_type
           step_6_second_downvote eq_refl eq_refl
           second_downvote_inserted_at_most_one
           second_downvote_inserted_no_referrer).
Defined.

(** * Sums of reputation *)

Lemma Rsum_app (l l' : list R) : Rsum (l ++ l') = Rsum l + Rsum l'.
Proof. induction l as [| x l IH]; cbn; [lra | rewrite IH; lra]. Qed.

Lemma Rsum_nonneg (l : list R) : Forall (fun x => 0 <= x) l -> 0 <= Rsum l.
Proof. induction 1; cbn; lra. Qed.

Lemma find_first {A} (p : A -> bool) (l : list A) (x : A) :
  find p l = Some x ->
  exists l1 l2, l = l1 ++ x :: l2 /\ find p l1 = None.
Proof.
  induction l as [| a l IH]; cbn; [discriminate |].
  destruct (p a) eqn:E.
  - intro H. inversion H. subst a. now exists [], l.
  - intro H. destruct (IH H) as [l1 [l2 [-> Hl1]]].
    exists (a :: l1), l2. cbn. now rewrite E.
Qed.

Lemma find_without {A} (q : A -> bool) (l1 l2 : list A) (x : A) :
  q x = false -> find q (l1 ++ x :: l2) = find q (l1 ++ l2).
Proof.
  intro Hx. induction l1 as [| a l1 IH]; cbn; [now rewrite Hx |].
  destruct (q a); [reflexivity | exact IH].
Qed.

Lemma reputation_in_nonneg (us : list User.t) (i : Z) :
  Forall (fun u => 0 <= User.reputation u) us -> 0 <= reputation_in us i.
Proof.
  intro H. unfold reputation_in.
  destruct (find _ us) as [u |] eqn:E; [| lra].
  apply find_some in E. destruct E as [E _].
  rewrite Forall_forall in H. now apply H.
Qed.

(** Distinct users hold no more reputation than all users together. *)
Lemma reputation_of_distinct_users (ids : list Z) :
  forall us,
    NoDup ids ->
    Forall (fun u => 0 <= User.reputation u) us ->
    Rsum (map (reputation_in us) ids) <= Rsum (map User.reputation us).
Proof.
  induction ids as [| i ids IH]; intros us Hnd Hpos; cbn.
  - apply Rsum_nonneg. rewrite Forall_map. exact Hpos.
  - apply NoDup_cons_iff in Hnd. destruct Hnd as [Hnotin Hnd].
    unfold reputation_in at 1.
    destruct (find (fun u => Z.eqb (User.id u) i) us) as [u |] eqn:E.
    + pose proof (find_user_id _ _ _ E) as Hid.
      destruct (find_first _ _ _ E) as [l1 [l2 [-> Hl1]]].
      assert (Hpos' : Forall (fun u => 0 <= User.reputation u) (l1 ++ l2)).
      { rewrite Forall_app in *. destruct Hpos as [H1 H2].
        split; [exact H1 | now inversion H2]. }
      specialize (IH (l1 ++ l2) Hnd Hpos').
      rewrite map_app, Rsum_app. cbn.
      rewrite map_app, Rsum_app in IH.
      assert (Hsame : map (reputation_in (l1 ++ u :: l2)) ids
                      = map (reputation_in (l1 ++ l2)) ids).
      { apply map_ext_in. intros j Hj. unfold reputation_in.
        rewrite find_without; [reflexivity |].
        apply Z.eqb_neq. intro Hij. apply Hnotin. congruence. }
      rewrite Hsame. lra.
    + specialize (IH us Hnd Hpos). lra.
Qed.

Lemma sum_reputation_value (es : list Evaluation.t) :
  forall s x s1,
    sum_reputation es s = (Ok x, s1) ->
    s1 = s
    /\ x = Rsum (map (reputation_in (users s)) (map Evaluation.user_id es)).
Proof.
  induction es as [| e es IH]; intros s x s1 H; cbn in H.
  - inversion H. now split.
  - apply bind_inv in H. destruct H as [r [s_1 [Hr H]]].
    apply user_attr_inv in Hr. destruct Hr as [-> [row [Hrow ->]]].
    apply bind_inv in H. destruct H as [acc [s_1 [Hacc H]]].
    destruct (IH _ _ _ Hacc) as [-> ->].
    unfold ret in H. inversion H. subst. split; [reflexivity |].
    cbn [map Rsum]. f_equal. unfold reputation_in.
    unfold query_User_get in Hrow. now rewrite Hrow.
Qed.


Lemma contribution_evaluations_inv contribution s es s1 :
  contribution_evaluations contribution s = (Ok es, s1) ->
  s1 = s
  /\ es = filter (fun e => Z.eqb (Evaluation.contribution_id e) contribution)
            (evaluations s).
Proof.
  unfold contribution_evaluations. intro H.
  apply bind_inv in H. destruct H as [i [s_1 [Hi H]]].
  apply contribution_attr_inv in Hi. destruct Hi as [-> _].
  unfold gets in H. inversion H. now split.
Qed.


Lemma sql_sum_value (rows : list R) (total : R) :
  sql_sum rows = Some total -> total = Rsum rows.
Proof. destruct rows; intro H; inversion H. reflexivity. Qed.

Lemma fraction_of_total (x total : R) :
  0 <= x <= total -> total <> 0 -> 0 <= x / total <= 1.
Proof.
  intros Hx Hnz. assert (Hpos : 0 < total) by lra.
  assert (Hq : x / total * total = x) by (field; lra).
  split.
  - apply Rmult_le_reg_r with total; [exact Hpos | lra].
  - apply Rmult_le_reg_r with total; [exact Hpos | lra].
Qed.

Ltac at_most_one_here :=
  intros ? ?; unfold evaluations_by;
  cbn [evaluations filter Evaluation.user_id Evaluation.contribution_id];
  repeat match goal with
         | |- context [Z.eqb ?a ?b] => destruct (Z.eqb_spec a b)
         end;
  cbn [andb List.length]; lia.







Lemma contribution_score_inv contribution s x s1 :
  contribution_score contribution s = (Ok x, s1) ->
  s1 = s
  /\ exists upvotes downvotes total row,
       contribution_upvotes contribution s = (Ok upvotes, s)
       /\ sum_reputation
            (filter (fun e => Z.eqb (Evaluation.value e) 0)
               (filter
                  (fun e => Z.eqb (Evaluation.contribution_id e) contribution)
                  (evaluations s))) s
          = (Ok downvotes, s)
       /\ sql_sum (map User.reputation (users s)) = Some total
       /\ total <> 0
       /\ query_Contribution_get contribution s = Some row
       /\ IZR (30 + (now s - Contribution.time row) / 86400) <> 0
       /\ x = (1 - downvotes / total) * upvotes
              * (0.1 + 27 / IZR (30 + (now s - Contribution.time row) / 86400)).
Proof.
  unfold contribution_score. intro H.
  apply bind_inv in H. destruct H as [t0 [s_1 [Ht H]]].
  unfold total_reputation, gets in Ht. inversion Ht. subst t0 s_1. clear Ht.
  apply bind_inv in H. destruct H as [upvotes [s_1 [Hup H]]].
  pose proof (read_only_inv _ _ _ _ (read_only_contribution_upvotes _) Hup).
  subst s_1.
  apply bind_inv in H. destruct H as [es [s_1 [Hes H]]].
  apply contribution_evaluations_inv in Hes. destruct Hes as [-> ->].
  apply bind_inv in H. destruct H as [downvotes [s_1 [Hdown H]]].
  pose proof (sum_reputation_value _ _ _ _ Hdown) as [-> _].
  apply bind_inv in H. destruct H as [total [s_1 [Ht H]]].
  apply lift_inv in Ht. destruct Ht as [-> Ht]. apply not_None_inv in Ht.
  apply bind_inv in H. destruct H as [d [s_1 [Hd H]]].
  apply lift_inv in Hd. destruct Hd as [-> Hd]. apply truediv_inv in Hd.
  destruct Hd as [Hnz ->].
  apply bind_inv in H. destruct H as [t [s_1 [Hrow H]]].
  apply contribution_attr_inv in Hrow. destruct Hrow as [-> [row [Hrow ->]]].
  apply bind_inv in H. destruct H as [present [s_1 [Hnow H]]].
  unfold gets in Hnow. inversion Hnow. subst present s_1. clear Hnow.
  cbv zeta in H.
  apply bind_inv in H. destruct H as [recency [s_1 [Hrec H]]].
  apply lift_inv in Hrec. destruct Hrec as [-> Hrec].
  apply truediv_inv in Hrec. destruct Hrec as [Hdays ->].
  unfold ret in H. injection H as Hx Hs. subst s1.
  split; [reflexivity |]. exists upvotes, downvotes, total, row.
  repeat (split; [assumption |]). symmetry. exact Hx.
Qed.






(** * Bounds of the evaluation fee *)

Lemma float_pow_fraction (x b p : R) :
  0 <= x <= 1 -> 0 < b -> float_pow x b = Ok p ->
  0 <= p <= 1 /\ (x = 1 -> p = 1).
Proof.
  intros Hx Hb. unfold float_pow.
  rewrite (Reqb_false b 0) by lra.
  destruct (Rltb 0 x) eqn:E.
  - apply Rltb_spec in E. intro H. inversion H.
    destruct (Req_dec_T x 1) as [-> | Hne].
    + rewrite Rpower_one. split; [lra | reflexivity].
    + pose proof (Rpower_bounds x b ltac:(lra) Hb). split; [lra | contradiction].
  - assert (H0 : x = 0).
    { destruct (Rle_lt_or_eq_dec 0 x (proj1 Hx)) as [Hlt | Heq];
        [| now symmetry].
      apply Rltb_spec in Hlt. congruence. }
    subst x. rewrite (Reqb_true 0 0) by reflexivity.
    rewrite (Rltb_true 0 b) by exact Hb.
    intro H. inversion H. split; lra.
Qed.

Lemma engaged_reputation_bounds contribution s engaged :
  engaged_reputation contribution s = (Ok engaged, s) ->
  at_most_one_evaluation s ->
  nonnegative_reputations s ->
  0 <= engaged <= Rsum (map User.reputation (users s)).
Proof.
  unfold engaged_reputation. intros H Hone Hpos.
  apply bind_inv in H. destruct H as [es [s_1 [Hes H]]].
  apply contribution_evaluations_inv in Hes. destruct Hes as [-> ->].
  apply sum_reputation_value in H. destruct H as [_ ->].
  split.
  - apply Rsum_nonneg. rewrite Forall_map, Forall_forall. intros i _.
    now apply reputation_in_nonneg.
  - apply reputation_of_distinct_users; [| exact Hpos].
    now apply evaluators_of_contribution_differ.
Qed.

Lemma nonnegative_set_reputation user x s :
  0 <= x ->
  nonnegative_reputations s ->
  nonnegative_reputations (snd (user_update user (set_reputation x) s)).
Proof.
  unfold nonnegative_reputations. intros Hx H. cbn.
  rewrite Forall_map. revert H. apply Forall_impl. intros u Hu.
  destruct (Z.eqb (User.id u) user); [exact Hx | exact Hu].
Qed.

Example first_upvote_pays_the_fee :
  pay_evaluation_fee BaseContract (Evaluation.mk 1 2 1 1) first_upvote_inserted
  = (Ok tt, first_upvote_paid).
Proof. unfold first_upvote_inserted, first_upvote_paid. py_exec. Qed.

(** X3. When [pay_evaluation_fee] returns on a store with at most one
    evaluation per user and contribution and without negative reputations,
    for a positive BETA and a [stake] between 0 and 1, the fee it takes from
    the evaluator is between 0 and [stake] times the evaluator's reputation:
    the reputation falls to no less than [(1 - stake) * r], no reputation
    becomes negative, and the fee is zero when the evaluators of the
    contribution hold all the reputation there is. *)
Theorem evaluation_fee_is_bounded :
  forall (self : Contract) (evaluation : Evaluation.t) (s s2 : DBSession),
    pay_evaluation_fee self evaluation s = (Ok tt, s2) ->
    at_most_one_evaluation s ->
    nonnegative_reputations s ->
    0 < BETA self ->
    (forall t ct,
       lookup_type (CONTRIBUTION_TYPE self) t = Some ct -> 0 <= stake ct <= 1) ->
    exists r r' engaged total c ct,
      reputation_of s (Evaluation.user_id evaluation) = Some r
      /\ reputation_of s2 (Evaluation.user_id evaluation) = Some r'
      /\ engaged_reputation (Evaluation.contribution_id evaluation) s
         = (Ok engaged, s)
      /\ sql_sum (map User.reputation (users s)) = Some total
      /\ query_Contribution_get (Evaluation.contribution_id evaluation) s
         = Some c
      /\ lookup_type (CONTRIBUTION_TYPE self)
           (Contribution.contribution_type c) = Some ct
      /\ (1 - stake ct) * r <= r' <= r
      /\ (engaged = total -> r' = r)
      /\ nonnegative_reputations s2.
Proof.
  intros self evaluation s s2 H Hone Hpos Hbeta Hstake.
  apply pay_evaluation_fee_spec in H.
  destruct H as [u [engaged [total [power [c [ct H]]]]]].
  destruct H as [Hu [Heng [Htot [Hnz [Hpow [Hc [Hct ->]]]]]]].
  pose proof (engaged_reputation_bounds _ _ _ Heng Hone Hpos) as Hbounds.
  pose proof (sql_sum_value _ _ Htot) as Htotal.
  rewrite <- Htotal in Hbounds.
  pose proof (fraction_of_total _ _ Hbounds Hnz) as Hratio.
  destruct (float_pow_fraction _ _ _ Hratio Hbeta Hpow) as [Hpower Hone'].
  specialize (Hstake _ _ Hct).
  assert (Hr : 0 <= User.reputation u).
  { unfold query_User_get in Hu. apply find_some in Hu. destruct Hu as [Hu _].
    unfold nonnegative_reputations in Hpos. rewrite Forall_forall in Hpos.
    now apply Hpos. }
  set (r := User.reputation u) in *.
  assert (Hfee : 0 <= stake ct * (r * (1 - power)) <= stake ct * r).
  { split.
    - apply Rmult_le_pos; [lra |]. apply Rmult_le_pos; lra.
    - apply Rmult_le_compat_l; [lra |]. nra. }
  assert (Hkeep : stake ct * r <= r) by nra.
  exists r, (r - stake ct * (r * (1 - power))), engaged, total, c, ct.
  split; [unfold reputation_of; now rewrite Hu |].
  split.
  { unfold reputation_of. rewrite query_User_get_update by reflexivity.
    rewrite Z.eqb_refl, Hu. reflexivity. }
  do 4 (split; [assumption |]).
  split; [lra |]. split.
  - intros ->. rewrite Hone'; [lra |]. field. exact Hnz.
  - apply nonnegative_set_reputation; [lra | exact Hpos].
Qed.

Lemma first_upvote_inserted_at_most_one :
  at_most_one_evaluation first_upvote_inserted.
Proof. unfold first_upvote_inserted. at_most_one_here. Qed.

Lemma first_upvote_inserted_nonnegative :
  nonnegative_reputations first_upvote_inserted.
Proof. repeat constructor; cbn; lra. Qed.

Lemma stake_of_BaseContract :
  forall t ct,
    lookup_type (CONTRIBUTION_TYPE BaseContract) t = Some ct ->
    0 <= stake ct <= 1.
Proof.
  intros t ct. cbn. destruct (String.eqb t "base"); intro H; inversion H.
  cbn. lra.
Qed.

Lemma BETA_of_BaseContract : 0 < BETA BaseContract.
Proof. cbn. lra. Qed.

Lemma evaluation_fee_is_bounded_witness :
  exists r r' engaged total c ct,
    reputation_of first_upvote_inserted 2 = Some r
    /\ reputation_of first_upvote_paid 2 = Some r'
    /\ engaged_reputation 1 first_upvote_inserted
       = (Ok engaged, first_upvote_inserted)
    /\ sql_sum (map User.reputation (users first_upvote_inserted))
       = Some total
    /\ query_Contribution_get 1 first_upvote_inserted = Some c
    /\ lookup_type (CONTRIBUTION_TYPE BaseContract)
         (Contribution.contribution_type c) = Some ct
    /\ (1 - stake ct) * r <= r' <= r
    /\ (engaged = total -> r' = r)
    /\ nonnegative_reputations first_upvote_paid.
Proof.
  exact (evaluation_fee_is_bounded BaseContract (Evaluation.mk 1 2 1 1)
           first_upvote_inserted first_upvote_paid first_upvote_pays_the_fee
           first_upvote_inserted_at_most_one
           first_upvote_inserted_nonnegative
           BETA_of_BaseContract stake_of_BaseContract).
Defined.

(** * The token reward of an evaluator *)

Lemma user_update_inv user f s s1 :
  user_update user f s = (Ok tt, s1) -> s1 = snd (user_update user f s).
Proof. intro H. now rewrite H. Qed.

Lemma contribution_update_inv contribution f s s1 :
  contribution_update contribution f s = (Ok tt, s1) ->
  s1 = snd (contribution_update contribution f s).
Proof. intro H. now rewrite H. Qed.

(** Step 4 on its own: what [reward_evaluator_with_tokens] reads, and the
    two writes it makes. *)
Lemma reward_evaluator_with_tokens_spec self evaluation s s' :
  reward_evaluator_with_tokens self evaluation s = (Ok tt, s') ->
  exists u engaged total c,
    query_User_get (Evaluation.user_id evaluation) s = Some u
    /\ engaged_reputation (Evaluation.contribution_id evaluation) s
       = (Ok engaged, s)
    /\ sql_sum (map User.reputation (users s)) = Some total
    /\ query_Contribution_get (Evaluation.contribution_id evaluation) s
       = Some c
    /\ s' = if Rltb 0 (total - (engaged - User.reputation u))
            then
              snd (contribution_update (Evaluation.contribution_id evaluation)
                     (set_token_fund
                        (Contribution.token_fund c
                         - Contribution.token_fund c
                           * (User.reputation u
                              / (total - (engaged - User.reputation u)))))
                     (snd (user_update (Evaluation.user_id evaluation)
                             (set_tokens
                                (User.tokens u
                                 + Contribution.token_fund c
                                   * (User.reputation u
                                      / (total
                                         - (engaged - User.reputation u)))))
                             s)))
            else s.
Proof.
  unfold reward_evaluator_with_tokens. cbv zeta. intro H.
  apply bind_inv in H. destruct H as [r [s_1 [Hu H]]].
  apply user_attr_inv in Hu. destruct Hu as [-> [u [Hu ->]]].
  apply bind_inv in H. destruct H as [engaged [s_1 [Heng H]]].
  pose proof (read_only_inv _ _ _ _ (read_only_engaged_reputation _) Heng).
  subst s_1.
  apply bind_inv in H. destruct H as [t0 [s_1 [Ht H]]].
  unfold total_reputation, gets in Ht. inversion Ht. subst t0 s_1. clear Ht.
  apply bind_inv in H. destruct H as [total [s_1 [Ht H]]].
  apply lift_inv in Ht. destruct Ht as [-> Ht]. apply not_None_inv in Ht.
  assert (Hc : exists c,
             query_Contribution_get (Evaluation.contribution_id evaluation) s
             = Some c).
  { unfold engaged_reputation in Heng.
    apply bind_inv in Heng. destruct Heng as [es [s_1 [Hes _]]].
    unfold contribution_evaluations in Hes.
    apply bind_inv in Hes. destruct Hes as [i [s_2 [Hi _]]].
    apply contribution_attr_inv in Hi. destruct Hi as [_ [c [Hc _]]].
    now exists c. }
  destruct Hc as [c Hc].
  exists u, engaged, total, c.
  do 4 (split; [assumption |]).
  destruct (Rltb 0 (total - (engaged - User.reputation u))).
  - apply bind_inv in H. destruct H as [fund [s_1 [Hf H]]].
    apply contribution_attr_inv in Hf. destruct Hf as [-> [c0 [Hc0 ->]]].
    rewrite Hc in Hc0. inversion Hc0. subst c0. clear Hc0.
    apply bind_inv in H. destruct H as [share [s_1 [Hs H]]].
    apply lift_inv in Hs. destruct Hs as [-> Hs]. apply truediv_inv in Hs.
    destruct Hs as [_ ->].
    apply bind_inv in H. destruct H as [tokens [s_1 [Htk H]]].
    apply user_attr_inv in Htk. destruct Htk as [-> [u0 [Hu0 ->]]].
    rewrite Hu in Hu0. inversion Hu0. subst u0. clear Hu0.
    apply bind_inv in H. destruct H as [[] [s_1 [Hupd H]]].
    apply user_update_inv in Hupd. subst s_1.
    apply bind_inv in H. destruct H as [fund [s_1 [Hf H]]].
    apply contribution_attr_inv in Hf. destruct Hf as [-> [c0 [Hc0 ->]]].
    change (query_Contribution_get (Evaluation.contribution_id evaluation) s
            = Some c0) in Hc0.
    rewrite Hc in Hc0. inversion Hc0. subst c0. clear Hc0.
    now apply contribution_update_inv in H.
  - unfold ret in H. now inversion H.
Qed.

Lemma query_User_get_contribution_update i contribution f s :
  query_User_get i (snd (contribution_update contribution f s))
  = query_User_get i s.
Proof. reflexivity. Qed.

Lemma query_Contribution_get_user_update i user f s :
  query_Contribution_get i (snd (user_update user f s))
  = query_Contribution_get i s.
Proof. reflexivity. Qed.

Lemma query_Contribution_get_update (s : DBSession) (contribution i : Z)
  (f : Contribution.t -> Contribution.t) :
  (forall w, Contribution.id (f w) = Contribution.id w) ->
  query_Contribution_get i (snd (contribution_update contribution f s))
  = if Z.eqb i contribution then option_map f (query_Contribution_get i s)
    else query_Contribution_get i s.
Proof. intro Hid. apply find_contribution_update. exact Hid. Qed.

Example first_upvote_earns_tokens :
  reward_evaluator_with_tokens BaseContract (Evaluation.mk 1 2 1 1)
    first_upvote_inserted
  = (Ok tt, first_upvote_token_rewarded).
Proof.
  unfold first_upvote_inserted, first_upvote_token_rewarded. py_exec.
Qed.

(** X4. When [reward_evaluator_with_tokens] returns, it has either left the
    store as it was, which it does when the reputation that has not voted
    ([total - (engaged - r)]) is not positive, or moved
    [token_fund * r / unvoted] tokens from the fund of the contribution to
    the evaluator: what the evaluator gains is what the fund loses, nothing
    else changes, and an evaluator who votes when everybody else has voted
    takes the whole fund. *)
Theorem token_reward_is_taken_from_the_fund :
  forall (self : Contract) (evaluation : Evaluation.t) (s s' : DBSession),
    reward_evaluator_with_tokens self evaluation s = (Ok tt, s') ->
    exists u engaged total c,
      query_User_get (Evaluation.user_id evaluation) s = Some u
      /\ engaged_reputation (Evaluation.contribution_id evaluation) s
         = (Ok engaged, s)
      /\ sql_sum (map User.reputation (users s)) = Some total
      /\ query_Contribution_get (Evaluation.contribution_id evaluation) s
         = Some c
      /\ let unvoted := total - (engaged - User.reputation u) in
         (unvoted <= 0 -> s' = s)
         /\ (0 < unvoted ->
             let reward :=
               Contribution.token_fund c * (User.reputation u / unvoted) in
             tokens_of s' (Evaluation.user_id evaluation)
             = Some (User.tokens u + reward)
             /\ option_map Contribution.token_fund
                  (query_Contribution_get
                     (Evaluation.contribution_id evaluation) s')
                = Some (Contribution.token_fund c - reward)
             /\ (forall w,
                   w <> Evaluation.user_id evaluation ->
                   query_User_get w s' = query_User_get w s)
             /\ (forall w, reputation_of s' w = reputation_of s w)
             /\ (forall i,
                   i <> Evaluation.contribution_id evaluation ->
                   query_Contribution_get i s' = query_Contribution_get i s)
             /\ evaluations s' = evaluations s
             /\ (engaged = total -> reward = Contribution.token_fund c)).
Proof.
  intros self evaluation s s' H.
  apply reward_evaluator_with_tokens_spec in H.
  destruct H as [u [engaged [total [c [Hu [Heng [Htot [Hc Hs']]]]]]]].
  exists u, engaged, total, c.
  do 4 (split; [assumption |]).
  cbv zeta. split.
  - intro Hle. rewrite Rltb_false in Hs' by exact Hle. exact Hs'.
  - intro Hlt. rewrite Rltb_true in Hs' by exact Hlt. subst s'.
    split; [| split; [| split; [| split; [| split; [| split]]]]].
    + unfold tokens_of. rewrite query_User_get_contribution_update.
      rewrite query_User_get_update by reflexivity.
      rewrite Z.eqb_refl, Hu. reflexivity.
    + rewrite query_Contribution_get_update by reflexivity.
      rewrite Z.eqb_refl, query_Contribution_get_user_update, Hc.
      reflexivity.
    + intros w Hw. rewrite query_User_get_contribution_update.
      now apply user_update_other.
    + intro w. unfold reputation_of.
      rewrite query_User_get_contribution_update.
      now apply user_update_keeps.
    + intros i Hi. rewrite query_Contribution_get_update by reflexivity.
      destruct (Z.eqb_spec i (Evaluation.contribution_id evaluation));
        [contradiction | reflexivity].
    + reflexivity.
    + intros ->. field. lra.
Qed.

Lemma token_reward_is_taken_from_the_fund_witness :
  exists u engaged total c,
    query_User_get 2 first_upvote_inserted = Some u
    /\ engaged_reputation 1 first_upvote_inserted
       = (Ok engaged, first_upvote_inserted)
    /\ sql_sum (map User.reputation (users first_upvote_inserted))
       = Some total
    /\ query_Contribution_get 1 first_upvote_inserted = Some c
    /\ let unvoted := total - (engaged - User.reputation u) in
       (unvoted <= 0 -> first_upvote_token_rewarded = first_upvote_inserted)
       /\ (0 < unvoted ->
           let reward :=
             Contribution.token_fund c * (User.reputation u / unvoted) in
           tokens_of first_upvote_token_rewarded 2
           = Some (User.tokens u + reward)
           /\ option_map Contribution.token_fund
                (query_Contribution_get 1 first_upvote_token_rewarded)
              = Some (Contribution.token_fund c - reward)
           /\ (forall w,
                 w <> 2%Z ->
                 query_User_get w first_upvote_token_rewarded
                 = query_User_get w first_upvote_inserted)
           /\ (forall w,
                 reputation_of first_upvote_token_rewarded w
                 = reputation_of first_upvote_inserted w)
           /\ (forall i,
                 i <> 1%Z ->
                 query_Contribution_get i first_upvote_token_rewarded
                 = query_Contribution_get i first_upvote_inserted)
           /\ evaluations first_upvote_token_rewarded
              = evaluations first_upvote_inserted
           /\ (engaged = total -> reward = Contribution.token_fund c)).
Proof.
  exact (token_reward_is_taken_from_the_fund BaseContract
           (Evaluation.mk 1 2 1 1) first_upvote_inserted
           first_upvote_token_rewarded first_upvote_earns_tokens).
Defined.

(** * The token fund of a contribution *)

Lemma only_max_score_changes_refl s : only_max_score_changes s s.
Proof. intros i c H. exists c. now repeat split. Qed.

Lemma only_max_score_changes_trans s1 s2 s3 :
  only_max_score_changes s1 s2 -> only_max_score_changes s2 s3 ->
  only_max_score_changes s1 s3.
Proof.
  intros H12 H23 i c H.
  destruct (H12 i c H) as [c2 [H2 [Hf [Hu [Ht Hd]]]]].
  destruct (H23 i c2 H2) as [c3 [H3 [Hf' [Hu' [Ht' Hd']]]]].
  exists c3. repeat split; congruence.
Qed.

Lemma same_contributions_only_max_score s s' :
  same_contributions s s' -> only_max_score_changes s s'.
Proof.
  unfold same_contributions. intros Heq i c H. exists c.
  unfold query_Contribution_get in *. rewrite Heq. now repeat split.
Qed.

Lemma only_max_score_changes_user_update user f :
  maintains only_max_score_changes (user_update user f).
Proof. intro s. apply same_contributions_only_max_score. reflexivity. Qed.

Lemma only_max_score_changes_new_User r t f :
  maintains only_max_score_changes (new_User r t f).
Proof. intro s. apply same_contributions_only_max_score. reflexivity. Qed.

Lemma only_max_score_changes_new_Evaluation u c v :
  maintains only_max_score_changes (new_Evaluation u c v).
Proof. intro s. apply same_contributions_only_max_score. reflexivity. Qed.

Lemma only_max_score_changes_delete e :
  maintains only_max_score_changes (DBSession_delete e).
Proof. intro s. apply same_contributions_only_max_score. reflexivity. Qed.

Lemma only_max_score_changes_new_Contribution u t f :
  maintains only_max_score_changes (new_Contribution u t f).
Proof.
  intros s i c H. exists c. split; [| now repeat split].
  unfold query_Contribution_get in *. cbn. now apply find_app_Some.
Qed.

Lemma only_max_score_changes_set_max_score contribution x :
  maintains only_max_score_changes
    (contribution_update contribution (set_max_score x)).
Proof.
  intros s i c H. rewrite query_Contribution_get_update by reflexivity.
  rewrite H. destruct (Z.eqb i contribution); cbn; eexists;
    (split; [reflexivity | now repeat split]).
Qed.

#[local] Hint Resolve only_max_score_changes_user_update
  only_max_score_changes_new_User only_max_score_changes_new_Evaluation
  only_max_score_changes_delete only_max_score_changes_new_Contribution
  only_max_score_changes_set_max_score : session.

Ltac only_max_score_split :=
  pose proof only_max_score_changes_refl;
  pose proof only_max_score_changes_trans;
  maintains_split.

Lemma only_max_score_changes_pay_evaluation_fee self evaluation :
  maintains only_max_score_changes (pay_evaluation_fee self evaluation).
Proof. unfold pay_evaluation_fee. only_max_score_split. Qed.

Lemma only_max_score_changes_reward_previous_evaluators self evaluation :
  maintains only_max_score_changes (reward_previous_evaluators self evaluation).
Proof.
  unfold reward_previous_evaluators, reward_previous_evaluator.
  only_max_score_split.
Qed.

Lemma only_max_score_changes_reward_contributor self evaluation :
  maintains only_max_score_changes (reward_contributor self evaluation).
Proof. unfold reward_contributor. only_max_score_split. Qed.

Lemma only_max_score_changes_create_user self t r f i :
  maintains only_max_score_changes (create_user self t r f i).
Proof. unfold create_user, get_user. destruct f, i; only_max_score_split. Qed.

Lemma only_max_score_changes_create_contribution self u t :
  maintains only_max_score_changes (create_contribution self u t).
Proof.
  unfold create_contribution.
  only_max_score_split;
    repeat match goal with
           | |- maintains _ (match ?x with _ => _ end) => destruct x
           end; only_max_score_split.
Qed.

(** The steps after the insertion, when step 4 is not run. *)
Lemma only_max_score_changes_after_insertion self previously_voted evaluation :
  REWARD_TOKENS_TO_EVALUATORS self = false \/ previously_voted = true ->
  maintains only_max_score_changes
    (after_insertion self previously_voted evaluation).
Proof.
  intro Hoff.
  pose proof only_max_score_changes_pay_evaluation_fee.
  pose proof only_max_score_changes_reward_previous_evaluators.
  pose proof only_max_score_changes_reward_contributor.
  unfold after_insertion.
  destruct Hoff as [-> | ->]; cbn [negb];
    [| destruct (REWARD_TOKENS_TO_EVALUATORS self)]; only_max_score_split.
Qed.

Lemma only_max_score_changes_create_evaluation self user contribution value s :
  REWARD_TOKENS_TO_EVALUATORS self = false
  \/ previous_evaluations user contribution s <> [] ->
  only_max_score_changes s
    (snd (create_evaluation self user contribution value s)).
Proof.
  intro Hoff.
  destruct (create_evaluation_cases self user contribution value s)
    as [-> | [e ->]]; [| apply only_max_score_changes_refl].
  rewrite after_validation_eq.
  eapply only_max_score_changes_trans;
    [| apply only_max_score_changes_after_insertion].
  - apply same_contributions_only_max_score. reflexivity.
  - destruct Hoff as [Hoff | Hoff]; [now left | right].
    destruct (previous_evaluations user contribution s);
      [contradiction | reflexivity].
Qed.

(** X5. With REWARD_TOKENS_TO_EVALUATORS off, as in the base contract, the
    token fund of a contribution is never spent: along any history of calls
    every stored contribution stays stored with the [token_fund], the
    [user], the [contribution_type] and the [time] it had. *)
Theorem token_fund_is_never_spent :
  forall (self : Contract) (history : list call) (s : DBSession),
    REWARD_TOKENS_TO_EVALUATORS self = false ->
    only_max_score_changes s (run_calls self history s).
Proof.
  intros self history s Hoff. revert s.
  induction history as [| c history IH]; intro s; cbn.
  - apply only_max_score_changes_refl.
  - eapply only_max_score_changes_trans; [| apply IH].
    destruct c; cbn.
    + apply only_max_score_changes_create_user.
    + apply only_max_score_changes_create_contribution.
    + apply only_max_score_changes_create_evaluation. now left.
Qed.

Lemma token_fund_is_never_spent_witness :
  only_max_score_changes four_users
    (run_calls BaseContract [Create_evaluation 2 1 1; Create_evaluation 3 1 0]
       four_users).
Proof.
  exact (token_fund_is_never_spent BaseContract
           [Create_evaluation 2 1 1; Create_evaluation 3 1 0] four_users
           eq_refl).
Defined.

(** X6. Whatever REWARD_TOKENS_TO_EVALUATORS is, a user who already has an
    evaluation of the contribution stored earns no token reward by
    evaluating again: [create_evaluation] then leaves the [token_fund] of
    every contribution as it was, whether it returns or raises. *)
Theorem revote_earns_no_tokens :
  forall (self : Contract) (user contribution value : Z) (s : DBSession)
         (e : Evaluation.t),
    In e (evaluations s) ->
    Evaluation.user_id e = user ->
    Evaluation.contribution_id e = contribution ->
    only_max_score_changes s
      (snd (create_evaluation self user contribution value s)).
Proof.
  intros self user contribution value s e Hin Hu Hc.
  apply only_max_score_changes_create_evaluation. right.
  pose proof (get_evaluations_of_pair user contribution s e Hin Hu Hc) as H.
  unfold previous_evaluations. intro Hnil. rewrite Hnil in H. exact H.
Qed.

Lemma revote_earns_no_tokens_witness :
  only_max_score_changes four_users_one_upvote
    (snd (create_evaluation BaseContract 2 1 0 four_users_one_upvote)).
Proof.
  exact (revote_earns_no_tokens BaseContract 2 1 0 four_users_one_upvote
           (Evaluation.mk 1 2 1 1) (or_introl eq_refl) eq_refl eq_refl).
Defined.

(** * The reward of the contributor *)

Lemma user_referrer_inv user s r s1 :
  user_referrer user s = (Ok r, s1) -> s1 = s /\ r = referrer_in s user.
Proof.
  unfold user_referrer, referrer_in. intro H.
  apply bind_inv in H. destruct H as [f [s_1 [Hf H]]].
  apply user_attr_inv in Hf. destruct Hf as [-> [row [Hrow ->]]].
  rewrite Hrow. destruct (User.referrer row) as [f |].
  - unfold gets in H. inversion H. now split.
  - unfold ret in H. inversion H. now split.
Qed.

Lemma pay_contributor_inv self contribution contributor rewardBase s s' :
  pay_contributor self contribution contributor rewardBase s = (Ok tt, s') ->
  (rewardBase <= 0 -> s' = s)
  /\ (0 < rewardBase ->
      exists c ct u,
        query_Contribution_get contribution s = Some c
        /\ lookup_type (CONTRIBUTION_TYPE self)
             (Contribution.contribution_type c) = Some ct
        /\ query_User_get contributor s = Some u
        /\ let token_reward := token_reward_factor ct * rewardBase in
           let reputationReward := reputation_reward_factor ct * rewardBase in
           let s2 :=
             snd (user_update contributor
                    (set_reputation (User.reputation u + reputationReward))
                    (snd (user_update contributor
                            (set_tokens (User.tokens u + token_reward)) s))) in
           match referrer_in s contributor with
           | None => s' = s2
           | Some f =>
               exists fr,
                 query_User_get f s2 = Some fr
                 /\ s' = snd (user_update f
                                (set_reputation
                                   (User.reputation fr
                                    + reputationReward
                                      * REFERRAL_REWARD_FRACTION self))
                                (snd (user_update f
                                        (set_tokens
                                           (User.tokens fr
                                            + token_reward
                                              * REFERRAL_REWARD_FRACTION self))
                                        s2)))
           end).
Proof.
  unfold pay_contributor. intro H. split.
  - intro Hle. rewrite Rltb_false in H by exact Hle.
    unfold ret in H. now inversion H.
  - intro Hlt. rewrite Rltb_true in H by exact Hlt.
    apply bind_inv in H. destruct H as [t [s_1 [Hc H]]].
    apply contribution_attr_inv in Hc. destruct Hc as [-> [c [Hc ->]]].
    apply bind_inv in H. destruct H as [ct [s_1 [Hct H]]].
    apply lift_inv in Hct. destruct Hct as [-> Hct].
    apply getitem_type_inv in Hct. cbv zeta in H.
    apply bind_inv in H. destruct H as [t [s_1 [Hc0 H]]].
    apply contribution_attr_inv in Hc0. destruct Hc0 as [-> [c0 [Hc0 ->]]].
    rewrite Hc in Hc0. inversion Hc0. subst c0. clear Hc0.
    apply bind_inv in H. destruct H as [ct0 [s_1 [Hct0 H]]].
    apply lift_inv in Hct0. destruct Hct0 as [-> Hct0].
    apply getitem_type_inv in Hct0. rewrite Hct in Hct0.
    inversion Hct0. subst ct0. clear Hct0.
    apply bind_inv in H. destruct H as [tokens [s_1 [Hu H]]].
    apply user_attr_inv in Hu. destruct Hu as [-> [u [Hu ->]]].
    apply bind_inv in H. destruct H as [[] [s_1 [Hupd H]]].
    apply user_update_inv in Hupd. subst s_1.
    apply bind_inv in H. destruct H as [reputation [s_1 [Hu1 H]]].
    apply user_attr_inv in Hu1. destruct Hu1 as [-> [u1 [Hu1 ->]]].
    rewrite query_User_get_update in Hu1 by reflexivity.
    rewrite Z.eqb_refl, Hu in Hu1. inversion Hu1. subst u1. clear Hu1.
    cbn [User.reputation set_tokens] in H.
    apply bind_inv in H. destruct H as [[] [s_1 [Hupd H]]].
    apply user_update_inv in Hupd. subst s_1.
    apply bind_inv in H. destruct H as [referrer [s_1 [Hr H]]].
    apply user_referrer_inv in Hr. destruct Hr as [-> ->].
    exists c, ct, u. do 3 (split; [assumption |]). cbv zeta.
    match type of H with
    | context [referrer_in ?x contributor] =>
        rewrite (referrer_in_same s x contributor) in H
          by (eapply same_referrers_trans;
              [apply same_referrers_set_tokens
              | apply same_referrers_set_reputation])
    end.
    destruct (referrer_in s contributor) as [f |].
    + apply bind_inv in H. destruct H as [ftokens [s_1 [Hf H]]].
      apply user_attr_inv in Hf. destruct Hf as [-> [fr [Hf ->]]].
      apply bind_inv in H. destruct H as [[] [s_1 [Hupd H]]].
      apply user_update_inv in Hupd. subst s_1.
      apply bind_inv in H. destruct H as [frep [s_1 [Hf1 H]]].
      apply user_attr_inv in Hf1. destruct Hf1 as [-> [fr1 [Hf1 ->]]].
      rewrite query_User_get_update in Hf1 by reflexivity.
      rewrite Z.eqb_refl, Hf in Hf1. inversion Hf1. subst fr1. clear Hf1.
      cbn [User.reputation set_tokens] in H.
      apply user_update_inv in H.
      exists fr. split; [exact Hf | exact H].
    + unfold ret in H. now inversion H.
Qed.

(** Step 7 for a value other than 0, when it returns: the choice of
    [rewardBase] and the payment. *)
Lemma reward_contributor_inv self evaluation s s' :
  Z.eqb (Evaluation.value evaluation) 0 = false ->
  reward_contributor self evaluation s = (Ok tt, s') ->
  exists score c,
    contribution_upvotes (Evaluation.contribution_id evaluation) s
    = (Ok score, s)
    /\ query_Contribution_get (Evaluation.contribution_id evaluation) s
       = Some c
    /\ if Rltb (Contribution.max_score c) score
       then
         exists ct,
           lookup_type (CONTRIBUTION_TYPE self)
             (Contribution.contribution_type c) = Some ct
           /\ pay_contributor self (Evaluation.contribution_id evaluation)
                (Contribution.user c)
                (if Rleb (reward_threshold ct) (Contribution.max_score c)
                 then score - Contribution.max_score c
                 else if Rltb (reward_threshold ct) score then score else 0)
                (snd (contribution_update
                        (Evaluation.contribution_id evaluation)
                        (set_max_score score) s))
              = (Ok tt, s')
       else s' = s.
Proof.
  intros Hv H. unfold reward_contributor in H. rewrite Hv in H. cbv zeta in H.
  apply bind_inv in H. destruct H as [contributor [s_1 [Hc H]]].
  apply contribution_attr_inv in Hc. destruct Hc as [-> [c [Hc ->]]].
  apply bind_inv in H. destruct H as [score [s_1 [Hscore H]]].
  pose proof (read_only_inv _ _ _ _ (read_only_contribution_upvotes _) Hscore).
  subst s_1.
  apply bind_inv in H. destruct H as [ms [s_1 [Hms H]]].
  apply contribution_attr_inv in Hms. destruct Hms as [-> [c0 [Hc0 ->]]].
  rewrite Hc in Hc0. inversion Hc0. subst c0. clear Hc0.
  apply bind_inv in H. destruct H as [rb [s_a [HRB HK]]].
  change (pay_contributor self (Evaluation.contribution_id evaluation)
            (Contribution.user c) rb s_a = (Ok tt, s')) in HK.
  exists score, c. split; [exact Hscore |]. split; [exact Hc |].
  destruct (Rltb (Contribution.max_score c) score).
  - apply bind_inv in HRB. destruct HRB as [t [s_1 [Ht HRB]]].
    apply contribution_attr_inv in Ht. destruct Ht as [-> [c0 [Hc0 ->]]].
    rewrite Hc in Hc0. inversion Hc0. subst c0. clear Hc0.
    apply bind_inv in HRB. destruct HRB as [ct [s_1 [Hct HRB]]].
    apply lift_inv in Hct. destruct Hct as [-> Hct].
    apply getitem_type_inv in Hct.
    apply bind_inv in HRB. destruct HRB as [rb' [s_1 [Hrb HRB]]].
    apply bind_inv in HRB. destruct HRB as [[] [s_2 [Hupd HRB]]].
    unfold ret in HRB. inversion HRB. subst s_2 rb'. clear HRB.
    exists ct. split; [exact Hct |].
    destruct (Rleb (reward_threshold ct) (Contribution.max_score c)).
    + unfold ret in Hrb. inversion Hrb. subst s_1 rb. clear Hrb.
      apply contribution_update_inv in Hupd. subst s_a. exact HK.
    + apply bind_inv in Hrb. destruct Hrb as [t [s_3 [Ht Hrb]]].
      apply contribution_attr_inv in Ht. destruct Ht as [-> [c0 [Hc0 ->]]].
      rewrite Hc in Hc0. inversion Hc0. subst c0. clear Hc0.
      apply bind_inv in Hrb. destruct Hrb as [ct0 [s_3 [Hct0 Hrb]]].
      apply lift_inv in Hct0. destruct Hct0 as [-> Hct0].
      apply getitem_type_inv in Hct0. rewrite Hct in Hct0.
      inversion Hct0. subst ct0. clear Hct0.
      destruct (Rltb (reward_threshold ct) score);
        unfold ret in Hrb; inversion Hrb; subst s_1 rb; clear Hrb;
        apply contribution_update_inv in Hupd; subst s_a; exact HK.
  - unfold ret in HRB. inversion HRB. subst s_a rb. clear HRB.
    apply pay_contributor_inv in HK. destruct HK as [HK _].
    apply HK. lra.
Qed.

Ltac user_rows :=
  repeat rewrite query_User_get_update by reflexivity;
  repeat rewrite query_User_get_contribution_update;
  rewrite ?Z.eqb_refl;
  repeat match goal with
         | Hne : ?a <> ?b |- context [Z.eqb ?a ?b] =>
             rewrite (proj2 (Z.eqb_neq a b) Hne)
         | Hne : ?b <> ?a |- context [Z.eqb ?a ?b] =>
             rewrite (proj2 (Z.eqb_neq a b) (not_eq_sym Hne))
         end.

(** X7. When [reward_contributor] returns for a value other than 0, with
    [score] the upvote ratio of the contribution: if [score] is not above the
    stored [max_score], nothing changes.  Otherwise the reward base is the
    increase [score - max_score] when [max_score] has reached the
    [reward_threshold], the whole [score] the first time the score passes
    the threshold, and 0 below it.  For a positive base the contributor
    gains [token_reward_factor * base] tokens and
    [reputation_reward_factor * base] reputation, a referrer of the
    contributor gains REFERRAL_REWARD_FRACTION of each, and no other user
    changes; for a base of 0 no user changes. *)
Theorem contributor_is_rewarded_above_the_threshold :
  forall (self : Contract) (evaluation : Evaluation.t) (s s' : DBSession),
    Evaluation.value evaluation <> 0%Z ->
    reward_contributor self evaluation s = (Ok tt, s') ->
    exists score c,
      contribution_upvotes (Evaluation.contribution_id evaluation) s
      = (Ok score, s)
      /\ query_Contribution_get (Evaluation.contribution_id evaluation) s
         = Some c
      /\ (score <= Contribution.max_score c -> s' = s)
      /\ (Contribution.max_score c < score ->
          exists ct base,
            lookup_type (CONTRIBUTION_TYPE self)
              (Contribution.contribution_type c) = Some ct
            /\ (reward_threshold ct <= Contribution.max_score c ->
                base = score - Contribution.max_score c)
            /\ (Contribution.max_score c < reward_threshold ct ->
                reward_threshold ct < score -> base = score)
            /\ (Contribution.max_score c < reward_threshold ct ->
                score <= reward_threshold ct -> base = 0)
            /\ (base <= 0 -> users s' = users s)
            /\ (0 < base ->
                exists u,
                  query_User_get (Contribution.user c) s = Some u
                  /\ match referrer_in s (Contribution.user c) with
                     | None =>
                         tokens_of s' (Contribution.user c)
                         = Some (User.tokens u + token_reward_factor ct * base)
                         /\ reputation_of s' (Contribution.user c)
                            = Some (User.reputation u
                                    + reputation_reward_factor ct * base)
                         /\ (forall w,
                               w <> Contribution.user c ->
                               query_User_get w s' = query_User_get w s)
                     | Some f =>
                         f <> Contribution.user c ->
                         exists fr,
                           query_User_get f s = Some fr
                           /\ tokens_of s' (Contribution.user c)
                              = Some (User.tokens u
                                      + token_reward_factor ct * base)
                           /\ reputation_of s' (Contribution.user c)
                              = Some (User.reputation u
                                      + reputation_reward_factor ct * base)
                           /\ tokens_of s' f
                              = Some (User.tokens fr
                                      + token_reward_factor ct * base
                                        * REFERRAL_REWARD_FRACTION self)
                           /\ reputation_of s' f
                              = Some (User.reputation fr
                                      + reputation_reward_factor ct * base
                                        * REFERRAL_REWARD_FRACTION self)
                           /\ (forall w,
                                 w <> Contribution.user c -> w <> f ->
                                 query_User_get w s' = query_User_get w s)
                     end)).
Proof.
  intros self evaluation s s' Hv H.
  apply Z.eqb_neq in Hv.
  apply (reward_contributor_inv self evaluation s s' Hv) in H.
  destruct H as [score [c [Hscore [Hc H]]]].
  exists score, c. split; [exact Hscore |]. split; [exact Hc |]. split.
  - intro Hle. rewrite Rltb_false in H by exact Hle. exact H.
  - intro Hlt. rewrite Rltb_true in H by exact Hlt.
    destruct H as [ct [Hct Hpay]].
    set (base := if Rleb (reward_threshold ct) (Contribution.max_score c)
                 then score - Contribution.max_score c
                 else if Rltb (reward_threshold ct) score then score else 0)
      in *.
    exists ct, base. split; [exact Hct |].
    split; [intro Hthr; unfold base; now rewrite Rleb_true by exact Hthr |].
    split.
    { intros Hthr Hs. unfold base. rewrite Rleb_false by exact Hthr.
      now rewrite Rltb_true by exact Hs. }
    split.
    { intros Hthr Hs. unfold base. rewrite Rleb_false by exact Hthr.
      now rewrite Rltb_false by exact Hs. }
    apply pay_contributor_inv in Hpay. destruct Hpay as [Hnone Hsome].
    split; [intro Hle; now rewrite (Hnone Hle) |].
    intro Hpos. destruct (Hsome Hpos) as [c' [ct' [u [Hc' [Hct' [Hu Hs']]]]]].
    clear Hnone Hsome.
    rewrite query_Contribution_get_update in Hc' by reflexivity.
    rewrite Z.eqb_refl, Hc in Hc'. inversion Hc'. subst c'. clear Hc'.
    cbn [Contribution.contribution_type set_max_score] in Hct'.
    rewrite Hct in Hct'. inversion Hct'. subst ct'. clear Hct'.
    rewrite query_User_get_contribution_update in Hu.
    exists u. split; [exact Hu |]. cbv zeta in Hs'.
    rewrite (referrer_in_same s _ (Contribution.user c)) in Hs'
      by apply same_referrers_contribution_update.
    destruct (referrer_in s (Contribution.user c)) as [f |].
    + intro Hf. destruct Hs' as [fr [Hfr ->]].
      rewrite !query_User_get_update in Hfr by reflexivity.
      rewrite (proj2 (Z.eqb_neq _ _) Hf) in Hfr.
      rewrite query_User_get_contribution_update in Hfr.
      exists fr. split; [exact Hfr |].
      assert (Hf' : Contribution.user c <> f) by congruence.
      unfold tokens_of, reputation_of.
      repeat split; try (intros w Hw Hwf); user_rows;
        rewrite ?Hu, ?Hfr; reflexivity.
    + subst s'. unfold tokens_of, reputation_of.
      repeat split; try (intros w Hw); user_rows; rewrite ?Hu; reflexivity.
Qed.

Example upvote_rewards_the_contributor :
  reward_contributor BaseContract (Evaluation.mk 1 2 1 1) referred_upvote_paid
  = (Ok tt, contributor_rewarded).
Proof. unfold referred_upvote_paid, contributor_rewarded. py_exec. Qed.

Lemma contributor_is_rewarded_above_the_threshold_witness :
  exists score c,
    contribution_upvotes 1 referred_upvote_paid
    = (Ok score, referred_upvote_paid)
    /\ query_Contribution_get 1 referred_upvote_paid = Some c
    /\ (score <= Contribution.max_score c ->
        contributor_rewarded = referred_upvote_paid)
    /\ (Contribution.max_score c < score ->
        exists ct base,
          lookup_type (CONTRIBUTION_TYPE BaseContract)
            (Contribution.contribution_type c) = Some ct
          /\ (reward_threshold ct <= Contribution.max_score c ->
              base = score - Contribution.max_score c)
          /\ (Contribution.max_score c < reward_threshold ct ->
              reward_threshold ct < score -> base = score)
          /\ (Contribution.max_score c < reward_threshold ct ->
              score <= reward_threshold ct -> base = 0)
          /\ (base <= 0 ->
              users contributor_rewarded = users referred_upvote_paid)
          /\ (0 < base ->
              exists u,
                query_User_get (Contribution.user c) referred_upvote_paid
                = Some u
                /\ match referrer_in referred_upvote_paid
                           (Contribution.user c) with
                   | None =>
                       tokens_of contributor_rewarded (Contribution.user c)
                       = Some (User.tokens u + token_reward_factor ct * base)
                       /\ reputation_of contributor_rewarded
                            (Contribution.user c)
                          = Some (User.reputation u
                                  + reputation_reward_factor ct * base)
                       /\ (forall w,
                             w <> Contribution.user c ->
                             query_User_get w contributor_rewarded
                             = query_User_get w referred_upvote_paid)
                   | Some f =>
                       f <> Contribution.user c ->
                       exists fr,
                         query_User_get f referred_upvote_paid = Some fr
                         /\ tokens_of contributor_rewarded
                              (Contribution.user c)
                            = Some (User.tokens u
                                    + token_reward_factor ct * base)
                         /\ reputation_of contributor_rewarded
                              (Contribution.user c)
                            = Some (User.reputation u
                                    + reputation_reward_factor ct * base)
                         /\ tokens_of contributor_rewarded f
                            = Some (User.tokens fr
                                    + token_reward_factor ct * base
                                      * REFERRAL_REWARD_FRACTION BaseContract)
                         /\ reputation_of contributor_rewarded f
                            = Some (User.reputation fr
                                    + reputation_reward_factor ct * base
                                      * REFERRAL_REWARD_FRACTION BaseContract)
                         /\ (forall w,
                               w <> Contribution.user c -> w <> f ->
                               query_User_get w contributor_rewarded
                               = query_User_get w referred_upvote_paid)
                   end)).
Proof.
  apply (contributor_is_rewarded_above_the_threshold BaseContract
           (Evaluation.mk 1 2 1 1) referred_upvote_paid contributor_rewarded).
  - cbn. lia.
  - exact upvote_rewards_the_contributor.
Defined.

(** * Creating users and contributions *)

Lemma create_contribution_with_type self user (k : string) s :
  (create_contribution_type <- ret k ;;
   match lookup_type (CONTRIBUTION_TYPE self) create_contribution_type with
   | None =>
       raise (KeyError (msg_contribution_type_not_valid
                          create_contribution_type))
   | Some _ =>
       tokens <- user_attr user User.tokens ;;
       ct <- lift (getitem_type self create_contribution_type) ;;
       if Rltb tokens (fee ct) then raise (Exception_ msg_not_enough_tokens)
       else
         tokens <- user_attr user User.tokens ;;
         ct <- lift (getitem_type self create_contribution_type) ;;
         user_update user (set_tokens (tokens - fee ct)) ;;
         ct <- lift (getitem_type self create_contribution_type) ;;
         new_Contribution user create_contribution_type (fee ct)
   end) s
  = match lookup_type (CONTRIBUTION_TYPE self) k with
    | None => (Raise (KeyError (msg_contribution_type_not_valid k)), s)
    | Some ct =>
        match query_User_get user s with
        | None => (Raise AttributeError, s)
        | Some u =>
            if Rltb (User.tokens u) (fee ct)
            then (Raise (Exception_ msg_not_enough_tokens), s)
            else new_Contribution user k (fee ct)
                   (snd (user_update user
                           (set_tokens (User.tokens u - fee ct)) s))
        end
    end.
Proof.
  rewrite bind_ret. unfold getitem_type.
  destruct (lookup_type (CONTRIBUTION_TYPE self) k) as [ct |]; [| reflexivity].
  unfold bind, user_attr, lift.
  destruct (query_User_get user s) as [u |] eqn:Hu; [| reflexivity].
  destruct (Rltb (User.tokens u) (fee ct)); [reflexivity |].
  rewrite Hu. reflexivity.
Qed.

Ltac create_contribution_cases self user t s :=
  unfold create_contribution;
  destruct t as [k |];
  [destruct (String.eqb k "") |];
  try destruct (sort_strings (map fst (CONTRIBUTION_TYPE self))) as [| k0 ?];
  try rewrite create_contribution_with_type;
  repeat match goal with
         | |- context [lookup_type ?a ?b] => destruct (lookup_type a b)
         | |- context [query_User_get ?a ?b] => destruct (query_User_get a b)
         | |- context [Rltb ?a ?b] => destruct (Rltb a b)
         end.

(** X8. [create_contribution] writes nothing unless it returns: whichever
    exception it raises (no configured type, an unknown type, a user that is
    not stored, too few tokens), the store is left as it was.  When it
    returns, exactly one contribution has been appended, of a configured
    type, funded with the fee of the type, with a [max_score] of 0 and dated
    now, and [contributions_count] has grown by one.  An empty
    [contribution_type] is handled as None, and an unknown one raises the
    KeyError whoever the user is, before the user is looked at. *)
Theorem create_contribution_is_all_or_nothing :
  forall (self : Contract) (user : Z) (t : option string) (s : DBSession),
    create_contribution self user (Some ""%string) s
    = create_contribution self user None s
    /\ (forall e,
          fst (create_contribution self user t s) = Raise e ->
          snd (create_contribution self user t s) = s)
    /\ (forall c s',
          create_contribution self user t s = (Ok c, s') ->
          contributions s' = contributions s ++ [c]
          /\ evaluations s' = evaluations s
          /\ Contribution.user c = user
          /\ Contribution.max_score c = 0
          /\ Contribution.time c = now s
          /\ (exists ct,
                lookup_type (CONTRIBUTION_TYPE self)
                  (Contribution.contribution_type c) = Some ct
                /\ Contribution.token_fund c = fee ct)
          /\ contributions_count s'
             = (Ok (S (List.length (contributions s))), s'))
    /\ (forall k,
          k <> ""%string ->
          lookup_type (CONTRIBUTION_TYPE self) k = None ->
          create_contribution self user (Some k) s
          = (Raise (KeyError (msg_contribution_type_not_valid k)), s)).
Proof.
  intros self user t s. split; [reflexivity |]. split; [| split].
  - intro e. create_contribution_cases self user t s;
      cbn; try reflexivity; intro H; discriminate H.
  - intros c s'.
    assert (Hnew : forall k ct u,
              lookup_type (CONTRIBUTION_TYPE self) k = Some ct ->
              new_Contribution user k (fee ct)
                (snd (user_update user
                        (set_tokens (User.tokens u - fee ct)) s))
              = (Ok c, s') ->
              contributions s' = contributions s ++ [c]
              /\ evaluations s' = evaluations s
              /\ Contribution.user c = user
              /\ Contribution.max_score c = 0
              /\ Contribution.time c = now s
              /\ (exists ct0,
                    lookup_type (CONTRIBUTION_TYPE self)
                      (Contribution.contribution_type c) = Some ct0
                    /\ Contribution.token_fund c = fee ct0)
              /\ contributions_count s'
                 = (Ok (S (List.length (contributions s))), s')).
    { intros k ct u Hct H. unfold new_Contribution in H.
      injection H as Hc Hs. subst c s'. cbn.
      repeat split. exists ct. split; [exact Hct | reflexivity].
      unfold contributions_count, gets. cbn.
      rewrite length_app. cbn. do 2 f_equal. lia. }
    unfold create_contribution.
    destruct t as [k |];
      [destruct (String.eqb k "") |];
      try destruct (sort_strings (map fst (CONTRIBUTION_TYPE self)))
        as [| k0 ?];
      try (intro H; discriminate H);
      rewrite create_contribution_with_type;
      match goal with
      | |- context [lookup_type ?a ?b] =>
          destruct (lookup_type a b) as [ct |] eqn:Hct
      end;
      try (intro H; discriminate H);
      destruct (query_User_get user s) as [u |];
      try (intro H; discriminate H);
      destruct (Rltb (User.tokens u) (fee ct));
      try (intro H; discriminate H);
      apply (Hnew _ ct u Hct).
  - intros k Hk Hnone. unfold create_contribution.
    apply String.eqb_neq in Hk. rewrite Hk.
    rewrite create_contribution_with_type, Hnone. reflexivity.
Qed.

(** * Rows are found by the id they were given *)

Lemma next_id_above (ids : list Z) (i : Z) : In i ids -> (i < next_id ids)%Z.
Proof.
  unfold next_id.
  induction ids as [| a ids IH]; cbn [fold_right In]; [contradiction |].
  intros [-> | H]; [lia |]. specialize (IH H). lia.
Qed.

Lemma find_appended {A} (p : A -> bool) (l : list A) (x : A) :
  (forall y, In y l -> p y = false) -> p x = true ->
  find p (l ++ [x]) = Some x.
Proof.
  intros Hl Hx. induction l as [| a l IH]; cbn; [now rewrite Hx |].
  rewrite (Hl a (or_introl eq_refl)). apply IH. intros y Hy. apply Hl.
  now right.
Qed.

Lemma find_kept {A} (p : A -> bool) (l : list A) (x y : A) :
  find p l = Some y -> find p (l ++ [x]) = Some y.
Proof. apply find_app_Some. Qed.

Lemma create_user_appends self tokens reputation referrer referrer_id s u s' :
  create_user self tokens reputation referrer referrer_id s = (Ok u, s') ->
  users s' = users s ++ [u]
  /\ contributions s' = contributions s
  /\ evaluations s' = evaluations s
  /\ User.id u = next_id (map User.id (users s))
  /\ User.tokens u = match tokens with
                     | None => USER_INITIAL_TOKENS self
                     | Some t => t
                     end
  /\ User.reputation u = match reputation with
                         | None => USER_INITIAL_REPUTATION self
                         | Some r => r
                         end.
Proof.
  unfold create_user. cbv zeta. intro H.
  apply bind_inv in H. destruct H as [f [s_1 [Hf H]]].
  assert (Hs : s_1 = s).
  { destruct referrer as [r |]; [| destruct referrer_id as [i |]].
    - destruct referrer_id; unfold ret in Hf; now inversion Hf.
    - destruct (truthy (Some i)); [| unfold ret in Hf; now inversion Hf].
      apply bind_inv in Hf. destruct Hf as [found [s_2 [Hg Hf]]].
      unfold get_user, gets in Hg. injection Hg as Hfound Hs2.
      subst s_2 found.
      destruct (query_User_get i s); unfold ret, raise in Hf; now inversion Hf.
    - unfold ret in Hf. now inversion Hf. }
  subst s_1. unfold new_User in H. injection H as Hu Hs. subst u s'.
  cbn. repeat split.
Qed.

Lemma create_contribution_appends self user t s c s' :
  create_contribution self user t s = (Ok c, s') ->
  contributions s' = contributions s ++ [c]
  /\ Contribution.id c = next_id (map Contribution.id (contributions s)).
Proof.
  unfold create_contribution.
  destruct t as [k |];
    [destruct (String.eqb k "") |];
    try destruct (sort_strings (map fst (CONTRIBUTION_TYPE self)))
      as [| k0 ?];
    try (intro H; discriminate H);
    rewrite create_contribution_with_type;
    match goal with
    | |- context [lookup_type ?a ?b] =>
        destruct (lookup_type a b) as [ct |] eqn:Hct
    end;
    try (intro H; discriminate H);
    destruct (query_User_get user s) as [u |];
    try (intro H; discriminate H);
    destruct (Rltb (User.tokens u) (fee ct));
    try (intro H; discriminate H);
    unfold new_Contribution; intro H; injection H as Hc Hs; subst c s';
    now split.
Qed.

Lemma create_evaluation_appends self user contribution value s e s' :
  create_evaluation self user contribution value s = (Ok e, s') ->
  evaluations s' = kept_evaluations user contribution s ++ [e]
  /\ e = inserted_evaluation user contribution value s.
Proof.
  intro Hrun.
  destruct (create_evaluation_cases self user contribution value s)
    as [Hcase | [x Hcase]]; [| congruence].
  rewrite Hcase in Hrun.
  pose proof (after_validation_evaluations self user contribution value s)
    as Hev.
  rewrite Hrun in Hev. cbn [snd] in Hev.
  assert (Hr : e = inserted_evaluation user contribution value s).
  { rewrite after_validation_eq in Hrun.
    eapply after_insertion_returns. rewrite Hrun. reflexivity. }
  split; [rewrite Hr; exact Hev | exact Hr].
Qed.

Example first_user_is_created :
  create_user BaseContract None (Some 0) None None empty_session
  = (Ok (User.mk 1 50 0 None),
     {| users := [User.mk 1 50 0 None]; contributions := [];
        evaluations := []; now := 0 |}).
Proof. reflexivity. Qed.

(** X9. When [create_user] returns, the new user is stored after the users
    there were, under an id that was not in use: [get_user] finds it by that
    id, finds every earlier user as before, and [get_users] lists it last.
    The defaults apply to None only: tokens or reputation passed as 0 stay
    0.  Contributions and evaluations are untouched. *)
Theorem created_user_is_found_by_id :
  forall (self : Contract) (tokens reputation : option R)
         (referrer referrer_id : option Z) (s s' : DBSession) (u : User.t),
    create_user self tokens reputation referrer referrer_id s = (Ok u, s') ->
    get_user (User.id u) s' = (Ok (Some u), s')
    /\ get_user (User.id u) s = (Ok None, s)
    /\ get_users s' = (Ok (users s ++ [u]), s')
    /\ (forall i x,
          get_user i s = (Ok (Some x), s) -> get_user i s' = (Ok (Some x), s'))
    /\ User.tokens u = match tokens with
                       | None => USER_INITIAL_TOKENS self
                       | Some t => t
                       end
    /\ User.reputation u = match reputation with
                           | None => USER_INITIAL_REPUTATION self
                           | Some r => r
                           end
    /\ contributions s' = contributions s
    /\ evaluations s' = evaluations s.
Proof.
  intros self tokens reputation referrer referrer_id s s' u H.
  apply create_user_appends in H.
  destruct H as [Hus [Hcs [Hes [Hid [Htok Hrep]]]]].
  assert (Hfresh : forall y, In y (users s) ->
                             Z.eqb (User.id y) (User.id u) = false).
  { intros y Hy. apply Z.eqb_neq. rewrite Hid.
    pose proof (next_id_above (map User.id (users s)) (User.id y)
                  (in_map _ _ _ Hy)).
    lia. }
  unfold get_user, get_users, gets, query_User_get. rewrite Hus.
  split; [| split; [| split; [| split]]].
  - f_equal. f_equal. apply find_appended; [exact Hfresh | apply Z.eqb_refl].
  - f_equal. f_equal.
    destruct (find _ (users s)) as [y |] eqn:E; [| reflexivity].
    apply find_some in E. destruct E as [Hy E].
    rewrite (Hfresh y Hy) in E. discriminate E.
  - reflexivity.
  - intros i x Hx. injection Hx as Hx. f_equal. f_equal.
    now apply find_app_Some.
  - now repeat split.
Qed.

Lemma created_user_is_found_by_id_witness :
  get_user 1 {| users := [User.mk 1 50 0 None]; contributions := [];
                evaluations := []; now := 0 |}
  = (Ok (Some (User.mk 1 50 0 None)),
     {| users := [User.mk 1 50 0 None]; contributions := [];
        evaluations := []; now := 0 |})
  /\ User.reputation (User.mk 1 50 0 None) = 0.
Proof.
  destruct (created_user_is_found_by_id BaseContract None (Some 0) None None
              empty_session _ _ first_user_is_created)
    as [Hget [_ [_ [_ [_ [Hrep _]]]]]].
  split; [exact Hget | exact Hrep].
Defined.

(** X10. [get_contribution] and [get_evaluation] raise the ValueError of a
    missing id for None and leave the store alone.  Called with the id of
    what [create_contribution] or [create_evaluation] has just returned,
    they return that very contribution or evaluation; and the id of a new
    contribution was not in use before. *)
Theorem created_rows_are_found_by_id :
  forall (self : Contract) (s : DBSession),
    get_contribution None s = (Raise (ValueError msg_id_is_None), s)
    /\ get_evaluation None s = (Raise (ValueError msg_id_is_None), s)
    /\ (forall user t c s',
          create_contribution self user t s = (Ok c, s') ->
          get_contribution (Some (Contribution.id c)) s' = (Ok (Some c), s')
          /\ get_contribution (Some (Contribution.id c)) s = (Ok None, s))
    /\ (forall user contribution value e s',
          create_evaluation self user contribution value s = (Ok e, s') ->
          get_evaluation (Some (Evaluation.id e)) s' = (Ok (Some e), s')).
Proof.
  intros self s. split; [reflexivity |]. split; [reflexivity |]. split.
  - intros user t c s' H. apply create_contribution_appends in H.
    destruct H as [Hcs Hid].
    assert (Hfresh : forall y, In y (contributions s) ->
                       Z.eqb (Contribution.id y) (Contribution.id c) = false).
    { intros y Hy. apply Z.eqb_neq. rewrite Hid.
      pose proof (next_id_above (map Contribution.id (contributions s))
                    (Contribution.id y) (in_map _ _ _ Hy)).
      lia. }
    unfold get_contribution, gets, query_Contribution_get. rewrite Hcs.
    split; f_equal; f_equal.
    + apply find_appended; [exact Hfresh | apply Z.eqb_refl].
    + destruct (find _ (contributions s)) as [y |] eqn:E; [| reflexivity].
      apply find_some in E. destruct E as [Hy E].
      rewrite (Hfresh y Hy) in E. discriminate E.
  - intros user contribution value e s' H.
    apply create_evaluation_appends in H. destruct H as [Hes He].
    unfold get_evaluation, gets. rewrite Hes. f_equal. f_equal.
    apply find_appended; [| apply Z.eqb_refl].
    intros y Hy. apply Z.eqb_neq. rewrite He at 1.
    cbn [inserted_evaluation Evaluation.id].
    pose proof (next_id_above
                  (map Evaluation.id (kept_evaluations user contribution s))
                  (Evaluation.id y) (in_map _ _ _ Hy)).
    lia.
Qed.

(** * Listing contributions by time *)

Lemma insert_by_time_perm reverse x l :
  Permutation (insert_by_time reverse x l) (x :: l).
Proof.
  induction l as [| y l IH]; cbn; [reflexivity |].
  destruct (if reverse
            then Z.ltb (Contribution.time x) (Contribution.time y)
            else Z.ltb (Contribution.time y) (Contribution.time x)).
  - rewrite IH. apply perm_swap.
  - reflexivity.
Qed.

Lemma order_by_time_perm reverse l : Permutation (order_by_time reverse l) l.
Proof.
  induction l as [| x l IH]; cbn; [reflexivity |].
  fold (order_by_time reverse l).
  rewrite insert_by_time_perm. now apply perm_skip.
Qed.

Lemma insert_by_time_sorted (reverse : bool) x l :
  StronglySorted
    (fun a b =>
       if reverse then (Contribution.time b <= Contribution.time a)%Z
       else (Contribution.time a <= Contribution.time b)%Z) l ->
  StronglySorted
    (fun a b =>
       if reverse then (Contribution.time b <= Contribution.time a)%Z
       else (Contribution.time a <= Contribution.time b)%Z)
    (insert_by_time reverse x l).
Proof.
  induction 1 as [| y l Hl IH Hy]; cbn [insert_by_time].
  - constructor; constructor.
  - destruct reverse.
    + destruct (Z.ltb_spec (Contribution.time x) (Contribution.time y)).
      * constructor; [exact IH |].
        eapply Permutation_Forall;
          [symmetry; apply insert_by_time_perm |].
        constructor; [lia | exact Hy].
      * constructor; [constructor; assumption |].
        constructor; [lia |].
        eapply Forall_impl; [| exact Hy]. cbn. intros a Ha. lia.
    + destruct (Z.ltb_spec (Contribution.time y) (Contribution.time x)).
      * constructor; [exact IH |].
        eapply Permutation_Forall;
          [symmetry; apply insert_by_time_perm |].
        constructor; [lia | exact Hy].
      * constructor; [constructor; assumption |].
        constructor; [lia |].
        eapply Forall_impl; [| exact Hy]. cbn. intros a Ha. lia.
Qed.

Lemma order_by_time_sorted (reverse : bool) l :
  StronglySorted
    (fun a b =>
       if reverse then (Contribution.time b <= Contribution.time a)%Z
       else (Contribution.time a <= Contribution.time b)%Z)
    (order_by_time reverse l).
Proof.
  induction l as [| x l IH]; cbn; [constructor |].
  apply insert_by_time_sorted. exact IH.
Qed.

(** X11. [get_contributions] with [order_by] 'time' or '-time' only reads
    and never raises.  It returns a slice (from [start], of at most [limit]
    if [limit] is non-zero) of all the stored contributions sorted by their
    [time], oldest first for 'time' and newest first for '-time'.  The
    [contributor_id] argument plays no part: the contributions of every
    user are listed, whatever is passed. *)
Theorem get_contributions_orders_by_time :
  forall (start : Z) (limit : option Z) (s : DBSession),
    exists oldest_first newest_first : list Contribution.t,
      Permutation oldest_first (contributions s)
      /\ StronglySorted
           (fun a b => (Contribution.time a <= Contribution.time b)%Z)
           oldest_first
      /\ Permutation newest_first (contributions s)
      /\ StronglySorted
           (fun a b => (Contribution.time b <= Contribution.time a)%Z)
           newest_first
      /\ forall contributor_id : option Z,
           get_contributions start limit contributor_id "time" s
           = (Ok (let results := slice_from start oldest_first in
                  if truthy limit
                  then match limit with
                       | Some n => slice_to n results
                       | None => results
                       end
                  else results), s)
           /\ get_contributions start limit contributor_id "-time" s
              = (Ok (let results := slice_from start newest_first in
                     if truthy limit
                     then match limit with
                          | Some n => slice_to n results
                          | None => results
                          end
                     else results), s).
Proof.
  intros start limit s.
  exists (order_by_time false (contributions s)),
         (order_by_time true (contributions s)).
  split; [apply order_by_time_perm |].
  split; [apply (order_by_time_sorted false) |].
  split; [apply order_by_time_perm |].
  split; [apply (order_by_time_sorted true) |].
  intro contributor_id. split; reflexivity.
Qed.

(** * The first vote of a value *)

Lemma find_of_filter {A} (p : A -> bool) (l : list A) (x : A) :
  filter p l = [x] -> find p l = Some x.
Proof.
  induction l as [| a l IH]; cbn; [discriminate |].
  destruct (p a); [intro H; inversion H; reflexivity | exact IH].
Qed.

Lemma query_Contribution_get_id (s : DBSession) (i : Z) (c : Contribution.t) :
  query_Contribution_get i s = Some c -> Contribution.id c = i.
Proof.
  intro H. apply find_some in H. destruct H as [_ H]. now apply Z.eqb_eq in H.
Qed.

Lemma sum_equally_voted_reputation_eq self evaluation s c u :
  query_Contribution_get (Evaluation.contribution_id evaluation) s = Some c ->
  query_User_get (Evaluation.user_id evaluation) s = Some u ->
  sum_equally_voted_reputation self evaluation s
  = match
      sql_sum
        (flat_map
           (fun e =>
              map User.reputation
                (filter (fun w => Z.eqb (User.id w) (Evaluation.user_id e))
                   (users s)))
           (filter
              (fun e =>
                 Z.eqb (Evaluation.contribution_id e)
                   (Evaluation.contribution_id evaluation)
                 && Z.eqb (Evaluation.value e) (Evaluation.value evaluation))
              (evaluations s)))
    with
    | Some total => (Ok (total - User.reputation u), s)
    | None => (Raise TypeError, s)
    end.
Proof.
  intros Hc Hu. unfold sum_equally_voted_reputation.
  rewrite (bind_Ok _ (contribution_attr_Some Contribution.id Hc)).
  rewrite (query_Contribution_get_id _ _ _ Hc).
  unfold bind at 1, gets at 1.
  rewrite (bind_Ok _ (user_attr_Some User.reputation Hu)).
  unfold bind, lift, ret, not_None.
  destruct (sql_sum _); reflexivity.
Qed.

Example first_upvote_rewards_nobody :
  reward_previous_evaluators BaseContract (Evaluation.mk 1 2 1 1)
    first_upvote_paid
  = (Ok tt, first_upvote_paid).
Proof. unfold first_upvote_paid. py_exec. Qed.

(** X12. [sum_equally_voted_reputation] only reads the store.  When the
    only stored evaluation of the contribution with the value of
    [evaluation] is the evaluator's own, it returns 0 and
    [reward_previous_evaluators] leaves the store as it is: the first vote
    of a value rewards nobody.  When no stored evaluation of the
    contribution has that value, the aggregate is None and the subtraction
    raises TypeError. *)
Theorem first_vote_of_a_value_rewards_nobody :
  forall (self : Contract) (evaluation : Evaluation.t) (s : DBSession)
         (c : Contribution.t) (u : User.t),
    query_Contribution_get (Evaluation.contribution_id evaluation) s = Some c ->
    filter (fun w => Z.eqb (User.id w) (Evaluation.user_id evaluation))
      (users s) = [u] ->
    snd (sum_equally_voted_reputation self evaluation s) = s
    /\ (forall e,
          filter
            (fun e =>
               Z.eqb (Evaluation.contribution_id e)
                 (Evaluation.contribution_id evaluation)
               && Z.eqb (Evaluation.value e) (Evaluation.value evaluation))
            (evaluations s) = [e] ->
          Evaluation.user_id e = Evaluation.user_id evaluation ->
          (exists x,
             sum_equally_voted_reputation self evaluation s = (Ok x, s)
             /\ x = 0)
          /\ reward_previous_evaluators self evaluation s = (Ok tt, s))
    /\ (filter
          (fun e =>
             Z.eqb (Evaluation.contribution_id e)
               (Evaluation.contribution_id evaluation)
             && Z.eqb (Evaluation.value e) (Evaluation.value evaluation))
          (evaluations s) = [] ->
        sum_equally_voted_reputation self evaluation s = (Raise TypeError, s)).
Proof.
  intros self evaluation s c u Hc Hrows.
  pose proof (find_of_filter _ _ _ Hrows) as Hu.
  fold (query_User_get (Evaluation.user_id evaluation) s) in Hu.
  pose proof (sum_equally_voted_reputation_eq self evaluation s c u Hc Hu)
    as Heq.
  split; [| split].
  - rewrite Heq. destruct (sql_sum _); reflexivity.
  - intros e He Hsame. rewrite He in Heq.
    cbn [flat_map] in Heq. rewrite Hsame, Hrows in Heq. cbn in Heq.
    split.
    + eexists. split; [exact Heq | lra].
    + unfold reward_previous_evaluators. cbv zeta.
      rewrite (bind_Ok _ Heq).
      rewrite Reqb_true by lra. reflexivity.
  - intro Hnone. rewrite Hnone in Heq. exact Heq.
Qed.

Lemma first_vote_of_a_value_rewards_nobody_witness :
  (exists x,
     sum_equally_voted_reputation BaseContract (Evaluation.mk 1 2 1 1)
       first_upvote_paid
     = (Ok x, first_upvote_paid)
     /\ x = 0)
  /\ reward_previous_evaluators BaseContract (Evaluation.mk 1 2 1 1)
       first_upvote_paid
     = (Ok tt, first_upvote_paid).
Proof.
  destruct (first_vote_of_a_value_rewards_nobody BaseContract
              (Evaluation.mk 1 2 1 1) first_upvote_paid
              (Contribution.mk 1 1 "base" 1 0 0) (User.mk 2 50 19.8 None)
              eq_refl eq_refl) as [_ [H _]].
  exact (H (Evaluation.mk 1 2 1 1) eq_refl eq_refl).
Defined.

(** * What the fee and the rewards of evaluators leave alone *)

Lemma same_contributions_pay_evaluation_fee self evaluation :
  maintains same_contributions (pay_evaluation_fee self evaluation).
Proof.
  pose proof same_contributions_refl. pose proof same_contributions_trans.
  pose proof same_contributions_user_update.
  unfold pay_evaluation_fee. maintains_split.
Qed.

Lemma same_contributions_reward_previous_evaluators self evaluation :
  maintains same_contributions (reward_previous_evaluators self evaluation).
Proof.
  pose proof same_contributions_refl. pose proof same_contributions_trans.
  pose proof same_contributions_user_update.
  unfold reward_previous_evaluators, reward_previous_evaluator.
  maintains_split.
Qed.

Lemma same_referrers_reward_previous_evaluators self evaluation :
  maintains same_referrers (reward_previous_evaluators self evaluation).
Proof.
  unfold reward_previous_evaluators, reward_previous_evaluator.
  same_referrers_split.
Qed.

(** X13. Steps 5 and 6 of an evaluation write reputations and nothing else.
    Whether they return or raise, [pay_evaluation_fee] and
    [reward_previous_evaluators] leave every contribution, every evaluation,
    every token balance and every referrer as they were.  The fee changes
    no reputation but the evaluator's, and the rewards of step 6 change no
    reputation but those of the other evaluators of the contribution with
    the same value and of their referrers. *)
Theorem fee_and_rewards_write_reputations_only :
  forall (self : Contract) (evaluation : Evaluation.t) (s : DBSession),
    (let s' := snd (pay_evaluation_fee self evaluation s) in
     contributions s' = contributions s
     /\ evaluations s' = evaluations s
     /\ (forall w, tokens_of s' w = tokens_of s w)
     /\ same_referrers s s'
     /\ (forall w,
           w <> Evaluation.user_id evaluation ->
           reputation_of s' w = reputation_of s w))
    /\ (let s' := snd (reward_previous_evaluators self evaluation s) in
        contributions s' = contributions s
        /\ evaluations s' = evaluations s
        /\ (forall w, tokens_of s' w = tokens_of s w)
        /\ same_referrers s s'
        /\ (forall w,
              (forall e,
                 In e (evaluations s) ->
                 Evaluation.contribution_id e
                 = Evaluation.contribution_id evaluation ->
                 Evaluation.value e = Evaluation.value evaluation ->
                 Evaluation.user_id e <> Evaluation.user_id evaluation ->
                 Evaluation.user_id e <> w
                 /\ forall row,
                      query_User_get (Evaluation.user_id e) s = Some row ->
                      User.referrer row <> Some w) ->
              reputation_of s' w = reputation_of s w)).
Proof.
  intros self evaluation s. split; cbv zeta.
  - split; [apply same_contributions_pay_evaluation_fee |].
    split; [apply same_evaluations_pay_evaluation_fee |].
    split; [intro w; apply same_tokens_of_pay_evaluation_fee |].
    split; [apply same_referrers_pay_evaluation_fee |].
    intros w Hw. apply same_reputation_of_pay_evaluation_fee. congruence.
  - split; [apply same_contributions_reward_previous_evaluators |].
    split; [apply same_evaluations_reward_previous_evaluators |].
    split; [intro w; apply same_tokens_of_reward_previous_evaluators |].
    split; [apply same_referrers_reward_previous_evaluators |].
    intros w Hw. apply reward_previous_evaluators_pass_by.
    intros e He Hc Hv Hu. exact (Hw e He Hc Hv Hu).
Qed.

(** * Reputation is never negative *)

Lemma stays_nonnegative_refl s : stays_nonnegative s s.
Proof. intro H. exact H. Qed.

Lemma stays_nonnegative_trans s1 s2 s3 :
  stays_nonnegative s1 s2 -> stays_nonnegative s2 s3 ->
  stays_nonnegative s1 s3.
Proof. unfold stays_nonnegative. auto. Qed.

Lemma same_users_stays_nonnegative s s' :
  users s' = users s -> stays_nonnegative s s'.
Proof. unfold stays_nonnegative, nonnegative_reputations. now intros ->. Qed.

Lemma stays_nonnegative_set_tokens user x :
  maintains stays_nonnegative (user_update user (set_tokens x)).
Proof.
  intros s H. unfold nonnegative_reputations in *. cbn.
  rewrite Forall_map. revert H. apply Forall_impl. intros u Hu.
  destruct (Z.eqb (User.id u) user); exact Hu.
Qed.

Lemma stays_nonnegative_contribution_update c f :
  maintains stays_nonnegative (contribution_update c f).
Proof. intro s. now apply same_users_stays_nonnegative. Qed.

Lemma stays_nonnegative_new_Evaluation u c v :
  maintains stays_nonnegative (new_Evaluation u c v).
Proof. intro s. now apply same_users_stays_nonnegative. Qed.

Lemma stays_nonnegative_delete e :
  maintains stays_nonnegative (DBSession_delete e).
Proof. intro s. now apply same_users_stays_nonnegative. Qed.

Lemma stays_nonnegative_new_Contribution u t f :
  maintains stays_nonnegative (new_Contribution u t f).
Proof. intro s. now apply same_users_stays_nonnegative. Qed.

#[local] Hint Resolve stays_nonnegative_set_tokens
  stays_nonnegative_contribution_update stays_nonnegative_new_Evaluation
  stays_nonnegative_delete stays_nonnegative_new_Contribution : session.

Ltac stays_nonnegative_split :=
  pose proof stays_nonnegative_refl; pose proof stays_nonnegative_trans;
  maintains_split.

Lemma stored_reputation_nonneg s user row :
  nonnegative_reputations s -> query_User_get user s = Some row ->
  0 <= User.reputation row.
Proof.
  intros H Hrow. apply find_some in Hrow. destruct Hrow as [Hin _].
  unfold nonnegative_reputations in H. rewrite Forall_forall in H.
  now apply H.
Qed.

Lemma read_reputation_nonneg s user r :
  nonnegative_reputations s ->
  user_attr user User.reputation s = (Ok r, s) -> 0 <= r.
Proof.
  intros H Hr. apply user_attr_inv in Hr. destruct Hr as [_ [row [Hrow ->]]].
  exact (stored_reputation_nonneg s user row H Hrow).
Qed.

Lemma engaged_reputation_nonneg contribution s engaged :
  nonnegative_reputations s ->
  engaged_reputation contribution s = (Ok engaged, s) -> 0 <= engaged.
Proof.
  unfold engaged_reputation. intros Hpos H.
  apply bind_inv in H. destruct H as [es [s_1 [Hes H]]].
  apply contribution_evaluations_inv in Hes. destruct Hes as [-> ->].
  apply sum_reputation_value in H. destruct H as [_ ->].
  apply Rsum_nonneg. rewrite Forall_map, Forall_forall. intros i _.
  now apply reputation_in_nonneg.
Qed.

Lemma read_total_nonneg s t0 total :
  nonnegative_reputations s ->
  total_reputation s = (Ok t0, s) ->
  lift (not_None t0) s = (Ok total, s) ->
  0 <= total.
Proof.
  intros Hpos Ht0 Ht. unfold total_reputation, gets in Ht0.
  injection Ht0 as Ht0. subst t0.
  apply lift_inv in Ht. destruct Ht as [_ Ht]. apply not_None_inv in Ht.
  apply sql_sum_value in Ht. subst total.
  apply Rsum_nonneg. rewrite Forall_map. exact Hpos.
Qed.

Lemma read_quotient_nonneg s x y q :
  0 <= x -> 0 <= y -> lift (truediv x y) s = (Ok q, s) -> 0 <= q.
Proof.
  intros Hx Hy H. apply lift_inv in H. destruct H as [_ H].
  apply truediv_inv in H. destruct H as [Hnz ->].
  apply Rmult_le_pos; [exact Hx |].
  apply Rlt_le, Rinv_0_lt_compat. lra.
Qed.

Lemma float_pow_nonneg (x b p : R) : 0 <= x -> float_pow x b = Ok p -> 0 <= p.
Proof.
  intro Hx. unfold float_pow.
  destruct (Reqb b 0); [intro H; inversion H; lra |].
  destruct (Rltb 0 x) eqn:E.
  - intro H. inversion H. unfold Rpower. apply Rlt_le, exp_pos.
  - assert (H0 : x = 0).
    { destruct (Rle_lt_or_eq_dec 0 x Hx) as [Hlt | Heq]; [| now symmetry].
      apply Rltb_spec in Hlt. congruence. }
    subst x. rewrite (Reqb_true 0 0) by reflexivity.
    destruct (Rltb 0 b); intro H; inversion H. lra.
Qed.

Lemma read_only_total_reputation : read_only total_reputation.
Proof. intro s. reflexivity. Qed.

Ltac nonneg_read x H :=
  apply (maintains_at_bind_read stays_nonnegative);
  [ exact stays_nonnegative_refl
  | first [ apply read_only_user_attr | apply read_only_contribution_attr
          | apply read_only_lift | apply read_only_engaged_reputation
          | apply read_only_contribution_upvotes
          | apply read_only_total_reputation ]
  | intros x H ].

Lemma stays_nonnegative_pay_evaluation_fee self evaluation :
  nonnegative_parameters self ->
  maintains stays_nonnegative (pay_evaluation_fee self evaluation).
Proof.
  intros [_ [_ Hpar]] s. unfold pay_evaluation_fee. cbv zeta.
  nonneg_read r0 Hr0. nonneg_read e0 He0. nonneg_read engaged He.
  nonneg_read r Hr. nonneg_read t0 Ht0. nonneg_read total Ht.
  nonneg_read ratio Hq. nonneg_read power Hp. nonneg_read t Hc.
  nonneg_read ct Hct. nonneg_read r' Hr'.
  intro Hpos. apply nonnegative_set_reputation; [| exact Hpos].
  pose proof (read_reputation_nonneg _ _ _ Hpos Hr) as Hr_pos.
  pose proof (read_reputation_nonneg _ _ _ Hpos Hr') as Hr'_pos.
  assert (Hsame : r' = r).
  { rewrite Hr in Hr'. now inversion Hr'. }
  subst r'.
  pose proof (engaged_reputation_nonneg _ _ _ Hpos He) as He_pos.
  pose proof (read_total_nonneg _ _ _ Hpos Ht0 Ht) as Ht_pos.
  pose proof (read_quotient_nonneg _ _ _ _ He_pos Ht_pos Hq) as Hq_pos.
  apply lift_inv in Hp. destruct Hp as [_ Hp].
  pose proof (float_pow_nonneg _ _ _ Hq_pos Hp) as Hp_pos.
  apply lift_inv in Hct. destruct Hct as [_ Hct].
  apply getitem_type_inv in Hct.
  destruct (Hpar _ _ Hct) as [Hstake _].
  assert (Hshare : stake ct * (1 - power) <= 1).
  { destruct (Rle_dec power 1); nra. }
  nra.
Qed.

Lemma sum_equally_voted_reputation_nonneg self evaluation s x r :
  nonnegative_reputations s ->
  sum_equally_voted_reputation self evaluation s = (Ok x, s) ->
  user_attr (Evaluation.user_id evaluation) User.reputation s = (Ok r, s) ->
  0 <= x + r.
Proof.
  intros Hpos H Hr.
  apply user_attr_inv in Hr. destruct Hr as [_ [u [Hu ->]]].
  destruct (query_Contribution_get (Evaluation.contribution_id evaluation) s)
    as [c |] eqn:Hc.
  2:{ unfold sum_equally_voted_reputation, bind, contribution_attr in H.
      rewrite Hc in H. discriminate H. }
  rewrite (sum_equally_voted_reputation_eq self evaluation s c u Hc Hu) in H.
  destruct (sql_sum _) as [total |] eqn:Htotal; [| discriminate H].
  injection H as H. subst x.
  apply sql_sum_value in Htotal.
  assert (0 <= total); [| lra].
  subst total. apply Rsum_nonneg. rewrite Forall_forall. intros y Hy.
  apply in_flat_map in Hy. destruct Hy as [e [_ Hy]].
  apply in_map_iff in Hy. destruct Hy as [w [<- Hw]].
  apply filter_In in Hw. destruct Hw as [Hw _].
  unfold nonnegative_reputations in Hpos. rewrite Forall_forall in Hpos.
  now apply Hpos.
Qed.

Lemma stays_nonnegative_reward_previous_evaluator self evaluation sd bf e :
  nonnegative_parameters self -> 0 <= sd -> 0 <= bf ->
  maintains stays_nonnegative
    (reward_previous_evaluator self evaluation sd bf e).
Proof.
  intros [_ [Hfrac Hpar]] Hsd Hbf s Hpos.
  rewrite reward_previous_evaluator_eq.
  unfold reward_previous_evaluator_result.
  destruct (Z.eqb (Evaluation.value e) (Evaluation.value evaluation));
    [| exact Hpos].
  destruct (query_User_get (Evaluation.user_id e) s) as [row |] eqn:Hrow;
    [| exact Hpos].
  destruct (query_User_get (Evaluation.user_id evaluation) s);
    [| exact Hpos].
  destruct (Z.eqb (Evaluation.user_id e) (Evaluation.user_id evaluation));
    [exact Hpos |].
  destruct (query_Contribution_get _ s) as [c |]; [| exact Hpos].
  destruct (lookup_type _ _) as [ct |] eqn:Hct; [| exact Hpos].
  destruct (Hpar _ _ Hct) as [_ [Hds _]].
  pose proof (stored_reputation_nonneg s _ row Hpos Hrow) as Hr.
  assert (Hk : 0 <= distribution_stake ct * sd * bf).
  { apply Rmult_le_pos; [apply Rmult_le_pos |]; assumption. }
  cbv zeta.
  match goal with
  | |- context [user_update (Evaluation.user_id e) (set_reputation ?x) s] =>
      assert (Hs1 : nonnegative_reputations
                      (snd (user_update (Evaluation.user_id e)
                              (set_reputation x) s)))
        by (apply nonnegative_set_reputation; [nra | exact Hpos])
  end.
  destruct (User.referrer row) as [f |]; [| exact Hs1].
  destruct (query_User_get f _) as [frow |] eqn:Hf; [| exact Hs1].
  cbn [snd].
  pose proof (stored_reputation_nonneg _ _ frow Hs1 Hf) as Hfr.
  apply nonnegative_set_reputation; [| exact Hs1].
  assert (0 <= (User.reputation row
                * (1 + distribution_stake ct * sd * bf)
                - User.reputation row) * REFERRAL_REWARD_FRACTION self).
  { apply Rmult_le_pos; [nra | exact Hfrac]. }
  lra.
Qed.

Lemma stays_nonnegative_reward_previous_evaluators self evaluation :
  nonnegative_parameters self ->
  maintains stays_nonnegative (reward_previous_evaluators self evaluation).
Proof.
  intros Hpar s. unfold reward_previous_evaluators. cbv zeta.
  apply (maintains_at_bind_read stays_nonnegative);
    [exact stays_nonnegative_refl
    | apply read_only_maintains, maintains_sum_equally_voted_reputation;
      congruence
    | intros equalRep Heq].
  destruct (negb (Reqb equalRep 0)); [| apply stays_nonnegative_refl].
  nonneg_read r0 Hr0. nonneg_read r Hr. nonneg_read sd Hsd.
  nonneg_read t0 Ht0. nonneg_read total Ht. nonneg_read ratio Hq.
  nonneg_read bf Hbf.
  intro Hpos.
  pose proof (read_reputation_nonneg _ _ _ Hpos Hr) as Hr_pos.
  assert (Hsame : r0 = r).
  { rewrite Hr in Hr0. now inversion Hr0. }
  subst r0.
  pose proof (sum_equally_voted_reputation_nonneg _ _ _ _ _ Hpos Heq Hr)
    as Hsum.
  pose proof (read_quotient_nonneg _ _ _ _ Hr_pos Hsum Hsd) as Hsd_pos.
  pose proof (read_total_nonneg _ _ _ Hpos Ht0 Ht) as Ht_pos.
  pose proof (read_quotient_nonneg _ _ _ _ Hsum Ht_pos Hq) as Hq_pos.
  apply lift_inv in Hbf. destruct Hbf as [_ Hbf].
  pose proof (float_pow_nonneg _ _ _ Hq_pos Hbf) as Hbf_pos.
  revert Hpos.
  change (stays_nonnegative s
            (snd (bind (contribution_evaluations
                          (Evaluation.contribution_id evaluation))
                    (fun es =>
                       for_each es
                         (reward_previous_evaluator self evaluation sd bf))
                    s))).
  pose proof stays_nonnegative_refl. pose proof stays_nonnegative_trans.
  pose proof (stays_nonnegative_reward_previous_evaluator self evaluation
                sd bf) as Hbody.
  apply maintains_bind; auto with session.
  intro es. apply maintains_for_each; auto.
Qed.

Lemma read_only_user_referrer user : read_only (user_referrer user).
Proof. apply read_only_maintains, maintains_user_referrer; congruence. Qed.

Lemma stays_nonnegative_pay_contributor self contribution contributor
  rewardBase :
  nonnegative_parameters self ->
  maintains stays_nonnegative
    (pay_contributor self contribution contributor rewardBase).
Proof.
  intros [_ [Hfrac Hpar]] s. unfold pay_contributor.
  destruct (Rltb 0 rewardBase) eqn:E; [| apply stays_nonnegative_refl].
  apply Rltb_spec in E.
  nonneg_read t0 Ht0. nonneg_read ct0 Hct0. cbv zeta.
  nonneg_read t Ht. nonneg_read ct Hct.
  apply lift_inv in Hct. destruct Hct as [_ Hct].
  apply getitem_type_inv in Hct.
  destruct (Hpar _ _ Hct) as [_ [_ Hrf]].
  assert (Hreward : 0 <= reputation_reward_factor ct * rewardBase).
  { apply Rmult_le_pos; lra. }
  nonneg_read tokens Htokens.
  apply (maintains_at_bind stays_nonnegative);
    [exact stays_nonnegative_trans | apply stays_nonnegative_set_tokens |].
  intros [] s1.
  nonneg_read reputation Hrep.
  apply (maintains_at_bind stays_nonnegative);
    [exact stays_nonnegative_trans | |].
  { intro Hpos. apply nonnegative_set_reputation; [| exact Hpos].
    pose proof (read_reputation_nonneg _ _ _ Hpos Hrep). lra. }
  intros [] s2.
  apply (maintains_at_bind_read stays_nonnegative);
    [exact stays_nonnegative_refl | apply read_only_user_referrer |].
  intros referrer _.
  destruct referrer as [f |]; [| apply stays_nonnegative_refl].
  nonneg_read ftokens Hftokens.
  apply (maintains_at_bind stays_nonnegative);
    [exact stays_nonnegative_trans | apply stays_nonnegative_set_tokens |].
  intros [] s3.
  nonneg_read freputation Hfrep.
  intro Hpos. apply nonnegative_set_reputation; [| exact Hpos].
  pose proof (read_reputation_nonneg _ _ _ Hpos Hfrep).
  assert (0 <= reputation_reward_factor ct * rewardBase
               * REFERRAL_REWARD_FRACTION self).
  { apply Rmult_le_pos; assumption. }
  lra.
Qed.

Lemma stays_nonnegative_reward_contributor self evaluation :
  nonnegative_parameters self ->
  maintains stays_nonnegative (reward_contributor self evaluation).
Proof.
  intros Hpar s. unfold reward_contributor.
  destruct (Z.eqb (Evaluation.value evaluation) 0);
    [apply stays_nonnegative_refl |].
  cbv zeta.
  nonneg_read contributor Hc. nonneg_read score Hscore.
  nonneg_read max_score Hmax.
  apply (maintains_at_bind stays_nonnegative);
    [exact stays_nonnegative_trans | |].
  - match goal with
    | |- stays_nonnegative s (snd (?m s)) =>
        assert (Hm : maintains stays_nonnegative m)
          by stays_nonnegative_split;
        apply Hm
    end.
  - intro rewardBase.
    exact (stays_nonnegative_pay_contributor self
             (Evaluation.contribution_id evaluation) contributor rewardBase
             Hpar).
Qed.

Lemma stays_nonnegative_reward_evaluator_with_tokens self evaluation :
  maintains stays_nonnegative (reward_evaluator_with_tokens self evaluation).
Proof. unfold reward_evaluator_with_tokens. stays_nonnegative_split. Qed.

Lemma stays_nonnegative_create_evaluation self user contribution value :
  nonnegative_parameters self ->
  maintains stays_nonnegative
    (create_evaluation self user contribution value).
Proof.
  intro Hpar.
  pose proof (stays_nonnegative_pay_evaluation_fee self) as H5.
  pose proof (stays_nonnegative_reward_previous_evaluators self) as H6.
  pose proof (stays_nonnegative_reward_contributor self) as H7.
  pose proof stays_nonnegative_reward_evaluator_with_tokens.
  unfold create_evaluation. stays_nonnegative_split; auto.
Qed.

Lemma stays_nonnegative_create_contribution self u t :
  maintains stays_nonnegative (create_contribution self u t).
Proof.
  unfold create_contribution.
  stays_nonnegative_split;
    repeat match goal with
           | |- maintains _ (match ?x with _ => _ end) => destruct x
           end; stays_nonnegative_split.
Qed.

Lemma stays_nonnegative_create_user self tokens reputation referrer
  referrer_id :
  nonnegative_parameters self ->
  nonnegative_call (Create_user tokens reputation referrer referrer_id) ->
  maintains stays_nonnegative
    (create_user self tokens reputation referrer referrer_id).
Proof.
  intros [Hinit _] Hcall.
  assert (Hnew : forall t f,
            maintains stays_nonnegative
              (new_User match reputation with
                        | None => USER_INITIAL_REPUTATION self
                        | Some r => r
                        end t f)).
  { intros t f s Hpos. unfold nonnegative_reputations. cbn.
    apply Forall_app. split; [exact Hpos |].
    constructor; [| constructor]. cbn.
    destruct reputation; [exact Hcall | exact Hinit]. }
  unfold create_user, get_user. cbv zeta.
  destruct referrer, referrer_id; stays_nonnegative_split; auto.
Qed.

Lemma BaseContract_parameters : nonnegative_parameters BaseContract.
Proof.
  split; [cbn; lra |]. split; [cbn; lra |].
  intros t ct. cbn. destruct (String.eqb t "base"); intro H; inversion H.
  cbn. lra.
Qed.

Lemma referral_history_calls : Forall nonnegative_call referral_history.
Proof. unfold referral_history. repeat constructor; cbn; lra. Qed.

(** X14. Reputation never turns negative.  For a contract whose [stake] is
    between 0 and 1 and whose [distribution_stake],
    [reputation_reward_factor], REFERRAL_REWARD_FRACTION and
    USER_INITIAL_REPUTATION are not negative, as in the base contract, along
    any history of calls that creates no user with a negative reputation,
    a store without negative reputations stays without them, whether the
    calls return or raise. *)
Theorem reputation_is_never_negative :
  forall (self : Contract) (history : list call) (s : DBSession),
    nonnegative_parameters self ->
    Forall nonnegative_call history ->
    nonnegative_reputations s ->
    nonnegative_reputations (run_calls self history s).
Proof.
  intros self history s Hpar Hcalls. revert s.
  induction Hcalls as [| c history Hc Hcalls IH]; intros s Hpos; cbn.
  - exact Hpos.
  - apply IH. destruct c as [t r f i | u t | u c v]; cbn [run_call].
    + exact (stays_nonnegative_create_user self t r f i Hpar Hc s Hpos).
    + exact (stays_nonnegative_create_contribution self u t s Hpos).
    + exact (stays_nonnegative_create_evaluation self u c v Hpar s Hpos).
Qed.

Lemma reputation_is_never_negative_witness :
  nonnegative_reputations
    (run_calls BaseContract referral_history empty_session).
Proof.
  apply (reputation_is_never_negative BaseContract referral_history
           empty_session BaseContract_parameters referral_history_calls).
  constructor.
Defined.

(** * The exceptions of the contract *)

Lemma step_error_cases (e : exn) :
  step_error e ->
  e = AttributeError \/ e = TypeError \/ e = ZeroDivisionError
  \/ e = ValueError msg_negative_fractional_power
  \/ exists t, e = KeyError (msg_contribution_type_not_valid t).
Proof.
  destruct e as [m | m | m | | | |]; try destruct m; cbn; intro H;
    try contradiction; auto 6.
  right. right. right. right. eexists. reflexivity.
Qed.

(** X15. The exceptions of the two calls that write.  [create_evaluation]
    raises nothing but the ValueError of an invalid value, AttributeError
    (a contribution or a user that is not stored), the KeyError of a type
    that is not configured, TypeError (an aggregate over no rows),
    ZeroDivisionError (no reputation to divide by) and the ValueError of a
    negative number raised to a fractional power; for a contribution that
    is not stored it raises AttributeError and writes nothing.
    [create_contribution] raises nothing but IndexError (no type is
    configured), that KeyError, AttributeError and the exception for too
    few tokens. *)
Theorem exceptions_of_the_writing_calls :
  forall (self : Contract) (user : Z) (s : DBSession),
    (forall contribution value e,
       fst (create_evaluation self user contribution value s) = Raise e ->
       e = ValueError (msg_evaluation_value_not_valid value)
       \/ e = AttributeError \/ e = TypeError \/ e = ZeroDivisionError
       \/ e = ValueError msg_negative_fractional_power
       \/ exists t, e = KeyError (msg_contribution_type_not_valid t))
    /\ (forall contribution value,
          query_Contribution_get contribution s = None ->
          create_evaluation self user contribution value s
          = (Raise AttributeError, s))
    /\ (forall t e,
          fst (create_contribution self user t s) = Raise e ->
          e = IndexError \/ e = AttributeError
          \/ e = Exception_ msg_not_enough_tokens
          \/ exists k, e = KeyError (msg_contribution_type_not_valid k)).
Proof.
  intros self user s. split; [| split].
  - intros contribution value e He.
    destruct (query_Contribution_get contribution s) as [c |] eqn:Hc.
    + destruct (lookup_type (CONTRIBUTION_TYPE self)
                  (Contribution.contribution_type c)) as [ct |] eqn:Hct.
      * rewrite (create_evaluation_validates self user contribution value
                   s c ct Hc Hct) in He.
        destruct (existsb _ _).
        -- right.
           apply step_error_cases.
           exact (step_errors_after_validation self user contribution value
                    s e He).
        -- cbn in He. inversion He. now left.
      * unfold create_evaluation in He.
        rewrite (bind_Ok _ (contribution_attr_Some _ Hc)) in He.
        unfold is_evaluation_value_allowed, getitem_type in He.
        rewrite Hct in He. cbn in He. inversion He.
        do 5 right. eexists. reflexivity.
    + unfold create_evaluation, contribution_attr, bind in He.
      rewrite Hc in He. cbn in He. inversion He. auto.
  - intros contribution value Hc.
    unfold create_evaluation, contribution_attr, bind. now rewrite Hc.
  - intros t e.
    create_contribution_cases self user t s; cbn; intro H; inversion H;
      auto; do 3 right; eexists; reflexivity.
Qed.

(** * Listing contributions by ascending score *)

Lemma insert_by_key_ascending {A} (x : R * A) (l : list (R * A)) :
  StronglySorted (fun a b => fst a <= fst b) l ->
  StronglySorted (fun a b => fst a <= fst b) (insert_by_key false x l).
Proof.
  induction 1 as [| y l Hl IH Hy]; cbn.
  - constructor; constructor.
  - destruct (Rltb (fst y) (fst x)) eqn:E.
    + apply Rltb_spec in E. constructor; [exact IH |].
      eapply Permutation_Forall; [symmetry; apply insert_by_key_perm |].
      constructor; [lra | exact Hy].
    + assert (Hle : fst x <= fst y).
      { destruct (Rle_dec (fst x) (fst y)) as [H | H]; [exact H |].
        exfalso. assert (Hlt : fst y < fst x) by lra.
        apply Rltb_spec in Hlt. congruence. }
      constructor; [constructor; assumption |].
      constructor; [exact Hle |].
      eapply Forall_impl; [| exact Hy]. cbn. intros a Ha. lra.
Qed.

Lemma sort_by_key_ascending {A} (l : list (R * A)) :
  StronglySorted (fun a b => fst a <= fst b) (sort_by_key false l).
Proof.
  induction l as [| x l IH]; cbn; [constructor |].
  apply insert_by_key_ascending. exact IH.
Qed.

(** [get_contributions] by score, in terms of the scores it computes. *)
Lemma get_contributions_by_score (reverse : bool) (start : Z)
  (limit contributor_id : option Z) (s : DBSession) :
  get_contributions start limit contributor_id
    (if reverse then "-score" else "score") s
  = match fst (map_M (fun x => contribution_score (Contribution.id x))
                 (contributions s) s) with
    | Ok keys =>
        (Ok (let results :=
               slice_from start
                 (map snd
                    (sort_by_key reverse (combine keys (contributions s))))
             in
             if truthy limit
             then match limit with
                  | Some n => slice_to n results
                  | None => results
                  end
             else results), s)
    | Raise e => (Raise e, s)
    end.
Proof.
  destruct (map_M_read_only
              (fun x => contribution_score (Contribution.id x))
              (contributions s) s
              (fun x => read_only_contribution_score (Contribution.id x)))
    as [Hsnd _].
  unfold get_contributions.
  destruct reverse; cbn [String.eqb Ascii.eqb Bool.eqb];
    unfold bind, gets, ret;
    destruct (map_M (fun x => contribution_score (Contribution.id x))
                (contributions s) s) as [[keys | e] s1]; cbn in *;
    subst s1; reflexivity.
Qed.

Lemma contribution_score_needs_reputation contribution s :
  sql_sum (map User.reputation (users s)) = None
  \/ sql_sum (map User.reputation (users s)) = Some 0 ->
  exists e, contribution_score contribution s = (Raise e, s).
Proof.
  intro Htotal.
  pose proof (read_only_contribution_score contribution s) as Hs.
  destruct (contribution_score contribution s) as [[x | e] s1] eqn:E;
    cbn in Hs; subst s1; [| now exists e].
  exfalso. apply contribution_score_inv in E.
  destruct E as [_ [up [down [total [row [_ [_ [Ht [Hnz _]]]]]]]]].
  rewrite Ht in Htotal. destruct Htotal as [H | H]; inversion H. lra.
Qed.

(** X16. [get_contributions] with [order_by] 'score' only reads.  When it
    returns, the result is a slice (from [start], of at most [limit] if
    [limit] is non-zero) of the stored contributions ranked by their
    [contribution_score], lowest first, and it does return whenever every
    stored contribution has a score.  On a store that holds a contribution
    but no reputation (no user, or a total reputation of 0) no score can be
    computed: both 'score' and the default '-score' raise, and leave the
    store as it was. *)
Theorem get_contributions_orders_by_ascending_score :
  forall (start : Z) (limit contributor_id : option Z) (s : DBSession),
    snd (get_contributions start limit contributor_id "score" s) = s
    /\ (forall results,
          fst (get_contributions start limit contributor_id "score" s)
          = Ok results ->
          exists ranked : list (R * Contribution.t),
            Permutation (map snd ranked) (contributions s)
            /\ Forall
                 (fun kc =>
                    contribution_score (Contribution.id (snd kc)) s
                    = (Ok (fst kc), s))
                 ranked
            /\ StronglySorted (fun a b => fst a <= fst b) ranked
            /\ results
               = let results := slice_from start (map snd ranked) in
                 if truthy limit
                 then match limit with
                      | Some n => slice_to n results
                      | None => results
                      end
                 else results)
    /\ (Forall
          (fun c => exists k,
             contribution_score (Contribution.id c) s = (Ok k, s))
          (contributions s) ->
        exists results,
          get_contributions start limit contributor_id "score" s
          = (Ok results, s))
    /\ (contributions s <> [] ->
        sql_sum (map User.reputation (users s)) = None
        \/ sql_sum (map User.reputation (users s)) = Some 0 ->
        exists e,
          get_contributions start limit contributor_id "score" s
          = (Raise e, s)
          /\ get_contributions start limit contributor_id "-score" s
             = (Raise e, s)).
Proof.
  intros start limit contributor_id s.
  pose proof (get_contributions_by_score false start limit contributor_id s)
    as Hasc.
  pose proof (get_contributions_by_score true start limit contributor_id s)
    as Hdesc.
  cbv iota in Hasc, Hdesc.
  destruct (map_M_read_only
              (fun x => contribution_score (Contribution.id x))
              (contributions s) s
              (fun x => read_only_contribution_score (Contribution.id x)))
    as [_ Hkeys].
  split; [| split; [| split]].
  - rewrite Hasc. destruct (fst (map_M _ (contributions s) s)); reflexivity.
  - intros results H. rewrite Hasc in H.
    destruct (fst (map_M (fun x => contribution_score (Contribution.id x))
                     (contributions s) s)) as [keys | e] eqn:Erun;
      [| discriminate H].
    cbn [fst] in H. inversion H as [Hres]. clear H.
    destruct (Forall2_combine _ _ _ (Hkeys keys eq_refl)) as [Hmap Hall].
    exists (sort_by_key false (combine keys (contributions s))).
    split; [| split; [| split]].
    + rewrite (Permutation_map snd (sort_by_key_perm false _)), Hmap.
      reflexivity.
    + eapply Permutation_Forall; [symmetry; apply sort_by_key_perm |].
      exact Hall.
    + apply sort_by_key_ascending.
    + reflexivity.
  - intro Hall.
    destruct (map_M_total
                (fun x => contribution_score (Contribution.id x)) _ _ Hall)
      as [ys Hys].
    rewrite Hasc, Hys. now eexists.
  - intros Hsome Htotal.
    destruct (contributions s) as [| c0 rest]; [contradiction |].
    destruct (contribution_score_needs_reputation (Contribution.id c0) s
                Htotal) as [e He].
    cbn [map_M] in Hasc, Hdesc.
    rewrite (bind_Raise _ He) in Hasc, Hdesc.
    exists e. split; assumption.
Qed.
